(** * NewsPassID: identity ingestion pipeline

    A shallow embedding of the backend ingestion handler
    ([lambda/src/index.ts], in its TypeScript and its JavaScript revision,
    with [lambda/src/utils.ts]), of the client's [setID]
    ([core/newspassid.ts]) and of the asynchronous loader shim
    ([async-loader.ts]), and the properties of the design document that
    concern them. *)

From Stdlib Require Import ZArith String Ascii List Bool Lia DecimalString.
From stdpp Require Import base option list strings gmap.

Set Warnings "-register-all".

Open Scope string_scope.
Open Scope Z_scope.

(** ** The JavaScript runtime the code runs on *)

Module JS.

(** Values produced by [JSON.parse].  [JNum] carries the integer-valued
    numbers of the safe range, on which decimal printing and comparison are
    exact.  [JObj] lists the own properties of an object, each key once.
    [undefined] is not a JSON value: a possibly undefined value is an
    [option JValue], with [None] for [undefined]. *)
Inductive JValue : Type :=
| JNull
| JBool (b : bool)
| JNum (n : Z)
| JStr (s : string)
| JArr (items : list JValue)
| JObj (props : list (string * JValue)).

(** A JavaScript number that may be [NaN] (the result of [parseInt], or a
    numeric column of a table). *)
Inductive Number : Type :=
| NaN
| Int (n : Z).

(** [a > b] on numbers: every comparison with [NaN] is false. *)
Definition number_gt (a : Number) (b : Z) : bool :=
  match a with
  | NaN => false
  | Int n => b <? n
  end.

Definition isNaN (a : Number) : bool :=
  match a with NaN => true | Int _ => false end.

(** Truthiness ([ToBoolean]): [undefined], [null], [false], [0] and the
    empty string are falsy, every array and object is truthy. *)
Definition truthy (v : option JValue) : bool :=
  match v with
  | None => false
  | Some JNull => false
  | Some (JBool b) => b
  | Some (JNum n) => negb (n =? 0)
  | Some (JStr s) => negb (bool_decide (s = ""))
  | Some (JArr _) => true
  | Some (JObj _) => true
  end.

Definition string_truthy (s : string) : bool := negb (bool_decide (s = "")).

Definition number_to_string (n : Z) : string :=
  NilZero.string_of_int (Z.to_int n).

Fixpoint assoc {A : Type} (k : string) (l : list (string * A)) : option A :=
  match l with
  | [] => None
  | (k', v) :: rest => if bool_decide (k' = k) then Some v else assoc k rest
  end.

Definition has_key {A : Type} (k : string) (l : list (string * A)) : bool :=
  match assoc k l with Some _ => true | None => false end.

Section Join.
Variable elem_to_string : JValue -> option string.

(** An element of an array being joined: [null] prints as the empty
    string, anything else by [ToString], which can throw ([None]). *)
Definition join_elem (v : JValue) : option string :=
  match v with
  | JNull => Some ""
  | _ => elem_to_string v
  end.

Fixpoint join_with (sep : string) (l : list JValue) : option string :=
  match l with
  | [] => Some ""
  | x :: rest =>
      match join_elem x with
      | None => None
      | Some s =>
          match rest with
          | [] => Some s
          | _ :: _ =>
              match join_with sep rest with
              | None => None
              | Some r => Some (s +:+ sep +:+ r)
              end
          end
      end
  end.
End Join.

(** [ToString] of a JSON value; [None] is the [TypeError] of an object that
    cannot be converted to a primitive (its own [toString] property, a JSON
    value, hides the callable one of [Object.prototype]). *)
Fixpoint to_string (v : JValue) : option string :=
  match v with
  | JNull => Some "null"
  | JBool true => Some "true"
  | JBool false => Some "false"
  | JNum n => Some (number_to_string n)
  | JStr s => Some s
  | JArr items => join_with to_string "," items
  | JObj props => if has_key "toString" props then None else Some "[object Object]"
  end.

(** [Array.prototype.join] on an array of JSON values. *)
Definition array_join (sep : string) (l : list JValue) : option string :=
  join_with to_string sep l.

(** [Array.prototype.join] on an array of strings in which an entry may be
    [undefined]; such an entry prints as the empty string. *)
Fixpoint strings_join (sep : string) (l : list (option string)) : string :=
  match l with
  | [] => ""
  | x :: rest =>
      let s := default "" x in
      match rest with
      | [] => s
      | _ :: _ => s +:+ sep +:+ strings_join sep rest
      end
  end.

(** ** Strings *)

Fixpoint strip_prefix (p s : string) : option string :=
  match p with
  | EmptyString => Some s
  | String c p' =>
      match s with
      | EmptyString => None
      | String d s' => if bool_decide (c = d) then strip_prefix p' s' else None
      end
  end.

Definition is_digit (c : ascii) : bool :=
  let n := nat_of_ascii c in (Nat.leb 48 n) && (Nat.leb n 57).

Fixpoint all_chars (p : ascii -> bool) (s : string) : bool :=
  match s with
  | EmptyString => true
  | String c s' => p c && all_chars p s'
  end.

(** [s.split(sep)] for a one-character separator: never empty, the empty
    string splits into one empty part. *)
Fixpoint split (sep : ascii) (s : string) : list string :=
  match s with
  | EmptyString => [EmptyString]
  | String c s' =>
      if bool_decide (c = sep) then EmptyString :: split sep s'
      else
        match split sep s' with
        | [] => [String c EmptyString]
        | h :: t => String c h :: t
        end
  end.

(** White space of [trim] and [parseInt], on the ASCII range. *)
Definition is_space (c : ascii) : bool :=
  let n := nat_of_ascii c in
  (Nat.leb 9 n && Nat.leb n 13) || Nat.eqb n 32.

Fixpoint trim_start (s : string) : string :=
  match s with
  | EmptyString => EmptyString
  | String c s' => if is_space c then trim_start s' else s
  end.

Fixpoint trim_end (s : string) : string :=
  match s with
  | EmptyString => EmptyString
  | String c s' =>
      match trim_end s' with
      | EmptyString => if is_space c then EmptyString else String c EmptyString
      | t => String c t
      end
  end.

Definition trim (s : string) : string := trim_end (trim_start s).

(** The value of the longest prefix of decimal digits, with the number of
    digits read. *)
Fixpoint read_digits (acc : Z) (count : nat) (s : string) : Z * nat :=
  match s with
  | EmptyString => (acc, count)
  | String c s' =>
      if is_digit c
      then read_digits (10 * acc + Z.of_nat (nat_of_ascii c - 48)) (S count) s'
      else (acc, count)
  end.

Definition digits_value (s : string) : Number :=
  match read_digits 0 0%nat s with
  | (_, O) => NaN
  | (n, S _) => Int n
  end.

Definition negate (a : Number) : Number :=
  match a with NaN => NaN | Int n => Int (- n) end.

(** [parseInt(v, 10)]: [undefined] reads as the text ["undefined"], leading
    white space is skipped, one sign is accepted, the digits that follow are
    read and whatever comes after them is ignored; no digit gives [NaN]. *)
Definition parseInt (v : option string) : Number :=
  match v with
  | None => NaN
  | Some s =>
      match trim_start s with
      | String "-" rest => negate (digits_value rest)
      | String "+" rest => digits_value rest
      | t => digits_value t
      end
  end.

(** [arr.indexOf(x)] on an array of strings; [None] is [-1]. *)
Fixpoint indexOf (x : string) (l : list string) : option nat :=
  match l with
  | [] => None
  | y :: rest =>
      if bool_decide (y = x) then Some O
      else match indexOf x rest with
           | Some i => Some (S i)
           | None => None
           end
  end.

(** ** Errors, console and the object store *)

Record JsError : Type := mkError {
  err_name : string;
  err_message : string;
  err_code : option string
}.

Definition Error (msg : string) : JsError := mkError "Error" msg None.
Definition TypeError (msg : string) : JsError := mkError "TypeError" msg None.
Definition SyntaxError (msg : string) : JsError := mkError "SyntaxError" msg None.

Inductive ConsoleLevel : Type := LevelLog | LevelWarn | LevelError.

Record ConsoleLine : Type := mkLine {
  line_level : ConsoleLevel;
  line_text : string;
  line_error : option JsError
}.

(** A call made on the S3 client, as a test double records it; a
    [PutObjectCall] says whether the promise resolved. *)
Inductive S3Call : Type :=
| GetObjectCall (key : string)
| PutObjectCall (key body : string) (resolved : bool).

Definition is_put (c : S3Call) : bool :=
  match c with PutObjectCall _ _ _ => true | GetObjectCall _ => false end.

(** The mutable world of one invocation: the content of the storage bucket
    (every call names the one bucket of [process.env.STORAGE_BUCKET]), the
    calls made on the S3 client and the console. *)
Record World : Type := mkWorld {
  bucket : gmap string string;
  s3_calls : list S3Call;
  console : list ConsoleLine
}.

(** A read that is not answered from the bucket: the promise rejects, or
    the response has no [Body]. *)
Inductive GetFault : Type :=
| GetRejects (e : JsError)
| GetNoBody.

(** A record of the segment table, with the fields as the interface
    [SegmentRecord] of the source declares them: a name and a number. *)
Record SegmentRecord : Type := mkSegment {
  segments : string;
  expire_timestamp : Number
}.

(** What the code takes from outside: built-ins of the platform
    ([JSON.parse], [new URL(..).hostname], [Date.now()]), the [csv-parse]
    library, the process environment, and the faults of the storage
    service ([s3_put_fault n] is the fate of the [n]-th [putObject] call). *)
Record Runtime : Type := mkRuntime {
  JSON_parse : string -> option JValue;
  URL_hostname : string -> option string;
  csv_parse : string -> option (list SegmentRecord);
  Date_now : Z;
  env_ID_FOLDER : option string;
  s3_get_fault : string -> option GetFault;
  s3_put_fault : nat -> option JsError
}.

(** ** Computations that change the world and may throw *)

Inductive Outcome (A : Type) : Type :=
| Returned (a : A)
| Thrown (e : JsError).
Arguments Returned {A} a.
Arguments Thrown {A} e.

Definition M (A : Type) : Type := World -> Outcome A * World.

Definition ret {A : Type} (a : A) : M A := fun w => (Returned a, w).

Definition throw {A : Type} (e : JsError) : M A := fun w => (Thrown e, w).

Definition bind {A B : Type} (m : M A) (k : A -> M B) : M B :=
  fun w =>
    match m w with
    | (Returned a, w') => k a w'
    | (Thrown e, w') => (Thrown e, w')
    end.

(** [try { m } catch (error) { h error }] *)
Definition try_catch {A : Type} (m : M A) (h : JsError -> M A) : M A :=
  fun w =>
    match m w with
    | (Returned a, w') => (Returned a, w')
    | (Thrown e, w') => h e w'
    end.

Definition or_throw {A : Type} (o : option A) (e : JsError) : M A :=
  match o with
  | Some a => ret a
  | None => throw e
  end.

Definition console_write (lvl : ConsoleLevel) (text : string) (e : option JsError) : M unit :=
  fun w =>
    (Returned tt,
     mkWorld (bucket w) (s3_calls w) (console w ++ [mkLine lvl text e])).

Definition console_error (text : string) (e : JsError) : M unit :=
  console_write LevelError text (Some e).

Definition console_warn (text : string) : M unit :=
  console_write LevelWarn text None.

Record GetObjectOutput : Type := mkOutput { Body : option string }.

Definition NoSuchKey : JsError :=
  mkError "NoSuchKey" "The specified key does not exist." (Some "NoSuchKey").

(** [s3.getObject({Key}).promise()] *)
Definition s3_getObject (rt : Runtime) (key : string) : M GetObjectOutput :=
  fun w =>
    let w' := mkWorld (bucket w) (s3_calls w ++ [GetObjectCall key]) (console w) in
    match s3_get_fault rt key with
    | Some (GetRejects e) => (Thrown e, w')
    | Some GetNoBody => (Returned (mkOutput None), w')
    | None =>
        match bucket w !! key with
        | Some content => (Returned (mkOutput (Some content)), w')
        | None => (Thrown NoSuchKey, w')
        end
    end.

Definition puts_so_far (w : World) : nat :=
  List.length (List.filter is_put (s3_calls w)).

(** [s3.putObject({Key, Body}).promise()] *)
Definition s3_putObject (rt : Runtime) (key body : string) : M unit :=
  fun w =>
    match s3_put_fault rt (puts_so_far w) with
    | Some e =>
        (Thrown e,
         mkWorld (bucket w) (s3_calls w ++ [PutObjectCall key body false]) (console w))
    | None =>
        (Returned tt,
         mkWorld (<[key := body]> (bucket w))
                 (s3_calls w ++ [PutObjectCall key body true]) (console w))
    end.

(** [process.env.ID_FOLDER || 'newspassid'] *)
Definition ID_FOLDER (rt : Runtime) : string :=
  match env_ID_FOLDER rt with
  | Some s => if string_truthy s then s else "newspassid"
  | None => "newspassid"
  end.

End JS.

Declare Scope js_scope.
Delimit Scope js_scope with js.
Notation "x <- m ;; k" := (JS.bind m (fun x => k))
  (at level 100, m at next level, right associativity) : js_scope.
Notation "m ;;; k" := (JS.bind m (fun _ => k))
  (at level 100, right associativity) : js_scope.

Import JS.
Open Scope js_scope.

Definition newline : string := String (ascii_of_nat 10) EmptyString.
Definition dquote : string := String (ascii_of_nat 34) EmptyString.

(** [ToString] as a computation: it throws where [to_string] has no
    result; [undefined] prints as its name. *)
Definition ToString (v : option JValue) : M string :=
  match v with
  | None => ret "undefined"
  | Some x => or_throw (to_string x) (TypeError "Cannot convert object to primitive value")
  end.

(** [v.k] for a key that no built-in prototype defines: reading a property
    of [null] throws, a missing property reads as [undefined]. *)
Definition get_prop (v : JValue) (k : string) : M (option JValue) :=
  match v with
  | JNull => throw (TypeError ("Cannot read properties of null (reading '" +:+ k +:+ "')"))
  | JObj props => ret (assoc k props)
  | _ => ret None
  end.

(** ** The request and the response of the API gateway *)

Record Headers : Type := mkHeaders { origin : option string }.

(** The event of the gateway: a body that is absent is [null]. *)
Record APIGatewayProxyEvent : Type := mkEvent {
  httpMethod : option string;
  body : option string;
  headers : option Headers
}.

(** The body of a response: a literal text, or [JSON.stringify] of a
    value. *)
Inductive ResponseBody : Type :=
| TextBody (s : string)
| JsonBody (v : JValue).

Record APIGatewayProxyResult : Type := mkResult {
  statusCode : Z;
  res_headers : list (string * string);
  res_body : ResponseBody
}.

(** ** lambda/src/utils.ts *)

Module Utils.

(** [event.headers?.origin || '*'] *)
Definition getCorsHeaders (event : APIGatewayProxyEvent) : list (string * string) :=
  let origin :=
    match headers event with
    | Some h =>
        match origin h with
        | Some o => if string_truthy o then o else "*"
        | None => "*"
        end
    | None => "*"
    end in
  [ ("Access-Control-Allow-Origin", origin);
    ("Access-Control-Allow-Methods", "POST,OPTIONS");
    ("Access-Control-Allow-Headers", "Content-Type,Authorization");
    ("Access-Control-Allow-Credentials", "true") ].

Definition empty_event : APIGatewayProxyEvent := mkEvent None None None.

Definition errorResponse (statusCode : Z) (message : string) : APIGatewayProxyResult :=
  mkResult statusCode (getCorsHeaders empty_event)
    (JsonBody (JObj [("success", JBool false); ("error", JStr message)])).

(** [parts.length === 2 && parts[0].length > 0 && parts[1].length > 0] *)
Definition two_parts (parts : list string) : bool :=
  match parts with
  | [p0; p1] => string_truthy p0 && string_truthy p1
  | _ => false
  end.

Definition isValidId (id : option JValue) : bool :=
  match id with
  | Some (JStr s) =>
      if negb (string_truthy s) then false
      else two_parts (split "-" s)
  | _ => false
  end.

(** [id.split('-')[0]]; [split] never returns the empty array. *)
Definition getNamespaceFromId (id : string) : string :=
  match split "-" id with
  | p0 :: _ => p0
  | [] => EmptyString
  end.

End Utils.

Definition success_body (id : option JValue) (segs : list JValue) : ResponseBody :=
  JsonBody (JObj (("success", JBool true)
                  :: match id with
                     | Some v => [("id", v)]
                     | None => []
                     end
                  ++ [("segments", JArr segs)])).

Definition failure_body (message : string) : ResponseBody :=
  JsonBody (JObj [("success", JBool false); ("error", JStr message)]).

Definition missing_fields_message : string :=
  "Missing required fields. All requests must include id, timestamp, url, and consentString.".

Definition event_header : string :=
  "id,timestamp,url,consentString,previousId,segments,publisherSegments".

Definition mapping_header : string := "oldId,newId,timestamp".

Definition quoted (s : string) : string := dquote +:+ s +:+ dquote.

(** [domain.replace(/^www\./, '')] *)
Definition strip_www (domain : string) : string :=
  match strip_prefix "www." domain with
  | Some rest => rest
  | None => domain
  end.

(** The body of [getDomainFromUrl], the same in both revisions: any
    exception of [new URL(url)] gives ['unknown']. *)
Definition getDomainFromUrl (rt : Runtime) (url : option JValue) : string :=
  match url with
  | None => "unknown"
  | Some u =>
      match to_string u with
      | None => "unknown"
      | Some text =>
          match URL_hostname rt text with
          | Some domain => strip_www domain
          | None => "unknown"
          end
      end
  end.

(** ** lambda/src/index.ts, TypeScript revision *)

Module IndexTs.

Definition getValidSegments (rt : Runtime) (segmentsFile : string) : M (list string) :=
  try_catch
    (response <- s3_getObject rt segmentsFile ;;
     match Body response with
     | None => ret []
     | Some content =>
         records <- or_throw (csv_parse rt content) (Error "Invalid CSV") ;;
         let now := Date_now rt in
         ret (List.map segments
                (List.filter (fun record => number_gt (expire_timestamp record) now)
                   records))
     end)
    (fun error =>
       console_error "Error reading segments:" error ;;;
       throw error).

(** [/^publisher-\d+$/.test(id)]; [test] converts its argument to a string
    first. *)
Definition matches_publisher_digits (s : string) : bool :=
  match strip_prefix "publisher-" s with
  | Some rest => string_truthy rest && all_chars is_digit rest
  | None => false
  end.

Definition validateId (id : option JValue) : M bool :=
  s <- ToString id ;;
  ret (matches_publisher_digits s).

(** [data.publisherSegments?.join('|') || ''] *)
Definition publisherSegments_text (v : option JValue) : M string :=
  match v with
  | None => ret EmptyString
  | Some JNull => ret EmptyString
  | Some (JArr items) =>
      or_throw (array_join "|" items)
        (TypeError "Cannot convert object to primitive value")
  | Some _ => throw (TypeError "data.publisherSegments.join is not a function")
  end.

Definition handler (rt : Runtime) (event : APIGatewayProxyEvent) : M APIGatewayProxyResult :=
  if bool_decide (httpMethod event = Some "OPTIONS") then
    ret (mkResult 200 (Utils.getCorsHeaders event) (TextBody EmptyString))
  else
    try_catch
      (text <- match body event with
               | Some b => if string_truthy b then ret b
                           else throw (Error "Missing request body")
               | None => throw (Error "Missing request body")
               end ;;
       data <- or_throw (JSON_parse rt text) (SyntaxError "Unexpected token in JSON") ;;
       id <- get_prop data "id" ;;
       timestamp <- get_prop data "timestamp" ;;
       url <- get_prop data "url" ;;
       consentString <- get_prop data "consentString" ;;
       if negb (truthy id) || negb (truthy timestamp)
          || negb (truthy url) || negb (truthy consentString)
       then
         ret (mkResult 400 (Utils.getCorsHeaders event)
                (failure_body missing_fields_message))
       else
         valid <- validateId id ;;
         if negb valid then
           ret (mkResult 400 (Utils.getCorsHeaders event)
                  (failure_body "Invalid ID format"))
         else
           let domain := getDomainFromUrl rt url in
           let segmentsFile := ID_FOLDER rt +:+ "/segments.csv" in
           validSegments <- getValidSegments rt segmentsFile ;;
           previousId <- get_prop data "previousId" ;;
           publisherSegments <- get_prop data "publisherSegments" ;;
           id_s <- ToString id ;;
           timestamp_s <- ToString timestamp ;;
           url_s <- ToString url ;;
           consent_s <- ToString consentString ;;
           previous_s <- (if truthy previousId then ToString previousId
                          else ret EmptyString) ;;
           publisher_s <- publisherSegments_text publisherSegments ;;
           let csvContent :=
             event_header +:+ newline +:+
             quoted id_s +:+ "," +:+ quoted timestamp_s +:+ "," +:+
             quoted url_s +:+ "," +:+ quoted consent_s +:+ "," +:+
             quoted previous_s +:+ "," +:+
             quoted (strings_join "," (List.map Some validSegments)) +:+ "," +:+
             quoted publisher_s in
           s3_putObject rt
             (ID_FOLDER rt +:+ "/publisher/" +:+ domain +:+ "/" +:+ id_s
                +:+ "/" +:+ timestamp_s +:+ ".csv")
             csvContent ;;;
           (if truthy previousId then
              let mappingContent :=
                mapping_header +:+ newline +:+
                quoted previous_s +:+ "," +:+ quoted id_s +:+ "," +:+ timestamp_s in
              s3_putObject rt
                (ID_FOLDER rt +:+ "/publisher/mappings/" +:+ previous_s +:+ ".csv")
                mappingContent
            else ret tt) ;;;
           ret (mkResult 200 (Utils.getCorsHeaders event)
                  (success_body id (List.map JStr validSegments))))
      (fun error =>
         console_error "Error processing request:" error ;;;
         ret (mkResult 500 (Utils.getCorsHeaders event)
                (failure_body "Internal server error"))).

End IndexTs.

(** ** lambda/src/index.ts, JavaScript revision *)

Module IndexJs.

(** The loop of [getValidSegments] over the lines after the header;
    [validSegments] is the array being pushed to, [values[i]] is
    [undefined] beyond the end of a row. *)
Fixpoint scan_lines (segmentIndex expireIndex : nat) (currentTime : Z)
    (lines : list string) (validSegments : list (option string))
    : list (option string) :=
  match lines with
  | [] => validSegments
  | line :: rest =>
      if negb (string_truthy (trim line)) then
        scan_lines segmentIndex expireIndex currentTime rest validSegments
      else
        let values := split "," line in
        let expireTimestamp := parseInt (values !! expireIndex) in
        if negb (isNaN expireTimestamp) && number_gt expireTimestamp currentTime then
          scan_lines segmentIndex expireIndex currentTime rest
            (validSegments ++ [values !! segmentIndex])
        else
          scan_lines segmentIndex expireIndex currentTime rest validSegments
  end.

Definition getValidSegments (rt : Runtime) (namespace domain id : string)
    : M (list (option string)) :=
  try_catch
    (let segmentsKey :=
       ID_FOLDER rt +:+ "/" +:+ namespace +:+ "/" +:+ domain +:+ "/" +:+ id
         +:+ "/segments.csv" in
     segmentsData <- s3_getObject rt segmentsKey ;;
     csvContent <- or_throw (Body segmentsData)
                     (TypeError "Cannot read properties of undefined (reading 'toString')") ;;
     let lines := split (ascii_of_nat 10) csvContent in
     let headers := split "," (List.hd EmptyString lines) in
     match indexOf "segments" headers, indexOf "expire_timestamp" headers with
     | Some segmentIndex, Some expireIndex =>
         let currentTime := Date_now rt in
         ret (scan_lines segmentIndex expireIndex currentTime (List.tl lines) [])
     | _, _ =>
         console_warn "Missing required columns in segments file" ;;;
         ret []
     end)
    (fun error =>
       if bool_decide (err_code error = Some "NoSuchKey") then ret []
       else
         console_error "Error reading segments:" error ;;;
         ret []).

(** [(body.publisherSegments || []).join('|')] *)
Definition publisherSegments_text (v : option JValue) : M string :=
  if negb (truthy v) then ret EmptyString
  else
    match v with
    | Some (JArr items) =>
        or_throw (array_join "|" items)
          (TypeError "Cannot convert object to primitive value")
    | _ => throw (TypeError "(body.publisherSegments || []).join is not a function")
    end.

Definition segment_value (s : option string) : JValue :=
  match s with
  | Some x => JStr x
  | None => JNull
  end.

Definition handler (rt : Runtime) (event : APIGatewayProxyEvent) : M APIGatewayProxyResult :=
  try_catch
    (data <- match body event with
             | Some text =>
                 or_throw (JSON_parse rt text) (SyntaxError "Unexpected token in JSON")
             | None => ret JNull
             end ;;
     id <- get_prop data "id" ;;
     timestamp <- get_prop data "timestamp" ;;
     url <- get_prop data "url" ;;
     consentString <- get_prop data "consentString" ;;
     if negb (truthy id) || negb (truthy timestamp)
        || negb (truthy url) || negb (truthy consentString)
     then ret (Utils.errorResponse 400 missing_fields_message)
     else if negb (Utils.isValidId id)
     then ret (Utils.errorResponse 400 "Invalid ID format")
     else
       id_s <- ToString id ;;
       let namespace := Utils.getNamespaceFromId id_s in
       let domain := getDomainFromUrl rt url in
       validSegments <- getValidSegments rt namespace domain id_s ;;
       timestamp_s <- ToString timestamp ;;
       let fileKey :=
         ID_FOLDER rt +:+ "/" +:+ namespace +:+ "/" +:+ domain +:+ "/" +:+ id_s
           +:+ "/" +:+ timestamp_s +:+ ".csv" in
       previousId <- get_prop data "previousId" ;;
       publisherSegments <- get_prop data "publisherSegments" ;;
       publisher_s <- publisherSegments_text publisherSegments ;;
       url_s <- ToString url ;;
       consent_s <- ToString consentString ;;
       previous_s <- (if truthy previousId then ToString previousId
                      else ret EmptyString) ;;
       let csvContent :=
         event_header +:+ newline +:+
         quoted id_s +:+ "," +:+ quoted timestamp_s +:+ "," +:+
         quoted url_s +:+ "," +:+ quoted consent_s +:+ "," +:+
         quoted previous_s +:+ "," +:+
         quoted (strings_join "|" validSegments) +:+ "," +:+
         quoted publisher_s in
       s3_putObject rt fileKey csvContent ;;;
       (if truthy previousId then
          let mappingKey :=
            ID_FOLDER rt +:+ "/" +:+ namespace +:+ "/mappings/" +:+ previous_s
              +:+ ".csv" in
          let mappingContent :=
            mapping_header +:+ newline +:+
            quoted previous_s +:+ "," +:+ quoted id_s +:+ "," +:+ timestamp_s in
          s3_putObject rt mappingKey mappingContent
        else ret tt) ;;;
       ret (mkResult 200 (Utils.getCorsHeaders event)
              (success_body id (List.map segment_value validSegments))))
    (fun error =>
       console_error "Error processing NewsPassID:" error ;;;
       ret (Utils.errorResponse 500 "Internal server error")).

End IndexJs.

(** ** Concrete runtimes for the examples *)

Module Examples.

Fixpoint escape (s : string) : string :=
  match s with
  | EmptyString => EmptyString
  | String c s' =>
      if bool_decide (c = ascii_of_nat 34) || bool_decide (c = ascii_of_nat 92)
      then String (ascii_of_nat 92) (String c (escape s'))
      else String c (escape s')
  end.

Section Stringify.
Variable stringify : JValue -> string.

Fixpoint stringify_items (l : list JValue) : string :=
  match l with
  | [] => EmptyString
  | [x] => stringify x
  | x :: rest => stringify x +:+ "," +:+ stringify_items rest
  end.

Fixpoint stringify_props (l : list (string * JValue)) : string :=
  match l with
  | [] => EmptyString
  | [(k, v)] => quoted (escape k) +:+ ":" +:+ stringify v
  | (k, v) :: rest =>
      quoted (escape k) +:+ ":" +:+ stringify v +:+ "," +:+ stringify_props rest
  end.
End Stringify.

(** [JSON.stringify] on values whose strings hold no control character:
    the text of a request body. *)
Fixpoint stringify (v : JValue) : string :=
  match v with
  | JNull => "null"
  | JBool true => "true"
  | JBool false => "false"
  | JNum n => number_to_string n
  | JStr s => quoted (escape s)
  | JArr items => "[" +:+ stringify_items stringify items +:+ "]"
  | JObj props => "{" +:+ stringify_props stringify props +:+ "}"
  end.

(** [JSON.parse] restricted to the texts of the documents of a table;
    every other text is taken to be malformed. *)
Definition parse_documents (docs : list JValue) (text : string) : option JValue :=
  List.find (fun v => bool_decide (stringify v = text)) docs.

(** [new URL(u).hostname] on the two addresses of the examples. *)
Definition hostname_of (u : string) : option string :=
  if bool_decide (u = "https://www.example.com/x") then Some "www.example.com"
  else if bool_decide (u = "https://example.com") then Some "example.com"
  else if bool_decide (u = "https://mappings/") then Some "mappings"
  else None.

Definition empty_world : World := mkWorld ∅ [] [].

(** The segment table of the tests of the handler, and what [csv-parse]
    makes of it. *)
Definition segments_table : string :=
  "segments,expire_timestamp" +:+ newline +:+ "segment1,9999999999999".

Definition parse_table (content : string) : option (list SegmentRecord) :=
  if bool_decide (content = segments_table)
  then Some [mkSegment "segment1" (Int 9999999999999)]
  else None.

(** A bucket that holds the segment table at the key the TypeScript
    revision reads. *)
Definition stocked_world : World :=
  mkWorld (<["newspassid/segments.csv" := segments_table]> ∅) [] [].

Definition post (v : JValue) : APIGatewayProxyEvent :=
  mkEvent (Some "POST") (Some (stringify v)) (Some (mkHeaders (Some "https://example.com"))).

Definition request (id previousId : string) : JValue :=
  JObj [("id", JStr id); ("timestamp", JNum 1234567890);
        ("url", JStr "https://example.com"); ("consentString", JStr "consent123");
        ("previousId", JStr previousId)].

(** A runtime whose storage never fails and holds no segment table fault. *)
Definition runtime (docs : list JValue) (now : Z) : Runtime :=
  mkRuntime (parse_documents docs) hostname_of parse_table now None
    (fun _ => None) (fun _ => None).

End Examples.

(** ** What a run of a handler did *)

Open Scope list_scope.

(** The value of a field of the request, when the body is the text of a
    JSON object; [undefined] otherwise. *)
Definition request_field (rt : Runtime) (event : APIGatewayProxyEvent) (k : string)
    : option JValue :=
  match body event with
  | Some text =>
      match JSON_parse rt text with
      | Some (JObj props) => assoc k props
      | _ => None
      end
  | None => None
  end.

Definition text_of (v : option JValue) : option string :=
  match v with
  | Some x => to_string x
  | None => None
  end.

(** The body is absent, or is not the text of a JSON document. *)
Definition unparseable (rt : Runtime) (event : APIGatewayProxyEvent) : Prop :=
  match body event with
  | Some text => JSON_parse rt text = None
  | None => True
  end.

(** A [putObject] that resolved: an object was written. *)
Definition stored (c : S3Call) : bool :=
  match c with
  | PutObjectCall _ _ true => true
  | _ => false
  end.

(** A stored object that starts with the header of a mapping record. *)
Definition mapping_record (c : S3Call) : bool :=
  match c with
  | PutObjectCall _ content true =>
      match strip_prefix mapping_header content with
      | Some _ => true
      | None => false
      end
  | _ => false
  end.

(** The calls a run from [w] to [w'] added to the record of the client. *)
Definition calls_since (w w' : World) : list S3Call :=
  drop (List.length (s3_calls w)) (s3_calls w').

(** The run from [w] to [w'] stored a mapping record. *)
Definition mapping_written (w w' : World) : Prop :=
  existsb mapping_record (calls_since w w') = true.

(** The storage key layout of the design document: the event record is at
    [<root>/<namespace>/<domain>/<identifier>/<timestamp>.csv], the mapping
    record at [<root>/<namespace>/mappings/<previousIdentifier>.csv]. *)
Definition event_key (root namespace domain id timestamp : string) : string :=
  root +:+ "/" +:+ namespace +:+ "/" +:+ domain +:+ "/" +:+ id +:+ "/"
    +:+ timestamp +:+ ".csv".

Definition mapping_key (root namespace previous : string) : string :=
  root +:+ "/" +:+ namespace +:+ "/mappings/" +:+ previous +:+ ".csv".

Definition mapping_content (previous id timestamp : string) : string :=
  mapping_header +:+ newline +:+
  quoted previous +:+ "," +:+ quoted id +:+ "," +:+ timestamp.

(** A run that stored nothing and did not answer 200. *)
Definition nothing_stored (w : World) (resp : APIGatewayProxyResult) (w' : World) : Prop :=
  statusCode resp <> 200 /\ bucket w' = bucket w /\
  exists news, s3_calls w' = s3_calls w ++ news /\
               Forall (fun c => stored c = false) news.

(** A run that stored the event record [content] at [key], after the calls
    [reads], and what became of the mapping record of [previousId]. *)
Inductive stored_event (rt : Runtime) (label : string) (w : World)
    (resp : APIGatewayProxyResult) (w' : World) (reads : list S3Call)
    (key content : string) (previousId : option JValue)
    (root namespace id timestamp : string) : Prop :=
| stored_plain :
    truthy previousId = false ->
    statusCode resp = 200 ->
    s3_calls w' = s3_calls w ++ reads ++ [PutObjectCall key content true] ->
    bucket w' = <[key := content]> (bucket w) ->
    stored_event rt label w resp w' reads key content previousId
      root namespace id timestamp
| stored_mapping_failed (previous : string) (e : JsError) (logged : list ConsoleLine) :
    truthy previousId = true ->
    text_of previousId = Some previous ->
    s3_put_fault rt (S (puts_so_far w)) = Some e ->
    statusCode resp = 500 ->
    s3_calls w' =
      s3_calls w ++ reads ++
        [PutObjectCall key content true;
         PutObjectCall (mapping_key root namespace previous)
           (mapping_content previous id timestamp) false] ->
    bucket w' = <[key := content]> (bucket w) ->
    console w' = console w ++ logged ++ [mkLine LevelError label (Some e)] ->
    stored_event rt label w resp w' reads key content previousId
      root namespace id timestamp
| stored_mapped (previous : string) :
    truthy previousId = true ->
    text_of previousId = Some previous ->
    statusCode resp = 200 ->
    s3_calls w' =
      s3_calls w ++ reads ++
        [PutObjectCall key content true;
         PutObjectCall (mapping_key root namespace previous)
           (mapping_content previous id timestamp) true] ->
    bucket w' =
      <[mapping_key root namespace previous := mapping_content previous id timestamp]>
        (<[key := content]> (bucket w)) ->
    stored_event rt label w resp w' reads key content previousId
      root namespace id timestamp.

(** ** The client: utils/storage.ts, utils/random.ts, core/newspassid.ts *)

Module Client.

Record NewsPassConfig : Type := mkConfig {
  namespace : string;
  lambdaEndpoint : string;
  storageKey : option string;
  injectMetaTags : option bool
}.

Record IdPayload : Type := mkPayload {
  id : string;
  timestamp : Z;
  url : string;
  consentString : string;
  previousId : option string;
  publisherSegments : option (list string)
}.

Record SegmentResponse : Type := mkResponse {
  response_segments : option (list string)
}.

(** What the page and the network give to one call of [setID]:
    [uuidv4()], the promise of [getGppConsentString()], [Date.now()],
    [window.location.href], the fate of the request to the backend (a
    rejection, or the JSON of the answer, [None] for a falsy one) and whether
    [localStorage] can be used at all. *)
Record Browser : Type := mkBrowser {
  uuidv4 : string;
  gpp_consent : Outcome (option string);
  now : Z;
  location_href : string;
  backend : string -> IdPayload -> Outcome (option SegmentResponse);
  storage_available : bool
}.

Inductive PageEffect : Type :=
| Dispatched (name : string) (detail : list string)
| AppliedSegments (segs : list string)
| InjectedMetaTags (tags : gmap string string).

(** The page and the instance: [localStorage], the requests sent, what was
    done to the page, and the fields of [NewsPassIDImpl]. *)
Record State : Type := mkState {
  localStorage : gmap string string;
  requests : list (string * IdPayload);
  effects : list PageEffect;
  segments : list string;
  instance_consent : option string;
  segmentKeyValue : gmap string string
}.

(** The constructor's [config.storageKey || 'newspassid']. *)
Definition key_of (config : NewsPassConfig) : string :=
  match storageKey config with
  | Some k => if string_truthy k then k else "newspassid"
  | None => "newspassid"
  end.

(** The constructor's [config.injectMetaTags !== false]. *)
Definition inject_of (config : NewsPassConfig) : bool :=
  match injectMetaTags config with
  | Some false => false
  | _ => true
  end.

(** [getStoredId(key)]: [null] when the storage cannot be read. *)
Definition getStoredId (br : Browser) (key : string) (s : State) : option string :=
  if storage_available br then localStorage s !! key else None.

(** [storeId(key, id)]: a failure to write is only logged. *)
Definition storeId (br : Browser) (key id : string) (s : State) : State :=
  if storage_available br then
    mkState (<[key := id]> (localStorage s)) (requests s) (effects s)
      (segments s) (instance_consent s) (segmentKeyValue s)
  else s.

(** [generateId(namespace)] of utils/random.ts: the namespace, a dash, a
    version 4 UUID. *)
Definition generateId (br : Browser) (namespace : string) : string :=
  namespace +:+ "-" +:+ uuidv4 br.

Definition truthy_string (v : option string) : bool :=
  match v with
  | Some s => string_truthy s
  | None => false
  end.

(** [id || storedId || this.generateId()] *)
Definition resolve_id (br : Browser) (config : NewsPassConfig)
    (id storedId : option string) : string :=
  if truthy_string id then default EmptyString id
  else if truthy_string storedId then default EmptyString storedId
  else generateId br (namespace config).

(** [(id && storedId && id !== storedId) ? storedId : undefined] *)
Definition previous_of (id storedId : option string) : option string :=
  if truthy_string id && truthy_string storedId
     && negb (bool_decide (id = storedId))
  then storedId
  else None.

Definition lower (c : ascii) : ascii :=
  let n := nat_of_ascii c in
  if Nat.leb 65 n && Nat.leb n 90 then ascii_of_nat (n + 32) else c.

Definition key_char (c : ascii) : ascii :=
  let l := lower c in
  let n := nat_of_ascii l in
  if is_digit l || (Nat.leb 97 n && Nat.leb n 122) then l else "_"%char.

Fixpoint segment_key (s : string) : string :=
  match s with
  | EmptyString => EmptyString
  | String c s' => String (key_char c) (segment_key s')
  end.

(** [convertSegmentsToKeyValue]: a later segment with the same key
    replaces an earlier one. *)
Definition convertSegmentsToKeyValue (segs : list string) : gmap string string :=
  List.fold_left (fun acc segment => <[segment_key segment := segment]> acc) segs ∅.

Definition dispatch (e : PageEffect) (s : State) : State :=
  mkState (localStorage s) (requests s) (effects s ++ [e])
    (segments s) (instance_consent s) (segmentKeyValue s).

(** Adopt [segs] as the active segments and apply them to the page. *)
Definition adopt (config : NewsPassConfig) (segs : list string) (s : State) : State :=
  let kv := convertSegmentsToKeyValue segs in
  let s1 := mkState (localStorage s) (requests s)
              (effects s ++ [AppliedSegments segs])
              segs (instance_consent s) kv in
  if inject_of config then dispatch (InjectedMetaTags kv) s1 else s1.

Definition send (endpoint : string) (payload : IdPayload) (s : State) : State :=
  mkState (localStorage s) (requests s ++ [(endpoint, payload)]) (effects s)
    (segments s) (instance_consent s) (segmentKeyValue s).

Definition set_consent (c : option string) (s : State) : State :=
  mkState (localStorage s) (requests s) (effects s)
    (segments s) c (segmentKeyValue s).

(** [setID(id?, publisherSegments?)], the revision with meta tags. *)
Definition setID (br : Browser) (config : NewsPassConfig)
    (id : option string) (publisherSegments : option (list string)) (s : State)
    : string * State :=
  let key := key_of config in
  let storedId := getStoredId br key s in
  let useId := resolve_id br config id storedId in
  let s1 :=
    if bool_decide (Some useId = storedId) then s
    else dispatch (Dispatched "newspassid:change" [useId]) (storeId br key useId s) in
  let consent :=
    match gpp_consent br with
    | Returned c => c
    | Thrown _ => Some EmptyString
    end in
  let s2 := set_consent consent s1 in
  let payload :=
    mkPayload useId (now br) (location_href br)
      (if truthy_string consent then default EmptyString consent else EmptyString)
      (previous_of id storedId) publisherSegments in
  let s3 := send (lambdaEndpoint config) payload s2 in
  match backend br (lambdaEndpoint config) payload with
  | Returned response =>
      let segs :=
        match response with
        | Some (mkResponse (Some from_backend)) => from_backend
        | _ =>
            match publisherSegments with
            | Some declared => declared
            | None => segments s3
            end
        end in
      let s4 := adopt config segs s3 in
      (useId,
       dispatch (Dispatched "newspass_segments_ready" (segments s4)) s4)
  | Thrown _ =>
      match publisherSegments with
      | Some declared => (useId, adopt config declared s3)
      | None => (useId, s3)
      end
  end.

(** [setID] in the earlier revision of the class: a rejected consent
    promise rejects [setID], and without segments from the backend nothing
    is applied to the page. *)
Definition setID_v1 (br : Browser) (config : NewsPassConfig)
    (id : option string) (publisherSegments : option (list string)) (s : State)
    : Outcome string * State :=
  let key := key_of config in
  let storedId := getStoredId br key s in
  let useId := resolve_id br config id storedId in
  let s1 :=
    if bool_decide (Some useId = storedId) then s
    else storeId br key useId s in
  match gpp_consent br with
  | Thrown e => (Thrown e, s1)
  | Returned consent =>
      let s2 := set_consent consent s1 in
      let payload :=
        mkPayload useId (now br) (location_href br)
          (if truthy_string consent then default EmptyString consent else EmptyString)
          (previous_of id storedId) publisherSegments in
      let s3 := send (lambdaEndpoint config) payload s2 in
      match backend br (lambdaEndpoint config) payload with
      | Returned (Some (mkResponse (Some from_backend))) =>
          let s4 :=
            mkState (localStorage s3) (requests s3)
              (effects s3 ++ [AppliedSegments from_backend])
              from_backend (instance_consent s3) (segmentKeyValue s3) in
          (Returned useId,
           dispatch (Dispatched "newspass_segments_ready" from_backend) s4)
      | _ => (Returned useId, s3)
      end
  end.

End Client.

(** ** The asynchronous loader: async-loader.ts *)

Module Loader.

(** An entry of [window.newspassid_q]: the method and its arguments. *)
Definition QueueItem : Type := list (option JValue).

Inductive TimerCallback : Type :=
| DefaultSetID.

(** The part of [window] the loader works on, with the timers that are
    pending and the calls the real client has received. *)
Record Window : Type := mkWindow {
  newspassid_q : option (list QueueItem);
  real_client_installed : bool;
  newspass_initialized : option bool;
  newspass_segments : option (list string);
  timers : list (Z * TimerCallback);
  client_calls : list (string * list (option JValue));
  loader_console : list string
}.

(** What the loader takes from the page: whether the bundle defined
    [createNewsPassID], the identifier in [localStorage], which properties
    of the real client are functions, and which calls throw. *)
Record Page : Type := mkPage {
  createNewsPassID_defined : bool;
  stored_id : option string;
  is_function : string -> bool;
  call_throws : string -> list (option JValue) -> bool
}.

(** The script as it runs in the head of the page: the queue, the stub and
    the flag [newspass_initialized]. *)
Definition loader_init (w : Window) : Window :=
  mkWindow
    (match newspassid_q w with
     | Some q => Some q
     | None => Some []
     end)
    (real_client_installed w) (Some false) (newspass_segments w)
    (timers w) (client_calls w) (loader_console w).

Definition push (item : QueueItem) (w : Window) : Window :=
  mkWindow
    (match newspassid_q w with
     | Some q => Some (q ++ [item])
     | None => None
     end)
    (real_client_installed w) (newspass_initialized w) (newspass_segments w)
    (timers w) (client_calls w) (loader_console w).

(** The methods of the stub. *)
Definition stub_setID (id : option string) (w : Window) : Window :=
  push [Some (JStr "setID"); option_map JStr id] w.
Definition stub_getID (w : Window) : Window := push [Some (JStr "getID")] w.
Definition stub_getSegments (w : Window) : Window := push [Some (JStr "getSegments")] w.
Definition stub_clearID (w : Window) : Window := push [Some (JStr "clearID")] w.

(** [realNewsPassID[method]]: the property key of a value. *)
Definition property_key (v : option JValue) : option string :=
  match v with
  | None => Some "undefined"
  | Some x => to_string x
  end.

(** The loop over the queue: the calls received by the real client, the
    console lines added, and, when reading the method of an entry throws
    (which ends [onload]), the entries that were left in the queue. *)
Fixpoint drain (pg : Page) (queue : list QueueItem)
    (calls : list (string * list (option JValue))) (log : list string)
    : list (string * list (option JValue)) * list string * option (list QueueItem) :=
  match queue with
  | [] => (calls, log, None)
  | item :: rest =>
      match item with
      | [] => drain pg rest calls log
      | method :: params =>
          match property_key method with
          | None => (calls, log, Some rest)
          | Some name =>
              if is_function pg name then
                if call_throws pg name params then
                  drain pg rest (calls ++ [(name, params)])
                    (log ++ ["newspassid: Error executing queued command"])
                else drain pg rest (calls ++ [(name, params)]) log
              else drain pg rest calls log
          end
      end
  end.

(** [script.onload] *)
Definition onload (pg : Page) (w : Window) : Window :=
  if negb (createNewsPassID_defined pg) then
    mkWindow (newspassid_q w) (real_client_installed w) (newspass_initialized w)
      (newspass_segments w) (timers w) (client_calls w)
      (loader_console w ++ ["newspassid: createNewsPassID function not found"])
  else
    match newspassid_q w with
    | None => w
    | Some queue =>
        let segs :=
          if Client.truthy_string (stored_id pg) then Some [] else newspass_segments w in
        match drain pg queue (client_calls w) (loader_console w) with
        | (calls, log, Some remaining) =>
            mkWindow (Some remaining) (real_client_installed w) (newspass_initialized w)
              segs (timers w) calls log
        | (calls, log, None) =>
            mkWindow (Some []) true (newspass_initialized w) segs
              (if negb (default false (newspass_initialized w))
               then timers w ++ [(50, DefaultSetID)]
               else timers w)
              calls log
        end
    end.

(** The callback of the timer: [realNewsPassID.setID()] and the flag. *)
Definition run_callback (cb : TimerCallback) (w : Window) : Window :=
  match cb with
  | DefaultSetID =>
      mkWindow (newspassid_q w) (real_client_installed w) (Some true)
        (newspass_segments w) (timers w)
        (client_calls w ++ [("setID", [])]) (loader_console w)
  end.

(** The event loop runs the pending timers in the order they were set. *)
Fixpoint run_timers (pending : list (Z * TimerCallback)) (w : Window) : Window :=
  match pending with
  | [] => w
  | (_, cb) :: rest => run_timers rest (run_callback cb w)
  end.

Definition elapse (w : Window) : Window :=
  run_timers (timers w)
    (mkWindow (newspassid_q w) (real_client_installed w) (newspass_initialized w)
       (newspass_segments w) [] (client_calls w) (loader_console w)).

(** A page session: the loader script, the calls the page makes on the
    stub before the bundle has loaded, [onload], and the timers. *)
Definition session (pg : Page) (calls : list (Window -> Window)) (w : Window) : Window :=
  elapse (onload pg (List.fold_left (fun acc call => call acc) calls (loader_init w))).

(** A call that the page makes on the stub. *)
Inductive StubCall : Type :=
| CallSetID (id : option string)
| CallGetID
| CallGetSegments
| CallClearID.

Definition apply_stub (c : StubCall) : Window -> Window :=
  match c with
  | CallSetID id => stub_setID id
  | CallGetID => stub_getID
  | CallGetSegments => stub_getSegments
  | CallClearID => stub_clearID
  end.

(** The entry a call on the stub adds to the queue. *)
Definition item_of (c : StubCall) : QueueItem :=
  match c with
  | CallSetID id => [Some (JStr "setID"); option_map JStr id]
  | CallGetID => [Some (JStr "getID")]
  | CallGetSegments => [Some (JStr "getSegments")]
  | CallClearID => [Some (JStr "clearID")]
  end.

(** The arguments of the explicit [setID] calls among the calls on the
    stub. *)
Definition explicit_setIDs (calls : list StubCall) : list (list (option JValue)) :=
  List.flat_map
    (fun c => match c with
              | CallSetID id => [[option_map JStr id]]
              | _ => []
              end)
    calls.

(** The window of a page on which no script has run yet. *)
Definition fresh_window : Window := mkWindow None false None None [] [] [].

Definition is_setID (c : string * list (option JValue)) : bool :=
  bool_decide (fst c = "setID").

(** The arguments of the [setID] calls that the real client received. *)
Definition setID_calls (w : Window) : list (list (option JValue)) :=
  List.map snd (List.filter is_setID (client_calls w)).

End Loader.

(** ** The segment source as the design document describes it *)

Module SegmentSource.

(** A decimal number, [mantissa * 10 ^ exponent]. *)
Record Numeral : Type := mkNumeral { mantissa : Z; exponent : Z }.

(** The digits at the start of a text, and what follows them. *)
Fixpoint leading_digits (s : string) : string * string :=
  match s with
  | EmptyString => (EmptyString, EmptyString)
  | String c s' =>
      if is_digit c then
        let (digits, rest) := leading_digits s' in (String c digits, rest)
      else (EmptyString, s)
  end.

Fixpoint digits_number (acc : Z) (digits : string) : Z :=
  match digits with
  | EmptyString => acc
  | String c rest => digits_number (10 * acc + Z.of_nat (nat_of_ascii c - 48)) rest
  end.

Definition signed (s : string) : bool * string :=
  match s with
  | String "-" rest => (true, rest)
  | String "+" rest => (false, rest)
  | _ => (false, s)
  end.

(** A field is numeric when, white space around it aside, the whole of it
    is a number in decimal notation: a sign, digits with or without a
    fraction, an exponent, each optional but for one digit, and nothing
    else. *)
Definition numeric (field : string) : option Numeral :=
  let (negative, unsigned) := signed (trim field) in
  let (whole, after_whole) := leading_digits unsigned in
  let (fraction, after_fraction) :=
    match after_whole with
    | String "." rest => leading_digits rest
    | _ => (EmptyString, after_whole)
    end in
  if bool_decide (whole = EmptyString) && bool_decide (fraction = EmptyString) then None
  else
    let magnitude := digits_number 0 (whole +:+ fraction) in
    let m := if negative then - magnitude else magnitude in
    let scale := - Z.of_nat (String.length fraction) in
    match after_fraction with
    | EmptyString => Some (mkNumeral m scale)
    | String e power =>
        if bool_decide (e = "e"%char) || bool_decide (e = "E"%char) then
          let (negative_power, unsigned_power) := signed power in
          let (digits, rest) := leading_digits unsigned_power in
          if bool_decide (digits = EmptyString) || negb (bool_decide (rest = EmptyString))
          then None
          else
            let p := digits_number 0 digits in
            Some (mkNumeral m (scale + (if negative_power then - p else p)))
        else None
    end.

(** [t < n] *)
Definition before (t : Z) (n : Numeral) : bool :=
  if 0 <=? exponent n then t <? mantissa n * 10 ^ exponent n
  else t * 10 ^ (- exponent n) <? mantissa n.

(** A segment record: the name (a row can be too short to have one) and
    the expiry. *)
Record Row : Type := mkRow {
  row_segment : option string;
  row_expiry : Numeral
}.

(** The reader: one record per row, in the order of the rows; rows with a
    non-numeric or missing expiry are skipped. *)
Fixpoint read_rows (segmentIndex expireIndex : nat) (lines : list string) : list Row :=
  match lines with
  | [] => []
  | line :: rest =>
      let values := split "," line in
      match values !! expireIndex with
      | Some field =>
          match numeric field with
          | Some expiry =>
              mkRow (values !! segmentIndex) expiry
              :: read_rows segmentIndex expireIndex rest
          | None => read_rows segmentIndex expireIndex rest
          end
      | None => read_rows segmentIndex expireIndex rest
      end
  end.

(** A segment is valid at time [t] iff its expiry is greater than [t]. *)
Definition valid_at (t : Z) (r : Row) : bool := before t (row_expiry r).

Definition resolved (t : Z) (rows : list Row) : list (option string) :=
  List.map row_segment (List.filter (valid_at t) rows).

(** The records of a table with a header row, [None] when the header lacks
    one of the two columns. *)
Definition read (content : string) : option (list Row) :=
  let lines := split (ascii_of_nat 10) content in
  let headers := split "," (List.hd EmptyString lines) in
  match indexOf "segments" headers, indexOf "expire_timestamp" headers with
  | Some segmentIndex, Some expireIndex =>
      Some (read_rows segmentIndex expireIndex (List.tl lines))
  | _, _ => None
  end.

End SegmentSource.

(** ** The segment source as the handler reads it *)

Module ParsedSource.

(** A segment record: the name (a row can be too short to have one) and
    the expiry, a whole number. *)
Record Row : Type := mkRow {
  row_segment : option string;
  row_expiry : Z
}.

(** The reader of the JavaScript revision: one record per non-blank row
    from whose expiry field [parseInt] reads a number, the whole number at
    the start of the field whatever follows it, in the order of the rows. *)
Fixpoint read_rows (segmentIndex expireIndex : nat) (lines : list string) : list Row :=
  match lines with
  | [] => []
  | line :: rest =>
      if bool_decide (trim line = EmptyString) then
        read_rows segmentIndex expireIndex rest
      else
        let values := split "," line in
        match parseInt (values !! expireIndex) with
        | Int e => mkRow (values !! segmentIndex) e
                   :: read_rows segmentIndex expireIndex rest
        | NaN => read_rows segmentIndex expireIndex rest
        end
  end.

(** A record is valid at time [t] iff its expiry is greater than [t]. *)
Definition valid_at (t : Z) (r : Row) : bool := bool_decide (t < row_expiry r).

(** The same for a record of the typed table of the TypeScript revision:
    an expiry that is not a number is never valid. *)
Definition valid_record (t : Z) (r : SegmentRecord) : bool :=
  match expire_timestamp r with
  | Int e => bool_decide (t < e)
  | NaN => false
  end.

Definition resolved (t : Z) (rows : list Row) : list (option string) :=
  List.map row_segment (List.filter (valid_at t) rows).

(** The records of a table with a header row, [None] when the header lacks
    one of the two columns. *)
Definition read (content : string) : option (list Row) :=
  let lines := split (ascii_of_nat 10) content in
  let headers := split "," (List.hd EmptyString lines) in
  match indexOf "segments" headers, indexOf "expire_timestamp" headers with
  | Some segmentIndex, Some expireIndex =>
      Some (read_rows segmentIndex expireIndex (List.tl lines))
  | _, _ => None
  end.

End ParsedSource.

(** ** Scenarios *)

Module Scenarios.
Import Examples.

(** The identifier that [generateId] makes for the namespace [publisher]
    from a version 4 UUID. *)
Definition generated_id : string :=
  "publisher-123e4567-e89b-42d3-a456-426614174000".

(** A request whose previous identifier is its identifier. *)
Definition same_id_request : JValue := request "publisher-2" "publisher-2".

(** A request that announces a succession. *)
Definition succession_request : JValue := request "publisher-2" "publisher-1".

(** Storage in which the second [putObject] of an invocation fails. *)
Definition second_put_fails (docs : list JValue) (now : Z) : Runtime :=
  mkRuntime (parse_documents docs) hostname_of parse_table now None
    (fun _ => None)
    (fun n => if Nat.eqb n 1 then Some (Error "S3 Error") else None).

(** Storage from which nothing can be read. *)
Definition reads_fail (docs : list JValue) (now : Z) : Runtime :=
  mkRuntime (parse_documents docs) hostname_of parse_table now None
    (fun _ => Some (GetRejects (Error "S3 Error")))
    (fun _ => None).

(** A request from the host [mappings] whose previous identifier spells the
    rest of the key of its own event record. *)
Definition overwriting_request : JValue :=
  JObj [("id", JStr "publisher-2"); ("timestamp", JNum 1234567890);
        ("url", JStr "https://mappings/"); ("consentString", JStr "consent123");
        ("previousId", JStr "publisher-2/1234567890")].

(** A request whose timestamp is the number 0. *)
Definition zero_timestamp_request : JValue :=
  JObj [("id", JStr "publisher-123"); ("timestamp", JNum 0);
        ("url", JStr "https://example.com"); ("consentString", JStr "consent123")].

(** A POST that carries no body. *)
Definition absent_body_event : APIGatewayProxyEvent :=
  mkEvent (Some "POST") None (Some (mkHeaders None)).

(** A segment table with a segment that expires after the time 1000, one
    that has expired, one whose expiry is not a number and one that has no
    expiry, and a bucket that holds it where the JavaScript revision reads
    the segments of ["publisher-123"] on ["example.com"]. *)
Definition table : string :=
  "segments,expire_timestamp" +:+ newline +:+ "segA,2000" +:+ newline +:+
  "segB,0" +:+ newline +:+ "segC,soon" +:+ newline +:+ "segD".

Definition table_world : World :=
  mkWorld
    (<["newspassid/publisher/example.com/publisher-123/segments.csv" := table]> ∅)
    [] [].

(** A request as the client sends it on a first visit. *)
Definition first_visit : Client.IdPayload :=
  Client.mkPayload "publisher-123" 1234567890 "https://example.com" "consent123"
    None None.

(** A browser whose consent promise resolves and whose request to the
    backend is answered with one segment, the configuration of the
    publisher, and a visitor who holds the identifier ["publisher-1"]. *)
Definition browser : Client.Browser :=
  Client.mkBrowser "123e4567-e89b-42d3-a456-426614174000"
    (Returned (Some "consent123")) 1234567890 "https://example.com"
    (fun _ _ => Returned (Some (Client.mkResponse (Some ["segment1"])))) true.

Definition config : Client.NewsPassConfig :=
  Client.mkConfig "publisher" "https://npid.gmg.io/newspassid" None None.

Definition returning_visitor : Client.State :=
  Client.mkState (<["newspassid" := "publisher-1"]> ∅) [] [] [] None ∅.

(** A page whose bundle loads and whose client is the class
    [NewsPassIDImpl], with nothing in [localStorage]. *)
Definition page : Loader.Page :=
  Loader.mkPage true None
    (fun name =>
       bool_decide (name = "setID") || bool_decide (name = "getID")
       || bool_decide (name = "getSegments") || bool_decide (name = "clearID"))
    (fun _ _ => false).

End Scenarios.

(** ** The two revisions of the handler side by side *)

Inductive Revision : Type := TypeScript | JavaScript.

Definition handler_of (rev : Revision)
    : Runtime -> APIGatewayProxyEvent -> M APIGatewayProxyResult :=
  match rev with
  | TypeScript => IndexTs.handler
  | JavaScript => IndexJs.handler
  end.

(** The namespace component of the keys: the fixed ["publisher"], or the
    first component of the identifier. *)
Definition namespace_of (rev : Revision) (id : string) : string :=
  match rev with
  | TypeScript => "publisher"
  | JavaScript => Utils.getNamespaceFromId id
  end.

(** What the catch clause of the handler writes to the console. *)
Definition label_of (rev : Revision) : string :=
  match rev with
  | TypeScript => "Error processing request:"
  | JavaScript => "Error processing NewsPassID:"
  end.

(** The key of the segment source. *)
Definition segments_key (rev : Revision) (root domain id : string) : string :=
  match rev with
  | TypeScript => root +:+ "/segments.csv"
  | JavaScript =>
      root +:+ "/" +:+ Utils.getNamespaceFromId id +:+ "/" +:+ domain +:+ "/" +:+ id
        +:+ "/segments.csv"
  end.

(** Only the TypeScript revision answers a preflight before it looks at the
    body. *)
Definition not_preflight (rev : Revision) (event : APIGatewayProxyEvent) : Prop :=
  rev = TypeScript -> httpMethod event <> Some "OPTIONS".

(** The JSON document of a request of the declared shape ([LogRecord],
    which is the [IdPayload] of the client): an [undefined] field is left
    out. *)
Definition encode_request (p : Client.IdPayload) : JValue :=
  JObj ([("id", JStr (Client.id p)); ("timestamp", JNum (Client.timestamp p));
         ("url", JStr (Client.url p));
         ("consentString", JStr (Client.consentString p))]
        ++ match Client.previousId p with
           | Some previous => [("previousId", JStr previous)]
           | None => []
           end
        ++ match Client.publisherSegments p with
           | Some declared => [("publisherSegments", JArr (List.map JStr declared))]
           | None => []
           end).

(** The event record of the request has been stored at the key of the
    layout by a [putObject] that resolved, and the bucket holds it there,
    unless the mapping record of the same request went to the very same
    key: the bucket then holds that mapping record. *)
Definition event_persisted (rev : Revision) (rt : Runtime)
    (event : APIGatewayProxyEvent) (w w' : World) : Prop :=
  exists id ts row,
    text_of (request_field rt event "id") = Some id /\
    text_of (request_field rt event "timestamp") = Some ts /\
    let key :=
      event_key (ID_FOLDER rt) (namespace_of rev id)
        (getDomainFromUrl rt (request_field rt event "url")) id ts in
    let content := event_header +:+ newline +:+ row in
    In (PutObjectCall key content true) (calls_since w w') /\
    (bucket w' !! key = Some content \/
     exists previous,
       text_of (request_field rt event "previousId") = Some previous /\
       mapping_key (ID_FOLDER rt) (namespace_of rev id) previous = key /\
       bucket w' !! key = Some (mapping_content previous id ts)).

(** The design document's reading: after the run an event record, the
    header and one row, is at the key of the layout. *)
Definition event_record_at_path (rev : Revision) (rt : Runtime)
    (event : APIGatewayProxyEvent) (w' : World) : Prop :=
  exists id ts row,
    text_of (request_field rt event "id") = Some id /\
    text_of (request_field rt event "timestamp") = Some ts /\
    bucket w' !! event_key (ID_FOLDER rt) (namespace_of rev id)
                   (getDomainFromUrl rt (request_field rt event "url")) id ts
    = Some (event_header +:+ newline +:+ row).

(** The run made no call on the storage and left the bucket as it was. *)
Definition storage_untouched (w w' : World) : Prop :=
  s3_calls w' = s3_calls w /\ bucket w' = bucket w.

(** The last line of the console is the error [e], logged by the catch
    clause of the handler. *)
Definition failure_logged (rev : Revision) (e : JsError) (w w' : World) : Prop :=
  exists logged,
    console w' = console w ++ logged ++ [mkLine LevelError (label_of rev) (Some e)].

(** The read of [key] from the storage is rejected with [e]. *)
Definition read_fails (rt : Runtime) (w : World) (key : string) (e : JsError) : Prop :=
  fst (s3_getObject rt key w) = Thrown e.

(** ** What every run answers *)

(** Every value that [m] returns, from whatever world, satisfies [P]. *)
Definition ensures {A : Type} (m : M A) (P : A -> Prop) : Prop :=
  forall w a w', m w = (Returned a, w') -> P a.

(** The format check of the revision refuses the identifier: the pattern
    [^publisher-\d+$] on its text in the TypeScript revision, [isValidId]
    in the JavaScript one. *)
Definition format_refused (rev : Revision) (id : option JValue) : Prop :=
  match rev with
  | TypeScript =>
      exists s, text_of id = Some s /\ IndexTs.matches_publisher_digits s = false
  | JavaScript => Utils.isValidId id = false
  end.

(** The event from which the headers of an answer are made: the request,
    except that the JavaScript revision makes its refusals and failures with
    [errorResponse], which passes an event without headers. *)
Definition headers_source (rev : Revision) (event : APIGatewayProxyEvent)
    (resp : APIGatewayProxyResult) : APIGatewayProxyEvent :=
  match rev with
  | TypeScript => event
  | JavaScript => if bool_decide (statusCode resp = 200) then event else Utils.empty_event
  end.

(** The answers of the handlers: 200 with the empty text of a preflight or
    with the success document, 400 with one of the two refusals, 500 with
    the one message of a failure. *)
Definition answer_of_the_interface (resp : APIGatewayProxyResult) : Prop :=
  (statusCode resp = 200 /\
   (res_body resp = TextBody EmptyString \/
    exists id segs, res_body resp = success_body id segs)) \/
  (statusCode resp = 400 /\
   (res_body resp = failure_body missing_fields_message \/
    res_body resp = failure_body "Invalid ID format")) \/
  (statusCode resp = 500 /\ res_body resp = failure_body "Internal server error").

(** ** A request of the declared shape, from the read to the answer *)

(** The format check of the revision on an identifier that is a string. *)
Definition format_accepts (rev : Revision) (id : string) : bool :=
  match rev with
  | TypeScript => IndexTs.matches_publisher_digits id
  | JavaScript => Utils.isValidId (Some (JStr id))
  end.

(** The segment read of the revision, for a request of identifier [id] on
    [domain]; the names of the TypeScript revision are never [undefined]. *)
Definition read_segments (rev : Revision) (rt : Runtime) (domain id : string)
    : M (list (option string)) :=
  match rev with
  | TypeScript =>
      segs <- IndexTs.getValidSegments rt (segments_key rev (ID_FOLDER rt) domain id) ;;
      ret (List.map Some segs)
  | JavaScript =>
      IndexJs.getValidSegments rt (Utils.getNamespaceFromId id) domain id
  end.

(** The separator of the segment names in the event record. *)
Definition separator_of (rev : Revision) : string :=
  match rev with
  | TypeScript => ","
  | JavaScript => "|"
  end.

(** The row of the event record of a request of the declared shape: seven
    quoted fields, an absent previous identifier as the empty text, the
    segments [segs] joined by [sep] and the segments of the publisher joined
    by a bar. *)
Definition event_row (sep : string) (p : Client.IdPayload)
    (segs : list (option string)) : string :=
  quoted (Client.id p) +:+ "," +:+
  quoted (number_to_string (Client.timestamp p)) +:+ "," +:+
  quoted (Client.url p) +:+ "," +:+ quoted (Client.consentString p) +:+ "," +:+
  quoted (default EmptyString (Client.previousId p)) +:+ "," +:+
  quoted (strings_join sep segs) +:+ "," +:+
  quoted (strings_join "|"
            (List.map Some (default [] (Client.publisherSegments p)))).

(** The write of the mapping record of a request of the declared shape:
    none when the previous identifier is absent or empty. *)
Definition mapping_call (root namespace : string) (p : Client.IdPayload)
    : list S3Call :=
  match Client.previousId p with
  | Some previous =>
      if string_truthy previous then
        [PutObjectCall (mapping_key root namespace previous)
           (mapping_content previous (Client.id p)
              (number_to_string (Client.timestamp p))) true]
      else []
  | None => []
  end.

(** ** The shape of an identifier *)

(** A text without a dash. *)
Definition no_dash (s : string) : bool :=
  all_chars (fun c => negb (bool_decide (c = "-"%char))) s.

(** ** Further requests and storages of the examples *)

Module Cases.
Import Examples.

(** A request whose identifier is of another publisher namespace. *)
Definition visitor_request : JValue := request "visitor-1" "".

(** A succession as the client sends it, with segments of the publisher. *)
Definition succession : Client.IdPayload :=
  Client.mkPayload "publisher-2" 1234567890 "https://example.com" "consent123"
    (Some "publisher-1") (Some ["sports"; "premium"]).

(** Storage in which the first [putObject] of an invocation fails. *)
Definition first_put_fails (docs : list JValue) (now : Z) : Runtime :=
  mkRuntime (parse_documents docs) hostname_of parse_table now None
    (fun _ => None)
    (fun n => if Nat.eqb n 0 then Some (Error "S3 Error") else None).

(** A segment table with an expiry that starts with digits and goes on
    with letters and one in scientific notation, in a bucket that holds it
    where the JavaScript revision reads the segments of ["publisher-123"] on
    ["example.com"]. *)
Definition loose_table : string :=
  "segments,expire_timestamp" +:+ newline +:+ "segE,5000abc" +:+ newline +:+
  "segF,1e13" +:+ newline +:+ "segA,2000".

Definition loose_world : World :=
  mkWorld
    (<["newspassid/publisher/example.com/publisher-123/segments.csv" := loose_table]> ∅)
    [] [].

(** A bucket that holds, where the TypeScript revision reads the segments,
    the table of [Scenarios.table], whose last row has no expiry: one field
    for the two columns of the header, which [csv-parse] with
    [columns: true] rejects as a record of invalid length. *)
Definition short_row_world : World :=
  mkWorld (<["newspassid/segments.csv" := Scenarios.table]> ∅) [] [].

(** A request whose timestamp is the text [segments]. *)
Definition segments_named_request : JValue :=
  JObj [("id", JStr "publisher-123"); ("timestamp", JStr "segments");
        ("url", JStr "https://example.com"); ("consentString", JStr "consent123")].


(** The cookies of a page without a [gpp] cookie. *)
Definition cookies : list (string * string) :=
  [("other", "value"); ("usprivacy", "1YNN"); ("euconsent-v2", "CPx")].

End Cases.

(** ** The rest of the client: [getID] and the event that [setID] sends *)

Module NewsPassID.
Import Client.

Definition getID (br : Browser) (config : NewsPassConfig) (s : State) : option string :=
  getStoredId br (key_of config) s.

(** The consent string that a call of [setID] works with: the empty text
    when the promise of the GPP consent is rejected. *)
Definition consent_of (br : Browser) : option string :=
  match gpp_consent br with
  | Returned c => c
  | Thrown _ => Some EmptyString
  end.

(** The event that [setID] sends to the backend. *)
Definition payload_of (br : Browser) (config : NewsPassConfig)
    (id : option string) (publisherSegments : option (list string)) (s : State)
    : IdPayload :=
  let storedId := getStoredId br (key_of config) s in
  mkPayload (resolve_id br config id storedId) (now br) (location_href br)
    (default EmptyString (consent_of br))
    (previous_of id storedId) publisherSegments.

(** What [applySegmentsToPage] and, when enabled, [injectSegmentMetaTags]
    do to the page for the segments [segs]. *)
Definition applied_to_page (config : NewsPassConfig) (segs : list string)
    : list PageEffect :=
  AppliedSegments segs
  :: (if inject_of config then [InjectedMetaTags (convertSegmentsToKeyValue segs)]
      else []).

End NewsPassID.

(** ** The consent string: core/gpp-api.ts *)

Module GppApi.

(** What [[^;]+] takes when it can take something: the longest prefix
    without a semicolon. *)
Fixpoint cookie_value (s : string) : string :=
  match s with
  | EmptyString => EmptyString
  | String c s' =>
      if bool_decide (c = ";"%char) then EmptyString else String c (cookie_value s')
  end.

(** A match of [name=([^;]+)] at the start of [s], and its second group. *)
Definition match_here (name s : string) : option string :=
  match strip_prefix (name +:+ "=") s with
  | Some rest =>
      let value := cookie_value rest in
      if string_truthy value then Some value else None
  | None => None
  end.

(** The leftmost match of [ name=([^;]+)], space included, in [s]. *)
Fixpoint match_after_space (name s : string) : option string :=
  match s with
  | EmptyString => None
  | String c s' =>
      match (if bool_decide (c = " "%char) then match_here name s' else None) with
      | Some value => Some value
      | None => match_after_space name s'
      end
  end.

(** [getCookie(name)] on the text of [document.cookie], for a name without
    a character that is special in a regular expression, as are the three
    names it is called with: the second group of the leftmost match of
    [(^| )name=([^;]+)], [null] without a match. *)
Definition getCookie (name cookie : string) : option string :=
  match match_here name cookie with
  | Some value => Some value
  | None => match_after_space name cookie
  end.

(** The data that the consent platform passes to a callback; its
    [gppString] may be missing. *)
Record GPPData : Type := mkData { gppString : option string }.

(** What a call [window.__gpp('getGPPData', callback)] does: the calls of
    the callback, with their [data] and [success], that it makes before it
    returns, the exception it then throws if it throws one, and the calls
    of the callback that come later. *)
Record GppCall : Type := mkCall {
  during : list (option GPPData * bool);
  throws : option JsError;
  later : list (option GPPData * bool)
}.

(** What the module takes from the page: [document.cookie], the reading of
    which may throw, and [window.__gpp] when it is a function. *)
Record Page : Type := mkPage {
  document_cookie : Outcome string;
  gpp : option GppCall
}.

(** The state of a promise. *)
Inductive Settled (A : Type) : Type :=
| Resolved (a : A)
| Rejected (e : JsError)
| Pending.
Arguments Resolved {A} a.
Arguments Rejected {A} e.
Arguments Pending {A}.

(** [getGppConsentFromCookie()]: an exception is logged and gives
    [undefined]. *)
Definition getGppConsentFromCookie (pg : Page) : option string :=
  match document_cookie pg with
  | Thrown _ => None
  | Returned cookie =>
      let gppCookie := getCookie "gpp" cookie in
      if negb (Client.truthy_string gppCookie) then
        let uspCookie := getCookie "usprivacy" cookie in
        let tcfCookie := getCookie "euconsent-v2" cookie in
        if Client.truthy_string uspCookie then uspCookie
        else if Client.truthy_string tcfCookie then tcfCookie
        else None
      else gppCookie
  end.

(** The callback that [getGppConsentString] passes to [window.__gpp]: the
    value it resolves the promise with. *)
Definition callback (pg : Page) (call : option GPPData * bool) : option string :=
  match call with
  | (Some data, true) =>
      if Client.truthy_string (gppString data) then gppString data
      else getGppConsentFromCookie pg
  | _ => getGppConsentFromCookie pg
  end.

(** [getGppConsentString()].  The promise is settled by the first call of
    the callback; an exception that [window.__gpp] throws inside the
    executor of the promise rejects it, unless the callback was called
    before, and does not reach the catch clause of the function. *)
Definition getGppConsentString (pg : Page) : Settled (option string) :=
  match gpp pg with
  | None => Resolved (getGppConsentFromCookie pg)
  | Some call =>
      match during call with
      | first :: _ => Resolved (callback pg first)
      | [] =>
          match throws call with
          | Some e => Rejected e
          | None =>
              match later call with
              | first :: _ => Resolved (callback pg first)
              | [] => Pending
              end
          end
      end
  end.

(** The text of [document.cookie] for a list of cookies. *)
Fixpoint cookie_text (cookies : list (string * string)) : string :=
  match cookies with
  | [] => EmptyString
  | (name, value) :: rest =>
      match rest with
      | [] => name +:+ "=" +:+ value
      | _ :: _ => name +:+ "=" +:+ value +:+ "; " +:+ cookie_text rest
      end
  end.

Definition without (c : ascii) (s : string) : bool :=
  all_chars (fun d => negb (bool_decide (d = c))) s.

(** Cookies as a browser lists them: a name holds no space and no equals
    sign, a value is not empty and holds no space and no semicolon. *)
Definition listed (cookies : list (string * string)) : Prop :=
  Forall (fun cookie =>
            without " " (fst cookie) = true /\ without "=" (fst cookie) = true /\
            snd cookie <> EmptyString /\
            without " " (snd cookie) = true /\ without ";" (snd cookie) = true)
    cookies.

End GppApi.

(** ** The class [NewsPassIDImpl] with its promises and the exceptions of the page

    [Client.setID] above follows one call whose promises have settled on a
    page that does not throw.  Here a promise can stay pending, the calls
    on the page can throw, and the answer of the backend is any JSON
    value. *)

Module NewsPassIDImpl.

(** What the page and the network give to the calls on one instance:
    [uuidv4()], the promise of [getGppConsentString()], which can stay
    pending, [Date.now()], [window.location.href], the promise of
    [sendToBackend(endpoint, payload)], resolved with the JSON of the answer,
    whether [localStorage] can be used at all, and which of the calls of
    [window.dispatchEvent], of [applySegmentsToPage] and of the handling of
    the meta tags, counted from the first, throw. *)
Record Environment : Type := mkEnvironment {
  uuidv4 : string;
  consent : GppApi.Settled (option string);
  now : Z;
  location_href : string;
  answer : string -> Client.IdPayload -> GppApi.Settled JValue;
  storage_available : bool;
  dispatch_fault : nat -> option JsError;
  apply_fault : nat -> option JsError;
  inject_fault : nat -> option JsError
}.

(** What was done to the page, and whether it was done to its end: the two
    events (the earlier revision of the class dispatches
    [newspass_segments_ready] without the key-value pairs),
    [applySegmentsToPage] and the handling of the meta tags. *)
Inductive Effect : Type :=
| ChangeEvent (id : string) (dispatched : bool)
| ReadyEvent (segments : JValue) (tags : option (gmap string string)) (dispatched : bool)
| Applied (segments : JValue) (completed : bool)
| MetaTags (tags : gmap string string) (completed : bool).

(** The page and the instance: [localStorage], the requests sent, what was
    done to the page, and the fields of the instance; [this.segments] holds
    whatever was assigned to it. *)
Record State : Type := mkState {
  localStorage : gmap string string;
  requests : list (string * Client.IdPayload);
  effects : list Effect;
  segments : JValue;
  consentString : option string;
  segmentKeyValue : gmap string string
}.

(** An instance as the constructor leaves it. *)
Definition created (stored : gmap string string) : State :=
  mkState stored [] [] (JArr []) None ∅.

Definition is_event (e : Effect) : bool :=
  match e with
  | ChangeEvent _ _ | ReadyEvent _ _ _ => true
  | _ => false
  end.

Definition is_applied (e : Effect) : bool :=
  match e with Applied _ _ => true | _ => false end.

Definition is_meta_tags (e : Effect) : bool :=
  match e with MetaTags _ _ => true | _ => false end.

Definition count (p : Effect -> bool) (s : State) : nat :=
  List.length (List.filter p (effects s)).

Definition emit (e : Effect) (s : State) : State :=
  mkState (localStorage s) (requests s) (effects s ++ [e])
    (segments s) (consentString s) (segmentKeyValue s).

(** [getStoredId(key)]: [null] when the storage cannot be read. *)
Definition getStoredId (env : Environment) (key : string) (s : State) : option string :=
  if storage_available env then localStorage s !! key else None.

(** [storeId(key, id)]: a failure to write is only logged. *)
Definition storeId (env : Environment) (key id : string) (s : State) : State :=
  if storage_available env then
    mkState (<[key := id]> (localStorage s)) (requests s) (effects s)
      (segments s) (consentString s) (segmentKeyValue s)
  else s.

(** [generateId(namespace)] of utils/random.ts. *)
Definition generateId (env : Environment) (namespace : string) : string :=
  namespace +:+ "-" +:+ uuidv4 env.

(** [id || storedId || this.generateId()] *)
Definition resolve_id (env : Environment) (config : Client.NewsPassConfig)
    (id storedId : option string) : string :=
  if Client.truthy_string id then default EmptyString id
  else if Client.truthy_string storedId then default EmptyString storedId
  else generateId env (Client.namespace config).

(** [window.dispatchEvent(new CustomEvent(..))] *)
Definition dispatchEvent (env : Environment) (event : bool -> Effect) (s : State)
    : Outcome unit * State :=
  match dispatch_fault env (count is_event s) with
  | Some e => (Thrown e, emit (event false) s)
  | None => (Returned tt, emit (event true) s)
  end.

(** The loop of [segments.reduce]: an entry that is not a string has no
    [toLowerCase]; an assignment to the key [__proto__] of an object
    literal adds no property. *)
Fixpoint reduce_segments (items : list JValue) (acc : gmap string string)
    : Outcome (gmap string string) :=
  match items with
  | [] => Returned acc
  | JStr segment :: rest =>
      let key := Client.segment_key segment in
      reduce_segments rest
        (if bool_decide (key = "__proto__") then acc else <[key := segment]> acc)
  | _ :: _ => Thrown (TypeError "segment.toLowerCase is not a function")
  end.

(** [convertSegmentsToKeyValue(segments)]: only an array has [reduce]. *)
Definition convertSegmentsToKeyValue (segments : JValue) : Outcome (gmap string string) :=
  match segments with
  | JArr items => reduce_segments items ∅
  | _ => Thrown (TypeError "segments.reduce is not a function")
  end.

(** [applySegmentsToPage(segments)] *)
Definition applySegmentsToPage (env : Environment) (segs : JValue) (s : State)
    : Outcome unit * State :=
  match apply_fault env (count is_applied s) with
  | Some e => (Thrown e, emit (Applied segs false) s)
  | None => (Returned tt, emit (Applied segs true) s)
  end.

(** [injectSegmentMetaTags()] *)
Definition injectSegmentMetaTags (env : Environment) (s : State) : Outcome unit * State :=
  match inject_fault env (count is_meta_tags s) with
  | Some e => (Thrown e, emit (MetaTags (segmentKeyValue s) false) s)
  | None => (Returned tt, emit (MetaTags (segmentKeyValue s) true) s)
  end.

Definition set_segments (segs : JValue) (s : State) : State :=
  mkState (localStorage s) (requests s) (effects s)
    segs (consentString s) (segmentKeyValue s).

Definition set_keyValue (tags : gmap string string) (s : State) : State :=
  mkState (localStorage s) (requests s) (effects s)
    (segments s) (consentString s) tags.

Definition set_consent (c : option string) (s : State) : State :=
  mkState (localStorage s) (requests s) (effects s)
    (segments s) c (segmentKeyValue s).

Definition send (endpoint : string) (payload : Client.IdPayload) (s : State) : State :=
  mkState (localStorage s) (requests s ++ [(endpoint, payload)]) (effects s)
    (segments s) (consentString s) (segmentKeyValue s).

(** The three statements that follow the choice of the segments, in the
    try block and in the catch clause alike: the key-value pairs, the page,
    the meta tags when they are enabled. *)
Definition apply_to_page (env : Environment) (config : Client.NewsPassConfig)
    (segs : JValue) (s : State) : Outcome unit * State :=
  match convertSegmentsToKeyValue segs with
  | Thrown e => (Thrown e, s)
  | Returned tags =>
      match applySegmentsToPage env segs (set_keyValue tags s) with
      | (Thrown e, s1) => (Thrown e, s1)
      | (Returned _, s1) =>
          if Client.inject_of config then injectSegmentMetaTags env s1
          else (Returned tt, s1)
      end
  end.

(** [response.segments] of a value that is not [null]. *)
Definition response_segments (response : JValue) : option JValue :=
  match response with
  | JObj props => assoc "segments" props
  | _ => None
  end.

Definition declared_segments (declared : list string) : JValue :=
  JArr (List.map JStr declared).

(** The segments that the try block assigns to [this.segments]: those of
    the answer when it has some, else those of the publisher when they
    were passed, else what was there. *)
Definition adopted (publisherSegments : option (list string)) (response : JValue)
    (previous : JValue) : JValue :=
  if truthy (Some response) && truthy (response_segments response)
  then default JNull (response_segments response)
  else
    match publisherSegments with
    | Some declared => declared_segments declared
    | None => previous
    end.

(** The try block of [setID] after the answer has come. *)
Definition on_response (env : Environment) (config : Client.NewsPassConfig)
    (publisherSegments : option (list string)) (response : JValue) (s : State)
    : Outcome unit * State :=
  let s1 := set_segments (adopted publisherSegments response (segments s)) s in
  match apply_to_page env config (segments s1) s1 with
  | (Thrown e, s2) => (Thrown e, s2)
  | (Returned _, s2) =>
      dispatchEvent env (ReadyEvent (segments s2) (Some (segmentKeyValue s2))) s2
  end.

(** The catch clause of that try block. *)
Definition on_failure (env : Environment) (config : Client.NewsPassConfig)
    (publisherSegments : option (list string)) (s : State) : Outcome unit * State :=
  match publisherSegments with
  | Some declared =>
      apply_to_page env config (declared_segments declared)
        (set_segments (declared_segments declared) s)
  | None => (Returned tt, s)
  end.

(** The try block, its catch clause and [return useId]: an exception of the
    catch clause rejects the promise of [setID]. *)
Definition settle (env : Environment) (config : Client.NewsPassConfig)
    (publisherSegments : option (list string)) (useId : string)
    (tried : Outcome unit * State) : GppApi.Settled string * State :=
  match tried with
  | (Returned _, s) => (GppApi.Resolved useId, s)
  | (Thrown _, s) =>
      match on_failure env config publisherSegments s with
      | (Returned _, s') => (GppApi.Resolved useId, s')
      | (Thrown e, s') => (GppApi.Rejected e, s')
      end
  end.

(** The event that [setID] sends with the consent string [c]. *)
Definition payload_of (env : Environment) (useId : string) (c : option string)
    (previousId : option string) (publisherSegments : option (list string))
    : Client.IdPayload :=
  Client.mkPayload useId (now env) (location_href env)
    (if Client.truthy_string c then default EmptyString c else EmptyString)
    previousId publisherSegments.

(** [setID] from the consent string on. *)
Definition request (env : Environment) (config : Client.NewsPassConfig)
    (publisherSegments : option (list string)) (useId : string)
    (previousId c : option string) (s : State) : GppApi.Settled string * State :=
  let payload := payload_of env useId c previousId publisherSegments in
  let s1 := send (Client.lambdaEndpoint config) payload (set_consent c s) in
  match answer env (Client.lambdaEndpoint config) payload with
  | GppApi.Pending => (GppApi.Pending, s1)
  | GppApi.Rejected e => settle env config publisherSegments useId (Thrown e, s1)
  | GppApi.Resolved response =>
      settle env config publisherSegments useId
        (on_response env config publisherSegments response s1)
  end.

(** [if (useId !== storedId) { storeId(..); window.dispatchEvent(..) }] *)
Definition announce (env : Environment) (key useId : string) (storedId : option string)
    (s : State) : Outcome unit * State :=
  if bool_decide (Some useId = storedId) then (Returned tt, s)
  else dispatchEvent env (ChangeEvent useId) (storeId env key useId s).

(** [setID(id?, publisherSegments?)], the revision with meta tags: the
    state of its promise and what it has done by then. *)
Definition setID (env : Environment) (config : Client.NewsPassConfig)
    (id : option string) (publisherSegments : option (list string)) (s : State)
    : GppApi.Settled string * State :=
  let key := Client.key_of config in
  let storedId := getStoredId env key s in
  let useId := resolve_id env config id storedId in
  match announce env key useId storedId s with
  | (Thrown e, s1) => (GppApi.Rejected e, s1)
  | (Returned _, s1) =>
      match consent env with
      | GppApi.Pending => (GppApi.Pending, s1)
      | GppApi.Resolved c =>
          request env config publisherSegments useId
            (Client.previous_of id storedId) c s1
      | GppApi.Rejected _ =>
          request env config publisherSegments useId
            (Client.previous_of id storedId) (Some EmptyString) s1
      end
  end.

(** [setID] in the earlier revision of the class: no change event, a
    rejected consent promise rejects [setID], and only the segments of the
    answer are taken. *)
Definition setID_earlier (env : Environment) (config : Client.NewsPassConfig)
    (id : option string) (publisherSegments : option (list string)) (s : State)
    : GppApi.Settled string * State :=
  let key := Client.key_of config in
  let storedId := getStoredId env key s in
  let useId := resolve_id env config id storedId in
  let s1 :=
    if bool_decide (Some useId = storedId) then s else storeId env key useId s in
  match consent env with
  | GppApi.Pending => (GppApi.Pending, s1)
  | GppApi.Rejected e => (GppApi.Rejected e, s1)
  | GppApi.Resolved c =>
      let payload :=
        payload_of env useId c (Client.previous_of id storedId) publisherSegments in
      let s2 := send (Client.lambdaEndpoint config) payload (set_consent c s1) in
      match answer env (Client.lambdaEndpoint config) payload with
      | GppApi.Pending => (GppApi.Pending, s2)
      | GppApi.Rejected _ => (GppApi.Resolved useId, s2)
      | GppApi.Resolved response =>
          if truthy (Some response) && truthy (response_segments response) then
            let segs := default JNull (response_segments response) in
            match applySegmentsToPage env segs (set_segments segs s2) with
            | (Thrown _, s3) => (GppApi.Resolved useId, s3)
            | (Returned _, s3) =>
                (GppApi.Resolved useId,
                 snd (dispatchEvent env (ReadyEvent segs None) s3))
            end
          else (GppApi.Resolved useId, s2)
      end
  end.

Definition getID (env : Environment) (config : Client.NewsPassConfig) (s : State)
    : option string :=
  getStoredId env (Client.key_of config) s.

(** [getSegments()]: [[...this.segments]]; a text is spread into its
    characters, and what is neither an array nor a text cannot be spread. *)
Definition getSegments (s : State) : Outcome (list JValue) :=
  match segments s with
  | JArr items => Returned items
  | JStr text =>
      Returned (List.map (fun c => JStr (String c EmptyString)) (list_ascii_of_string text))
  | _ => Thrown (TypeError "this.segments is not iterable")
  end.

(** [clearID()], the revision with meta tags.  When [localStorage] cannot
    be used, [removeItem] throws and nothing else is done.  An exception of
    [removeSegmentMetaTags], the first step of the handling of the meta
    tags, is caught after the fields have been cleared. *)
Definition clearID (env : Environment) (config : Client.NewsPassConfig) (s : State)
    : State :=
  if storage_available env then
    let s1 :=
      mkState (delete (Client.key_of config) (localStorage s)) (requests s) (effects s)
        (JArr []) (consentString s) ∅ in
    emit (MetaTags ∅ (bool_decide (inject_fault env (count is_meta_tags s1) = None))) s1
  else s.

(** The consent string that [setID] goes on with, once the promise of the
    consent has settled; [None] while it is pending. *)
Definition settled_consent (env : Environment) : option (option string) :=
  match consent env with
  | GppApi.Resolved c => Some c
  | GppApi.Rejected _ => Some (Some EmptyString)
  | GppApi.Pending => None
  end.

(** The requests that a call of [setID] sends: one once the consent has
    settled, none before. *)
Definition sent (env : Environment) (config : Client.NewsPassConfig) (useId : string)
    (previousId : option string) (publisherSegments : option (list string))
    : list (string * Client.IdPayload) :=
  match settled_consent env with
  | Some c =>
      [(Client.lambdaEndpoint config, payload_of env useId c previousId publisherSegments)]
  | None => []
  end.

Definition is_change (e : Effect) : bool :=
  match e with ChangeEvent _ _ => true | _ => false end.

(** The event [newspass_segments_ready] was dispatched. *)
Definition is_ready (e : Effect) : bool :=
  match e with ReadyEvent _ _ true => true | _ => false end.

(** What a call that led from [s] to [s'] did to the page. *)
Definition done_since (s s' : State) : list Effect :=
  drop (List.length (effects s)) (effects s').

(** No call on the page throws. *)
Definition page_sound (env : Environment) : Prop :=
  forall n, dispatch_fault env n = None /\ apply_fault env n = None /\
            inject_fault env n = None.

(** The identifier is the stored one, or the event [newspassid:change] is
    dispatched without an exception. *)
Definition announces (env : Environment) (config : Client.NewsPassConfig)
    (id : option string) (s : State) : Prop :=
  let storedId := getStoredId env (Client.key_of config) s in
  Some (resolve_id env config id storedId) = storedId \/
  dispatch_fault env (count is_event s) = None.

End NewsPassIDImpl.

(** Pages for the class [NewsPassIDImpl]. *)
Module Pages.
Import NewsPassIDImpl.

Definition answer_with_segment : JValue :=
  JObj [("id", JStr "test-id"); ("segments", JArr [JStr "segment1"]);
        ("success", JBool true)].

(** A page on which nothing throws; the backend answers with one segment. *)
Definition plain : Environment :=
  mkEnvironment "123e4567-e89b-42d3-a456-426614174000"
    (GppApi.Resolved (Some "consent123")) 1234567890 "https://example.com"
    (fun _ _ => GppApi.Resolved answer_with_segment) true
    (fun _ => None) (fun _ => None) (fun _ => None).

(** The same page when [localStorage] cannot be used. *)
Definition private : Environment :=
  mkEnvironment "123e4567-e89b-42d3-a456-426614174000"
    (GppApi.Resolved (Some "consent123")) 1234567890 "https://example.com"
    (fun _ _ => GppApi.Resolved answer_with_segment) false
    (fun _ => None) (fun _ => None) (fun _ => None).

(** The page of the test of the errors of the meta tags: the first call of
    [document.createElement] throws. *)
Definition failing_head : Environment :=
  mkEnvironment "123e4567-e89b-42d3-a456-426614174000"
    (GppApi.Resolved (Some "mock-consent-string")) 1234567890 "https://example.com"
    (fun _ _ => GppApi.Resolved answer_with_segment) true
    (fun _ => None) (fun _ => None)
    (fun n => if Nat.eqb n 0 then Some (Error "Failed to create element") else None).

(** A page whose consent management platform never calls back. *)
Definition silent_cmp : Environment :=
  mkEnvironment "123e4567-e89b-42d3-a456-426614174000"
    GppApi.Pending 1234567890 "https://example.com"
    (fun _ _ => GppApi.Resolved answer_with_segment) true
    (fun _ => None) (fun _ => None) (fun _ => None).

(** A backend that answers with a segment that is not a text. *)
Definition null_segment : Environment :=
  mkEnvironment "123e4567-e89b-42d3-a456-426614174000"
    (GppApi.Resolved (Some "consent123")) 1234567890 "https://example.com"
    (fun _ _ => GppApi.Resolved (JObj [("segments", JArr [JNull])])) true
    (fun _ => None) (fun _ => None) (fun _ => None).

(** An instance on a page whose [localStorage] holds an identifier. *)
Definition returning_visitor : State :=
  created (<["newspassid" := "publisher-1"]> ∅).

End Pages.

(** ** The replay of the queue *)

Module Replay.
Import Loader.

(** The call on the real client that a call on the stub stands for. *)
Definition call_of (c : StubCall) : string * list (option JValue) :=
  match c with
  | CallSetID id => ("setID", [option_map JStr id])
  | CallGetID => ("getID", [])
  | CallGetSegments => ("getSegments", [])
  | CallClearID => ("clearID", [])
  end.

(** The calls that the real client can take: those of its methods. *)
Definition callable (pg : Page) (calls : list StubCall)
    : list (string * list (option JValue)) :=
  List.filter (fun c => is_function pg (fst c)) (List.map call_of calls).

(** The console line of each call of [calls] that throws. *)
Definition failures (pg : Page) (calls : list (string * list (option JValue)))
    : list string :=
  List.map (fun _ => "newspassid: Error executing queued command")
    (List.filter (fun c => call_throws pg (fst c) (snd c)) calls).

End Replay.

(** * Properties *)

(** ** Running the handlers symbolically *)

Ltac run_in H :=
  cbv beta iota zeta delta
    [bind try_catch ret throw or_throw ToString get_prop console_error console_warn
     console_write IndexTs.validateId bucket s3_calls console Body] in H.

Ltac run :=
  cbv beta iota zeta delta
    [bind try_catch ret throw or_throw ToString get_prop console_error console_warn
     console_write IndexTs.validateId bucket s3_calls console Body].

Lemma puts_so_far_get b c l k :
  puts_so_far (mkWorld b (c ++ [GetObjectCall k]) l) = puts_so_far (mkWorld b c l).
Proof.
  unfold puts_so_far. simpl. rewrite List.filter_app. simpl. by rewrite app_nil_r.
Qed.

Lemma puts_so_far_put b b' c l l' k v r :
  puts_so_far (mkWorld b' (c ++ [PutObjectCall k v r]) l') = S (puts_so_far (mkWorld b c l)).
Proof.
  unfold puts_so_far. simpl. rewrite List.filter_app, List.length_app. simpl. lia.
Qed.

Lemma truthy_Some v : truthy v = true -> exists x, v = Some x.
Proof. destruct v; [eauto | discriminate]. Qed.

Lemma s3_putObject_run rt k v b c l :
  (s3_put_fault rt (puts_so_far (mkWorld b c l)) = None /\
   s3_putObject rt k v (mkWorld b c l)
   = (Returned tt, mkWorld (<[k := v]> b) (c ++ [PutObjectCall k v true]) l)) \/
  (exists e, s3_put_fault rt (puts_so_far (mkWorld b c l)) = Some e /\
             s3_putObject rt k v (mkWorld b c l)
             = (Thrown e, mkWorld b (c ++ [PutObjectCall k v false]) l)).
Proof.
  unfold s3_putObject. destruct (s3_put_fault rt _) as [e|]; simpl; eauto.
Qed.

(** The segment read of the TypeScript revision returns the segments, or
    logs the error and throws it again. *)
Lemma ts_getValidSegments_run rt f b c l :
  (exists segs, IndexTs.getValidSegments rt f (mkWorld b c l)
                = (Returned segs, mkWorld b (c ++ [GetObjectCall f]) l)) \/
  (exists e, IndexTs.getValidSegments rt f (mkWorld b c l)
             = (Thrown e, mkWorld b (c ++ [GetObjectCall f])
                            (l ++ [mkLine LevelError "Error reading segments:" (Some e)]))).
Proof.
  unfold IndexTs.getValidSegments, s3_getObject. run.
  destruct (s3_get_fault rt f) as [[e|]|]; eauto.
  destruct (b !! f) as [content|]; eauto.
  destruct (csv_parse rt content); eauto.
Qed.

Lemma ts_publisherSegments_pure v w :
  (exists s, IndexTs.publisherSegments_text v w = (Returned s, w)) \/
  (exists e, IndexTs.publisherSegments_text v w = (Thrown e, w)).
Proof.
  destruct v as [[ | | | | items | ]|]; simpl; eauto.
  unfold or_throw. destruct (array_join "|" items); eauto.
Qed.

Ltac finish_nothing H :=
  inversion H; subst; clear H; left; split; [simpl; lia|]; split; [reflexivity|];
  cbn [s3_calls];
  first [ exists []; split; [by rewrite app_nil_r | constructor]
        | eexists [_]; split; [reflexivity | repeat constructor]
        | eexists [_; _]; split; [by rewrite <- ?app_assoc | repeat constructor] ].

Ltac step_put H :=
  match type of H with
  | context [s3_putObject ?r ?k ?v (mkWorld ?b ?c ?l)] =>
      let Hf := fresh "Hfault" in
      let Hput := fresh "Hput" in
      let e := fresh "e" in
      destruct (s3_putObject_run r k v b c l) as [[Hf Hput]|[e [Hf Hput]]];
      rewrite Hput in H; run_in H
  end.

(** Every run of the TypeScript handler on a request that is not a
    preflight either stores nothing and does not answer 200, or stores the
    event record at the key of the layout and then handles the mapping. *)
Lemma ts_handler_inv rt event w resp w' :
  httpMethod event <> Some "OPTIONS" ->
  IndexTs.handler rt event w = (Returned resp, w') ->
  nothing_stored w resp w' \/
  exists id ts row,
    text_of (request_field rt event "id") = Some id /\
    text_of (request_field rt event "timestamp") = Some ts /\
    stored_event rt "Error processing request:" w resp w'
      [GetObjectCall (ID_FOLDER rt +:+ "/segments.csv")]
      (event_key (ID_FOLDER rt) "publisher"
         (getDomainFromUrl rt (request_field rt event "url")) id ts)
      (event_header +:+ newline +:+ row)
      (request_field rt event "previousId")
      (ID_FOLDER rt) "publisher" id ts.
Proof.
  intros Hm H. unfold IndexTs.handler in H.
  rewrite bool_decide_eq_false_2 in H by done.
  destruct w as [bk calls cons].
  run_in H.
  destruct (body event) as [text|] eqn:Hbody;
    [destruct (string_truthy text) eqn:Htext|]; run_in H.
  2,3: finish_nothing H.
  destruct (JSON_parse rt text) as [data|] eqn:Hparse; run_in H.
  2: finish_nothing H.
  assert (Hfield : forall k, request_field rt event k =
            match data with JObj props => assoc k props | _ => None end).
  { intros k. unfold request_field. by rewrite Hbody, Hparse. }
  destruct data as [ | b | n | s | items | props ]; run_in H;
    try (cbn [truthy negb orb] in H; run_in H; finish_nothing H).
  destruct (negb (truthy (assoc "id" props)) || negb (truthy (assoc "timestamp" props))
            || negb (truthy (assoc "url" props))
            || negb (truthy (assoc "consentString" props))) eqn:Hreq;
    run_in H.
  { finish_nothing H. }
  apply orb_false_elim in Hreq as [Hreq Hc].
  apply orb_false_elim in Hreq as [Hreq Hu].
  apply orb_false_elim in Hreq as [Hi Ht].
  apply negb_false_iff in Hi, Ht, Hu, Hc.
  destruct (truthy_Some _ Hi) as [idv Hid]. destruct (truthy_Some _ Ht) as [tsv Hts].
  destruct (truthy_Some _ Hu) as [urlv Hurl]. destruct (truthy_Some _ Hc) as [cv Hcv].
  rewrite Hid, Hts, Hurl, Hcv in H.
  run_in H.
  destruct (to_string idv) as [id_s|] eqn:Hids; run_in H; [|finish_nothing H].
  destruct (negb (IndexTs.matches_publisher_digits id_s)) eqn:Hvalid; run_in H;
    [finish_nothing H|].
  destruct (ts_getValidSegments_run rt (ID_FOLDER rt +:+ "/segments.csv") bk calls cons)
    as [[segs Hsegs]|[e Hsegs]]; rewrite Hsegs in H; run_in H; [|finish_nothing H].
  destruct (to_string tsv) as [ts_s|] eqn:Htss; run_in H; [|finish_nothing H].
  destruct (to_string urlv) as [url_s|] eqn:Hurls; run_in H; [|finish_nothing H].
  destruct (to_string cv) as [c_s|] eqn:Hcs; run_in H; [|finish_nothing H].
  destruct (truthy (assoc "previousId" props)) eqn:Hp;
    [ destruct (truthy_Some _ Hp) as [pv Hpv]; rewrite Hpv in H; run_in H;
      destruct (to_string pv) as [prev_s|] eqn:Hprevs; run_in H; [|finish_nothing H]
    | run_in H ].
  all: match type of H with
       | context [IndexTs.publisherSegments_text ?v ?w] =>
           destruct (ts_publisherSegments_pure v w) as [[pub Hpub]|[e Hpub]];
           rewrite Hpub in H; run_in H; [|finish_nothing H]
       end.
  all: step_put H; [|finish_nothing H].
  - step_put H.
    + inversion H; subst; clear H. right. eexists id_s, ts_s, _.
      rewrite !Hfield, Hid, Hts, Hurl, Hpv. cbn [text_of].
      split; [exact Hids|]. split; [exact Htss|].
      eapply stored_mapped with (previous := prev_s).
      * rewrite <- Hpv. exact Hp.
      * exact Hprevs.
      * reflexivity.
      * cbn [s3_calls]. rewrite <- !app_assoc. reflexivity.
      * reflexivity.
    + inversion H; subst; clear H. right. eexists id_s, ts_s, _.
      rewrite !Hfield, Hid, Hts, Hurl, Hpv. cbn [text_of].
      split; [exact Hids|]. split; [exact Htss|].
      eapply stored_mapping_failed with (previous := prev_s) (e := e) (logged := []).
      * rewrite <- Hpv. exact Hp.
      * exact Hprevs.
      * rewrite <- Hfault0. erewrite puts_so_far_put, puts_so_far_get. reflexivity.
      * reflexivity.
      * cbn [s3_calls]. rewrite <- !app_assoc. reflexivity.
      * reflexivity.
      * reflexivity.
  - inversion H; subst; clear H. right. eexists id_s, ts_s, _.
    rewrite !Hfield, Hid, Hts, Hurl. cbn [text_of].
    split; [exact Hids|]. split; [exact Htss|].
    eapply stored_plain.
    + exact Hp.
    + reflexivity.
    + cbn [s3_calls]. rewrite <- !app_assoc. reflexivity.
    + reflexivity.
Qed.

(** The segment read of the JavaScript revision always returns: it makes
    one read and at most logs. *)
Lemma js_getValidSegments_run rt ns d id b c l :
  exists segs logged,
    IndexJs.getValidSegments rt ns d id (mkWorld b c l)
    = (Returned segs,
       mkWorld b
         (c ++ [GetObjectCall (ID_FOLDER rt +:+ "/" +:+ ns +:+ "/" +:+ d +:+ "/" +:+ id
                                 +:+ "/segments.csv")])
         (l ++ logged)).
Proof.
  unfold IndexJs.getValidSegments, s3_getObject. run.
  set (key := ID_FOLDER rt +:+ "/" +:+ ns +:+ "/" +:+ d +:+ "/" +:+ id +:+ "/segments.csv").
  destruct (s3_get_fault rt key) as [[e|]|].
  - destruct (bool_decide (err_code e = Some "NoSuchKey")); run.
    + exists [], []. by rewrite app_nil_r.
    + by eexists [], [_].
  - eexists [], [_]. reflexivity.
  - destruct (b !! key) as [content|]; run.
    + destruct (indexOf "segments" _) as [si|]; [destruct (indexOf "expire_timestamp" _) as [ei|]|]; run.
      * eexists _, []. by rewrite app_nil_r.
      * by eexists [], [_].
      * by eexists [], [_].
    + exists [], []. by rewrite app_nil_r.
Qed.

Lemma js_publisherSegments_pure v w :
  (exists s, IndexJs.publisherSegments_text v w = (Returned s, w)) \/
  (exists e, IndexJs.publisherSegments_text v w = (Thrown e, w)).
Proof.
  unfold IndexJs.publisherSegments_text.
  destruct (negb (truthy v)); [by left; eexists|].
  destruct v as [[ | | | | items | ]|]; simpl; eauto.
  unfold or_throw. destruct (array_join "|" items); eauto.
Qed.

Lemma isValidId_string v : Utils.isValidId v = true -> exists s, v = Some (JStr s).
Proof. destruct v as [[ | | | s | | ]|]; try discriminate. eauto. Qed.

(** The same for the JavaScript revision, where the namespace of the key
    is the first component of the identifier. *)
Lemma js_handler_inv rt event w resp w' :
  IndexJs.handler rt event w = (Returned resp, w') ->
  nothing_stored w resp w' \/
  exists id ts row,
    text_of (request_field rt event "id") = Some id /\
    text_of (request_field rt event "timestamp") = Some ts /\
    stored_event rt "Error processing NewsPassID:" w resp w'
      [GetObjectCall
         (ID_FOLDER rt +:+ "/" +:+ Utils.getNamespaceFromId id +:+ "/"
            +:+ getDomainFromUrl rt (request_field rt event "url") +:+ "/" +:+ id
            +:+ "/segments.csv")]
      (event_key (ID_FOLDER rt) (Utils.getNamespaceFromId id)
         (getDomainFromUrl rt (request_field rt event "url")) id ts)
      (event_header +:+ newline +:+ row)
      (request_field rt event "previousId")
      (ID_FOLDER rt) (Utils.getNamespaceFromId id) id ts.
Proof.
  intros H. unfold IndexJs.handler in H.
  destruct w as [bk calls cons].
  run_in H.
  destruct (body event) as [text|] eqn:Hbody; run_in H.
  2: finish_nothing H.
  destruct (JSON_parse rt text) as [data|] eqn:Hparse; run_in H.
  2: finish_nothing H.
  assert (Hfield : forall k, request_field rt event k =
            match data with JObj props => assoc k props | _ => None end).
  { intros k. unfold request_field. by rewrite Hbody, Hparse. }
  destruct data as [ | b | n | s | items | props ]; run_in H;
    try (cbn [truthy negb orb] in H; run_in H; finish_nothing H).
  destruct (negb (truthy (assoc "id" props)) || negb (truthy (assoc "timestamp" props))
            || negb (truthy (assoc "url" props))
            || negb (truthy (assoc "consentString" props))) eqn:Hreq;
    run_in H.
  { finish_nothing H. }
  apply orb_false_elim in Hreq as [Hreq Hc].
  apply orb_false_elim in Hreq as [Hreq Hu].
  apply orb_false_elim in Hreq as [Hi Ht].
  apply negb_false_iff in Hi, Ht, Hu, Hc.
  destruct (negb (Utils.isValidId (assoc "id" props))) eqn:Hvalid; run_in H;
    [finish_nothing H|].
  apply negb_false_iff in Hvalid.
  destruct (isValidId_string _ Hvalid) as [id_s Hid].
  destruct (truthy_Some _ Ht) as [tsv Hts].
  destruct (truthy_Some _ Hu) as [urlv Hurl]. destruct (truthy_Some _ Hc) as [cv Hcv].
  rewrite Hid, Hts, Hurl, Hcv in H.
  run_in H. cbn [to_string] in H. run_in H.
  match type of H with
  | context [IndexJs.getValidSegments ?r ?ns ?d ?i (mkWorld ?b ?c ?l)] =>
      destruct (js_getValidSegments_run r ns d i b c l) as (segs & logged & Hsegs);
      rewrite Hsegs in H; run_in H
  end.
  destruct (to_string tsv) as [ts_s|] eqn:Htss; run_in H; [|finish_nothing H].
  match type of H with
  | context [IndexJs.publisherSegments_text ?v ?w] =>
      destruct (js_publisherSegments_pure v w) as [[pub Hpub]|[e Hpub]];
      rewrite Hpub in H; run_in H; [|finish_nothing H]
  end.
  destruct (to_string urlv) as [url_s|] eqn:Hurls; run_in H; [|finish_nothing H].
  destruct (to_string cv) as [c_s|] eqn:Hcs; run_in H; [|finish_nothing H].
  destruct (truthy (assoc "previousId" props)) eqn:Hp;
    [ destruct (truthy_Some _ Hp) as [pv Hpv]; rewrite Hpv in H; run_in H;
      destruct (to_string pv) as [prev_s|] eqn:Hprevs; run_in H; [|finish_nothing H]
    | run_in H ].
  all: step_put H; [|finish_nothing H].
  - step_put H.
    + inversion H; subst; clear H. right. eexists id_s, ts_s, _.
      rewrite !Hfield, Hid, Hts, Hurl, Hpv. cbn [text_of to_string].
      split; [reflexivity|]. split; [exact Htss|].
      eapply stored_mapped with (previous := prev_s).
      * rewrite <- Hpv. exact Hp.
      * exact Hprevs.
      * reflexivity.
      * cbn [s3_calls]. rewrite <- !app_assoc. reflexivity.
      * reflexivity.
    + inversion H; subst; clear H. right. eexists id_s, ts_s, _.
      rewrite !Hfield, Hid, Hts, Hurl, Hpv. cbn [text_of to_string].
      split; [reflexivity|]. split; [exact Htss|].
      eapply stored_mapping_failed with (previous := prev_s) (e := e) (logged := logged).
      * rewrite <- Hpv. exact Hp.
      * exact Hprevs.
      * rewrite <- Hfault0. erewrite puts_so_far_put, puts_so_far_get. reflexivity.
      * reflexivity.
      * cbn [s3_calls]. rewrite <- !app_assoc. reflexivity.
      * reflexivity.
      * cbn [console]. by rewrite <- app_assoc.
  - inversion H; subst; clear H. right. eexists id_s, ts_s, _.
    rewrite !Hfield, Hid, Hts, Hurl. cbn [text_of to_string].
    split; [reflexivity|]. split; [exact Htss|].
    eapply stored_plain.
    + exact Hp.
    + reflexivity.
    + cbn [s3_calls]. rewrite <- !app_assoc. reflexivity.
    + reflexivity.
Qed.

(** ** Both revisions at once *)

Lemma handler_inv rev rt event w resp w' :
  not_preflight rev event ->
  handler_of rev rt event w = (Returned resp, w') ->
  nothing_stored w resp w' \/
  exists id ts row,
    text_of (request_field rt event "id") = Some id /\
    text_of (request_field rt event "timestamp") = Some ts /\
    stored_event rt (label_of rev) w resp w'
      [GetObjectCall
         (segments_key rev (ID_FOLDER rt)
            (getDomainFromUrl rt (request_field rt event "url")) id)]
      (event_key (ID_FOLDER rt) (namespace_of rev id)
         (getDomainFromUrl rt (request_field rt event "url")) id ts)
      (event_header +:+ newline +:+ row)
      (request_field rt event "previousId")
      (ID_FOLDER rt) (namespace_of rev id) id ts.
Proof.
  intros Hpre H. destruct rev.
  - apply ts_handler_inv; [by apply Hpre | exact H].
  - apply js_handler_inv. exact H.
Qed.

Lemma try_catch_returns {A : Type} (m : M A) (h : JsError -> M A) w :
  (forall e w1, exists a w2, h e w1 = (Returned a, w2)) ->
  exists a w2, try_catch m h w = (Returned a, w2).
Proof.
  intros Hh. unfold try_catch. destruct (m w) as [[a|e] w1]; eauto.
Qed.

(** The handlers always answer: no exception leaves them. *)
Lemma handler_returns rev rt event w :
  exists resp w', handler_of rev rt event w = (Returned resp, w').
Proof.
  destruct rev; simpl.
  - unfold IndexTs.handler. destruct (bool_decide _); [by eexists _, _|].
    apply try_catch_returns. intros e w1. by eexists _, _.
  - unfold IndexJs.handler. apply try_catch_returns. intros e w1. by eexists _, _.
Qed.

Lemma calls_since_app w w' news :
  s3_calls w' = s3_calls w ++ news -> calls_since w w' = news.
Proof. intros H. unfold calls_since. rewrite H. apply drop_app_length. Qed.

Lemma nothing_stored_calls w resp w' :
  nothing_stored w resp w' -> Forall (fun c => stored c = false) (calls_since w w').
Proof.
  intros (_ & _ & news & Hcalls & Hnews). by rewrite (calls_since_app _ _ _ Hcalls).
Qed.

Lemma mapping_record_stored c : mapping_record c = true -> stored c = true.
Proof. destruct c as [|k v [|]]; simpl; congruence. Qed.

Lemma event_content_not_mapping key row :
  mapping_record (PutObjectCall key (event_header +:+ newline +:+ row) true) = false.
Proof. reflexivity. Qed.

Lemma mapping_content_is_mapping key previous id ts :
  mapping_record (PutObjectCall key (mapping_content previous id ts) true) = true.
Proof. reflexivity. Qed.

(** C2, as amended: when a request that is not a preflight is answered
    with status 200, the event record (the header and one row) has been
    stored by a [putObject] that resolved, at the key
    [<root>/<namespace-or-publisher>/<domain>/<identifier>/<timestamp>.csv]
    made from the root folder, the namespace, the domain of the url, the
    identifier and the timestamp of the request; the bucket holds the record
    at that key, unless the key of the mapping record of the same request is
    that very key: the bucket then holds the mapping record, which was
    written after the event record. *)
Theorem status_200_event_persisted rev rt event w resp w' :
  not_preflight rev event ->
  handler_of rev rt event w = (Returned resp, w') ->
  statusCode resp = 200 ->
  event_persisted rev rt event w w'.
Proof.
  intros Hpre H Hstatus.
  destruct (handler_inv _ _ _ _ _ _ Hpre H) as [(Hno & _)|(id & ts & row & Hid & Hts & Hrun)];
    [done|].
  exists id, ts, row. split; [exact Hid|]. split; [exact Hts|].
  cbv zeta.
  destruct Hrun as [Hp Hs Hcalls Hbucket
                   | previous e logged Hp Hprev Hfault Hs Hcalls Hbucket Hconsole
                   | previous Hp Hprev Hs Hcalls Hbucket].
  - rewrite (calls_since_app _ _ _ Hcalls). split; [simpl; auto|].
    left. rewrite Hbucket. apply lookup_insert_eq.
  - lia.
  - rewrite (calls_since_app _ _ _ Hcalls). split; [simpl; auto|].
    rewrite Hbucket.
    destruct (decide (mapping_key (ID_FOLDER rt) (namespace_of rev id) previous
                      = event_key (ID_FOLDER rt) (namespace_of rev id)
                          (getDomainFromUrl rt (request_field rt event "url")) id ts))
      as [Heq|Hne].
    + right. exists previous. split; [exact Hprev|]. split; [exact Heq|].
      rewrite <- Heq. apply lookup_insert_eq.
    + left. rewrite lookup_insert_ne by exact Hne. apply lookup_insert_eq.
Qed.

Lemma status_200_event_persisted_witness :
  let rt := Examples.runtime [Scenarios.succession_request] 1000 in
  let event := Examples.post Scenarios.succession_request in
  let out := IndexTs.handler rt event Examples.stocked_world in
  not_preflight TypeScript event /\
  (exists resp, fst out = Returned resp /\ statusCode resp = 200) /\
  event_persisted TypeScript rt event Examples.stocked_world (snd out).
Proof.
  cbv zeta. split; [intros _; discriminate|].
  split; [eexists; split; vm_compute; reflexivity|].
  eapply (status_200_event_persisted TypeScript
            (Examples.runtime [Scenarios.succession_request] 1000)
            (Examples.post Scenarios.succession_request) Examples.stocked_world).
  - intros _. discriminate.
  - vm_compute. reflexivity.
  - reflexivity.
Defined.

(** The two keys of one request can be the same key: the mapping record
    then replaces the event record that was stored just before. *)
Lemma mapping_can_replace_event :
  let rt := Examples.runtime [Scenarios.overwriting_request] 1000 in
  let event := Examples.post Scenarios.overwriting_request in
  let out := IndexTs.handler rt event Examples.stocked_world in
  let key := "newspassid/publisher/mappings/publisher-2/1234567890.csv" in
  event_key "newspassid" "publisher" "mappings" "publisher-2" "1234567890" = key /\
  mapping_key "newspassid" "publisher" "publisher-2/1234567890" = key /\
  (exists resp, fst out = Returned resp /\ statusCode resp = 200) /\
  bucket (snd out) !! key
  = Some (mapping_content "publisher-2/1234567890" "publisher-2" "1234567890").
Proof.
  cbv zeta. split; [reflexivity|]. split; [reflexivity|].
  split; [eexists; split; vm_compute; reflexivity|].
  vm_compute. reflexivity.
Qed.

(** C2, as stated, fails: the request from the host [mappings] whose
    previous identifier is [publisher-2/1234567890] passes the validation of
    both revisions and is answered with status 200, and no event record is at
    the key of its event record afterwards: the mapping record of the same
    request has that key and was written last. *)
Lemma event_record_replaced_by_mapping :
  let rt := Examples.runtime [Scenarios.overwriting_request] 1000 in
  let event := Examples.post Scenarios.overwriting_request in
  let typescript := IndexTs.handler rt event Examples.stocked_world in
  let javascript := IndexJs.handler rt event Examples.empty_world in
  not_preflight TypeScript event /\
  (exists resp, fst typescript = Returned resp /\ statusCode resp = 200) /\
  ~ event_record_at_path TypeScript rt event (snd typescript) /\
  (exists resp, fst javascript = Returned resp /\ statusCode resp = 200) /\
  ~ event_record_at_path JavaScript rt event (snd javascript).
Proof.
  cbv zeta. split; [intros _; discriminate|].
  split; [eexists; split; vm_compute; reflexivity|].
  split.
  { intros (id & ts & row & Hid & Hts & Hbucket).
    vm_compute in Hid. vm_compute in Hts.
    injection Hid as <-. injection Hts as <-.
    vm_compute in Hbucket. discriminate. }
  split; [eexists; split; vm_compute; reflexivity|].
  intros (id & ts & row & Hid & Hts & Hbucket).
  vm_compute in Hid. vm_compute in Hts.
  injection Hid as <-. injection Hts as <-.
  vm_compute in Hbucket. discriminate.
Qed.

Lemma existsb_not_stored (f : S3Call -> bool) (l : list S3Call) :
  (forall c, f c = true -> stored c = true) ->
  Forall (fun c => stored c = false) l ->
  existsb f l = false.
Proof.
  intros Hf Hl. induction Hl as [|c l Hc _ IH]; [reflexivity|].
  simpl. rewrite IH, orb_false_r.
  destruct (f c) eqn:Hfc; [|reflexivity]. apply Hf in Hfc. congruence.
Qed.

(** C1, as amended: every request that is not a preflight is answered, and
    a mapping record is stored for it if and only if the answer has status
    200 and the previousId of the request is present and truthy (for a
    string: not empty). The handler makes no comparison of previousId with
    id. *)
Theorem mapping_written_iff_previous rev rt event w :
  not_preflight rev event ->
  exists resp w',
    handler_of rev rt event w = (Returned resp, w') /\
    (mapping_written w w' <->
     statusCode resp = 200 /\ truthy (request_field rt event "previousId") = true).
Proof.
  intros Hpre. destruct (handler_returns rev rt event w) as (resp & w' & H).
  exists resp, w'. split; [exact H|]. unfold mapping_written.
  destruct (handler_inv _ _ _ _ _ _ Hpre H) as [Hno|(id & ts & row & Hid & Hts & Hrun)].
  - rewrite (existsb_not_stored _ _ mapping_record_stored (nothing_stored_calls _ _ _ Hno)).
    destruct Hno as [Hs _]. split; [discriminate | intros [? _]; done].
  - destruct Hrun as [Hp Hs Hcalls Hbucket
                     | previous e logged Hp Hprev Hfault Hs Hcalls Hbucket Hconsole
                     | previous Hp Hprev Hs Hcalls Hbucket];
      rewrite (calls_since_app _ _ _ Hcalls).
    + cbn [app existsb]. rewrite event_content_not_mapping. cbn.
      rewrite Hp. split; [discriminate | intros [_ ?]; discriminate].
    + cbn [app existsb]. rewrite event_content_not_mapping. cbn.
      rewrite Hs. split; [discriminate | intros [? _]; discriminate].
    + cbn [app existsb]. rewrite mapping_content_is_mapping.
      rewrite !orb_true_r. by split.
Qed.

Lemma mapping_written_iff_previous_witness :
  let rt := Examples.runtime [Scenarios.same_id_request] 1000 in
  let event := Examples.post Scenarios.same_id_request in
  not_preflight TypeScript event /\
  exists resp w',
    IndexTs.handler rt event Examples.stocked_world = (Returned resp, w') /\
    (mapping_written Examples.stocked_world w' <->
     statusCode resp = 200 /\ truthy (request_field rt event "previousId") = true).
Proof.
  cbv zeta. split; [intros _; discriminate|].
  apply (mapping_written_iff_previous TypeScript
           (Examples.runtime [Scenarios.same_id_request] 1000)
           (Examples.post Scenarios.same_id_request) Examples.stocked_world).
  intros _. discriminate.
Defined.

(** C1, as stated, fails: for the request whose previousId is its id, both
    ["publisher-2"], the handler stores a mapping record, so the record is
    not written only when the two differ. *)
Lemma mapping_written_for_same_id :
  let rt := Examples.runtime [Scenarios.same_id_request] 1000 in
  let event := Examples.post Scenarios.same_id_request in
  let out := IndexTs.handler rt event Examples.stocked_world in
  ~ (mapping_written Examples.stocked_world (snd out) <->
     truthy (request_field rt event "previousId") = true /\
     request_field rt event "previousId" <> request_field rt event "id").
Proof.
  cbv zeta. intros [Hwritten _].
  assert (Hw : mapping_written Examples.stocked_world
                 (snd (IndexTs.handler
                         (Examples.runtime [Scenarios.same_id_request] 1000)
                         (Examples.post Scenarios.same_id_request)
                         Examples.stocked_world))).
  { vm_compute. reflexivity. }
  destruct (Hwritten Hw) as [_ Hne]. apply Hne. vm_compute. reflexivity.
Qed.

(** C3, as amended: when the event record has been stored and the write of
    the mapping record fails, the failure reaches the catch clause of the
    handler: it is logged with [console.error], the request is answered
    with status 500, and the event record stays in the bucket. *)
Theorem mapping_failure_fails_request rev rt event w resp w'
    pre key content mkey mcontent :
  not_preflight rev event ->
  handler_of rev rt event w = (Returned resp, w') ->
  calls_since w w' =
    pre ++ [PutObjectCall key content true; PutObjectCall mkey mcontent false] ->
  statusCode resp = 500 /\
  bucket w' !! key = Some content /\
  exists e, s3_put_fault rt (S (puts_so_far w)) = Some e /\
            failure_logged rev e w w'.
Proof.
  intros Hpre H Hcalls.
  destruct (handler_inv _ _ _ _ _ _ Hpre H) as [Hno|(id & ts & row & Hid & Hts & Hrun)].
  - apply nothing_stored_calls in Hno. rewrite Hcalls in Hno.
    apply Forall_app in Hno as [_ Hno]. inversion Hno; subst. discriminate.
  - destruct Hrun as [Hp Hs Hc Hbucket
                     | previous e logged Hp Hprev Hfault Hs Hc Hbucket Hconsole
                     | previous Hp Hprev Hs Hc Hbucket];
      rewrite (calls_since_app _ _ _ Hc) in Hcalls.
    + assert (Hlast : last (pre ++ [PutObjectCall key content true;
                                    PutObjectCall mkey mcontent false])
                      = Some (PutObjectCall mkey mcontent false)).
      { change [PutObjectCall key content true; PutObjectCall mkey mcontent false]
          with ([PutObjectCall key content true] ++ [PutObjectCall mkey mcontent false]).
        rewrite app_assoc. apply last_snoc. }
      rewrite <- Hcalls, last_snoc in Hlast. discriminate.
    + assert (Hinj : pre ++ [PutObjectCall key content true;
                             PutObjectCall mkey mcontent false]
                     = [GetObjectCall
                          (segments_key rev (ID_FOLDER rt)
                             (getDomainFromUrl rt (request_field rt event "url")) id)]
                       ++ [PutObjectCall
                             (event_key (ID_FOLDER rt) (namespace_of rev id)
                                (getDomainFromUrl rt (request_field rt event "url")) id ts)
                             (event_header +:+ newline +:+ row) true;
                           PutObjectCall (mapping_key (ID_FOLDER rt) (namespace_of rev id) previous)
                             (mapping_content previous id ts) false])
        by (symmetry; exact Hcalls).
      apply app_inj_2 in Hinj as [_ Hinj]; [|reflexivity].
      inversion Hinj; subst.
      split; [exact Hs|]. split; [rewrite Hbucket; apply lookup_insert_eq|].
      exists e. split; [exact Hfault|]. exists logged. exact Hconsole.
    + assert (Hlast : last (pre ++ [PutObjectCall key content true;
                                    PutObjectCall mkey mcontent false])
                      = Some (PutObjectCall mkey mcontent false)).
      { change [PutObjectCall key content true; PutObjectCall mkey mcontent false]
          with ([PutObjectCall key content true] ++ [PutObjectCall mkey mcontent false]).
        rewrite app_assoc. apply last_snoc. }
      rewrite <- Hcalls in Hlast. discriminate.
Qed.

Lemma mapping_failure_fails_request_witness :
  let rt := Scenarios.second_put_fails [Scenarios.succession_request] 1000 in
  let event := Examples.post Scenarios.succession_request in
  let out := IndexTs.handler rt event Examples.stocked_world in
  let key := "newspassid/publisher/example.com/publisher-2/1234567890.csv" in
  not_preflight TypeScript event /\
  bucket (snd out) !! key <> None /\
  exists e, s3_put_fault rt (S (puts_so_far Examples.stocked_world)) = Some e /\
            failure_logged TypeScript e Examples.stocked_world (snd out).
Proof.
  cbv zeta. split; [intros _; discriminate|].
  destruct (mapping_failure_fails_request TypeScript
              (Scenarios.second_put_fails [Scenarios.succession_request] 1000)
              (Examples.post Scenarios.succession_request) Examples.stocked_world
              (mkResult 500
                 (Utils.getCorsHeaders (Examples.post Scenarios.succession_request))
                 (failure_body "Internal server error"))
              (snd (IndexTs.handler
                      (Scenarios.second_put_fails [Scenarios.succession_request] 1000)
                      (Examples.post Scenarios.succession_request)
                      Examples.stocked_world))
              [GetObjectCall "newspassid/segments.csv"]
              "newspassid/publisher/example.com/publisher-2/1234567890.csv"
              (event_header +:+ newline +:+
               quoted "publisher-2" +:+ "," +:+ quoted "1234567890" +:+ "," +:+
               quoted "https://example.com" +:+ "," +:+ quoted "consent123" +:+ "," +:+
               quoted "publisher-1" +:+ "," +:+ quoted "segment1" +:+ "," +:+
               quoted EmptyString)
              "newspassid/publisher/mappings/publisher-1.csv"
              (mapping_content "publisher-1" "publisher-2" "1234567890"))
    as (_ & Hbucket & Hlogged).
  - intros _. discriminate.
  - vm_compute. reflexivity.
  - vm_compute. reflexivity.
  - split; [|exact Hlogged]. rewrite Hbucket. discriminate.
Defined.

(** C3, as stated, fails: with a storage whose second write fails, the
    request that announces the succession of ["publisher-1"] by
    ["publisher-2"] has its event record stored, its mapping write
    rejected, and is answered 500, not 200. *)
Lemma mapping_failure_answers_500 :
  let rt := Scenarios.second_put_fails [Scenarios.succession_request] 1000 in
  let event := Examples.post Scenarios.succession_request in
  let out := IndexTs.handler rt event Examples.stocked_world in
  existsb stored (s3_calls (snd out)) = true /\
  In (PutObjectCall "newspassid/publisher/mappings/publisher-1.csv"
        (mapping_content "publisher-1" "publisher-2" "1234567890") false)
     (s3_calls (snd out)) /\
  ~ (exists resp, fst out = Returned resp /\ statusCode resp = 200).
Proof.
  cbv zeta. split; [vm_compute; reflexivity|]. split.
  - vm_compute. right. right. left. reflexivity.
  - intros (resp & Hout & Hstatus). vm_compute in Hout.
    inversion Hout; subst. discriminate.
Qed.

(** A request with a required field that is falsy is refused with status
    400 before anything else is done. *)
Lemma missing_fields_rejected rev rt event w text props :
  not_preflight rev event ->
  body event = Some text ->
  text <> EmptyString ->
  JSON_parse rt text = Some (JObj props) ->
  negb (truthy (assoc "id" props)) || negb (truthy (assoc "timestamp" props))
  || negb (truthy (assoc "url" props))
  || negb (truthy (assoc "consentString" props)) = true ->
  exists resp,
    handler_of rev rt event w = (Returned resp, w) /\
    statusCode resp = 400 /\
    res_body resp = failure_body missing_fields_message.
Proof.
  intros Hpre Hbody Htext Hparse Hreq.
  assert (Ht : string_truthy text = true).
  { unfold string_truthy. by rewrite bool_decide_eq_false_2. }
  destruct rev; simpl.
  - unfold IndexTs.handler.
    rewrite bool_decide_eq_false_2 by (by apply Hpre).
    run. rewrite Hbody, Ht. run. rewrite Hparse. run. rewrite Hreq. run.
    eexists. split; [reflexivity|]. split; reflexivity.
  - unfold IndexJs.handler.
    run. rewrite Hbody. run. rewrite Hparse. run. rewrite Hreq. run.
    eexists. split; [reflexivity|]. split; reflexivity.
Qed.

(** C10: the required fields are tested by truthiness, so a request that is
    not a preflight and whose timestamp is the number 0, or whose id, url or
    consentString is the empty string, is answered with status 400 and the
    message of the missing required fields; the world is left as it was: no
    storage read and no storage write. *)
Theorem falsy_required_field_rejected rev rt event w text props :
  not_preflight rev event ->
  body event = Some text ->
  text <> EmptyString ->
  JSON_parse rt text = Some (JObj props) ->
  assoc "timestamp" props = Some (JNum 0) \/
  assoc "id" props = Some (JStr EmptyString) \/
  assoc "url" props = Some (JStr EmptyString) \/
  assoc "consentString" props = Some (JStr EmptyString) ->
  exists resp,
    handler_of rev rt event w = (Returned resp, w) /\
    statusCode resp = 400 /\
    res_body resp = failure_body missing_fields_message.
Proof.
  intros Hpre Hbody Htext Hparse Hfalsy.
  apply (missing_fields_rejected rev rt event w text props Hpre Hbody Htext Hparse).
  destruct Hfalsy as [H|[H|[H|H]]]; rewrite H; cbn [truthy negb];
    rewrite ?orb_true_r; reflexivity.
Qed.

(** C4, as amended: a request that is not a preflight and whose body is
    absent or is not the text of a JSON document is answered with status
    500, the answer of an internal failure, and no storage read or write is
    made. *)
Theorem unparseable_body_answers_500 rev rt event w :
  not_preflight rev event ->
  unparseable rt event ->
  exists resp w',
    handler_of rev rt event w = (Returned resp, w') /\
    statusCode resp = 500 /\
    storage_untouched w w'.
Proof.
  intros Hpre Hun. unfold unparseable in Hun.
  destruct rev; simpl.
  - unfold IndexTs.handler.
    rewrite bool_decide_eq_false_2 by (by apply Hpre).
    run. destruct (body event) as [text|]; [destruct (string_truthy text)|]; run;
      rewrite ?Hun; run; eexists _, _; (split; [reflexivity|]); by split.
  - unfold IndexJs.handler.
    run. destruct (body event) as [text|]; run;
      rewrite ?Hun; run; eexists _, _; (split; [reflexivity|]); by split.
Qed.

Lemma falsy_required_field_rejected_witness :
  let rt := Examples.runtime [Scenarios.zero_timestamp_request] 1000 in
  let event := Examples.post Scenarios.zero_timestamp_request in
  not_preflight JavaScript event /\
  exists resp,
    handler_of JavaScript rt event Examples.stocked_world
    = (Returned resp, Examples.stocked_world) /\
    statusCode resp = 400 /\
    res_body resp = failure_body missing_fields_message.
Proof.
  cbv zeta. split; [intros ?; discriminate|].
  apply (falsy_required_field_rejected JavaScript
           (Examples.runtime [Scenarios.zero_timestamp_request] 1000)
           (Examples.post Scenarios.zero_timestamp_request) Examples.stocked_world
           (Examples.stringify Scenarios.zero_timestamp_request)
           [("id", JStr "publisher-123"); ("timestamp", JNum 0);
            ("url", JStr "https://example.com"); ("consentString", JStr "consent123")]).
  - intros ?. discriminate.
  - reflexivity.
  - vm_compute. discriminate.
  - vm_compute. reflexivity.
  - left. reflexivity.
Defined.

Lemma unparseable_body_answers_500_witness :
  let rt := Examples.runtime [] 1000 in
  not_preflight TypeScript Scenarios.absent_body_event /\
  unparseable rt Scenarios.absent_body_event /\
  exists resp w',
    handler_of TypeScript rt Scenarios.absent_body_event Examples.stocked_world
    = (Returned resp, w') /\
    statusCode resp = 500 /\
    storage_untouched Examples.stocked_world w'.
Proof.
  cbv zeta. split; [intros _; discriminate|]. split; [exact I|].
  apply (unparseable_body_answers_500 TypeScript (Examples.runtime [] 1000)
           Scenarios.absent_body_event Examples.stocked_world).
  - intros _. discriminate.
  - exact I.
Defined.

(** C4, as stated, fails: a POST without a body is not answered with a
    status of the 400 class but with status 500. *)
Lemma absent_body_not_400 :
  let rt := Examples.runtime [] 1000 in
  let out := IndexTs.handler rt Scenarios.absent_body_event Examples.stocked_world in
  unparseable rt Scenarios.absent_body_event /\
  ~ (exists resp, fst out = Returned resp /\ statusCode resp = 400).
Proof.
  cbv zeta. split; [exact I|].
  intros (resp & Hout & Hstatus). vm_compute in Hout.
  inversion Hout; subst. discriminate.
Qed.

(** ** A segment source that cannot be read *)

Lemma s3_getObject_world rt key b c l :
  snd (s3_getObject rt key (mkWorld b c l)) = mkWorld b (c ++ [GetObjectCall key]) l.
Proof.
  unfold s3_getObject. cbn [bucket s3_calls console].
  destruct (s3_get_fault rt key) as [[e|]|]; [reflexivity..|].
  destruct (b !! key); reflexivity.
Qed.

Lemma ts_getValidSegments_read_fails rt f b c l e :
  read_fails rt (mkWorld b c l) f e ->
  IndexTs.getValidSegments rt f (mkWorld b c l)
  = (Thrown e, mkWorld b (c ++ [GetObjectCall f])
                 (l ++ [mkLine LevelError "Error reading segments:" (Some e)])).
Proof.
  unfold read_fails. intros Hread.
  pose proof (s3_getObject_world rt f b c l) as Hw.
  unfold IndexTs.getValidSegments. run.
  destruct (s3_getObject rt f (mkWorld b c l)) as [o w1]. simpl in *. subst. reflexivity.
Qed.

Lemma js_getValidSegments_read_fails rt ns d id b c l e :
  read_fails rt (mkWorld b c l)
    (ID_FOLDER rt +:+ "/" +:+ ns +:+ "/" +:+ d +:+ "/" +:+ id +:+ "/segments.csv") e ->
  exists logged,
    IndexJs.getValidSegments rt ns d id (mkWorld b c l)
    = (Returned [],
       mkWorld b
         (c ++ [GetObjectCall (ID_FOLDER rt +:+ "/" +:+ ns +:+ "/" +:+ d +:+ "/" +:+ id
                                 +:+ "/segments.csv")])
         (l ++ logged)).
Proof.
  unfold read_fails. intros Hread.
  set (key := ID_FOLDER rt +:+ "/" +:+ ns +:+ "/" +:+ d +:+ "/" +:+ id +:+ "/segments.csv") in *.
  pose proof (s3_getObject_world rt key b c l) as Hw.
  unfold IndexJs.getValidSegments. run. fold key.
  destruct (s3_getObject rt key (mkWorld b c l)) as [o w1]. simpl in *. subst.
  destruct (bool_decide (err_code e = Some "NoSuchKey")).
  - exists []. by rewrite app_nil_r.
  - by eexists [_].
Qed.

Lemma array_join_strings sep l : exists s, array_join sep (List.map JStr l) = Some s.
Proof.
  unfold array_join. induction l as [|x l IH]; [by eexists|].
  destruct IH as [s IH]. destruct l as [|y l]; [by eexists|].
  exists (x +:+ sep +:+ s).
  change (join_with to_string sep (List.map JStr (x :: y :: l)))
    with (match join_with to_string sep (List.map JStr (y :: l)) with
          | Some r => Some (x +:+ sep +:+ r)
          | None => None
          end).
  by rewrite IH.
Qed.

Lemma encode_lookups p :
  exists props,
    encode_request p = JObj props /\
    assoc "id" props = Some (JStr (Client.id p)) /\
    assoc "timestamp" props = Some (JNum (Client.timestamp p)) /\
    assoc "url" props = Some (JStr (Client.url p)) /\
    assoc "consentString" props = Some (JStr (Client.consentString p)) /\
    assoc "previousId" props = option_map JStr (Client.previousId p) /\
    assoc "publisherSegments" props
    = option_map (fun l => JArr (List.map JStr l)) (Client.publisherSegments p).
Proof.
  eexists. split; [reflexivity|].
  destruct p as [id ts url cs [prev|] [pubs|]]; repeat split; reflexivity.
Qed.

Lemma truthy_string_value s : s <> EmptyString -> truthy (Some (JStr s)) = true.
Proof. intros H. cbn. by rewrite bool_decide_eq_false_2. Qed.

Lemma truthy_number_value n : n <> 0 -> truthy (Some (JNum n)) = true.
Proof. intros H. cbn. by rewrite (proj2 (Z.eqb_neq n 0) H). Qed.

Lemma s3_putObject_ok rt k v b c l :
  (forall n, s3_put_fault rt n = None) ->
  s3_putObject rt k v (mkWorld b c l)
  = (Returned tt, mkWorld (<[k := v]> b) (c ++ [PutObjectCall k v true]) l).
Proof. intros H. unfold s3_putObject. by rewrite H. Qed.

Lemma js_publisher_typed pubs w :
  exists pub,
    IndexJs.publisherSegments_text
      (option_map (fun l => JArr (List.map JStr l)) pubs) w = (Returned pub, w).
Proof.
  destruct pubs as [l|]; [|by eexists].
  unfold IndexJs.publisherSegments_text. cbn [option_map truthy negb].
  destruct (array_join_strings "|" l) as [s Hs]. rewrite Hs. by eexists.
Qed.

(** C5, as amended: for a request of the declared shape that passes
    validation, when the read of the segment source fails, the TypeScript
    revision logs the error, throws it again and answers with status 500
    without any storage write, while the JavaScript revision resolves the
    empty segment list and goes on: with a storage that accepts the writes
    it stores the event record and answers 200 with no segments. *)
Theorem segment_read_failure rt event w text p e :
  body event = Some text ->
  text <> EmptyString ->
  JSON_parse rt text = Some (encode_request p) ->
  Client.id p <> EmptyString -> Client.timestamp p <> 0 ->
  Client.url p <> EmptyString -> Client.consentString p <> EmptyString ->
  let domain := getDomainFromUrl rt (Some (JStr (Client.url p))) in
  (httpMethod event <> Some "OPTIONS" ->
   IndexTs.matches_publisher_digits (Client.id p) = true ->
   read_fails rt w (segments_key TypeScript (ID_FOLDER rt) domain (Client.id p)) e ->
   exists resp w',
     IndexTs.handler rt event w = (Returned resp, w') /\
     statusCode resp = 500 /\
     bucket w' = bucket w /\
     existsb is_put (calls_since w w') = false /\
     console w'
     = console w ++ [mkLine LevelError "Error reading segments:" (Some e);
                     mkLine LevelError "Error processing request:" (Some e)]) /\
  (Utils.isValidId (Some (JStr (Client.id p))) = true ->
   read_fails rt w (segments_key JavaScript (ID_FOLDER rt) domain (Client.id p)) e ->
   (forall n, s3_put_fault rt n = None) ->
   exists w',
     IndexJs.handler rt event w
     = (Returned (mkResult 200 (Utils.getCorsHeaders event)
                    (success_body (Some (JStr (Client.id p))) [])), w') /\
     exists row,
       In (PutObjectCall
             (event_key (ID_FOLDER rt) (Utils.getNamespaceFromId (Client.id p)) domain
                (Client.id p) (number_to_string (Client.timestamp p)))
             (event_header +:+ newline +:+ row) true)
          (calls_since w w')).
Proof.
  intros Hbody Htext Hparse Hid Hts Hurl Hcs domain.
  assert (Ht : string_truthy text = true).
  { unfold string_truthy. by rewrite bool_decide_eq_false_2. }
  destruct (encode_lookups p) as (props & Henc & Lid & Lts & Lurl & Lcs & Lprev & Lpubs).
  rewrite Henc in Hparse.
  apply truthy_string_value in Hid, Hurl, Hcs. apply truthy_number_value in Hts.
  destruct w as [bk calls cons].
  split.
  - intros Hm Hvalid Hread. cbn [segments_key] in Hread.
    unfold IndexTs.handler.
    rewrite bool_decide_eq_false_2 by done.
    run. rewrite Hbody, Ht. run. rewrite Hparse. run.
    rewrite Lid, Lts, Lurl, Lcs, Hid, Hts, Hurl, Hcs. cbn [negb orb to_string]. run.
    rewrite Hvalid. cbn [negb]. run.
    rewrite (ts_getValidSegments_read_fails _ _ _ _ _ _ Hread). run.
    eexists _, _. split; [reflexivity|]. split; [reflexivity|]. split; [reflexivity|].
    split.
    + unfold calls_since. cbn [s3_calls]. rewrite drop_app_length. reflexivity.
    + cbn [console]. by rewrite <- app_assoc.
  - intros Hvalid Hread Hputs. cbn [segments_key] in Hread.
    unfold IndexJs.handler.
    run. rewrite Hbody. run. rewrite Hparse. run.
    rewrite Lid, Lts, Lurl, Lcs, Hid, Hts, Hurl, Hcs. cbn [negb orb to_string]. 
    rewrite Hvalid. cbn [negb to_string]. run.
    destruct (js_getValidSegments_read_fails _ _ _ _ _ _ _ _ Hread) as [logged Hsegs].
    fold domain. rewrite Hsegs. run.
    rewrite Lpubs, Lprev.
    match goal with
    | |- context [IndexJs.publisherSegments_text ?v ?w1] =>
        destruct (js_publisher_typed (Client.publisherSegments p) w1) as [pub Hpub];
        rewrite Hpub
    end.
    run.
    destruct (Client.previousId p) as [prev|]; cbn [option_map];
      [destruct (truthy (Some (JStr prev)))|]; cbn [truthy to_string]; run;
      rewrite !s3_putObject_ok by exact Hputs; run;
      rewrite ?s3_putObject_ok by exact Hputs; run.
    all: eexists; split; [reflexivity|].
    all: unfold calls_since; cbn [s3_calls]; rewrite <- !app_assoc, drop_app_length.
    all: eexists; right; left; reflexivity.
Qed.

Lemma segment_read_failure_witness :
  let rt := Scenarios.reads_fail [encode_request Scenarios.first_visit] 1000 in
  let event := Examples.post (encode_request Scenarios.first_visit) in
  let w := Examples.stocked_world in
  (exists resp w',
     IndexTs.handler rt event w = (Returned resp, w') /\
     statusCode resp = 500 /\
     bucket w' = bucket w /\
     existsb is_put (calls_since w w') = false /\
     console w'
     = console w ++ [mkLine LevelError "Error reading segments:"
                       (Some (Error "S3 Error"));
                     mkLine LevelError "Error processing request:"
                       (Some (Error "S3 Error"))]) /\
  (exists w',
     IndexJs.handler rt event w
     = (Returned (mkResult 200 (Utils.getCorsHeaders event)
                    (success_body (Some (JStr "publisher-123")) [])), w') /\
     exists row,
       In (PutObjectCall
             (event_key "newspassid" "publisher" "example.com" "publisher-123"
                "1234567890")
             (event_header +:+ newline +:+ row) true)
          (calls_since w w')).
Proof.
  cbv zeta.
  destruct (segment_read_failure
              (Scenarios.reads_fail [encode_request Scenarios.first_visit] 1000)
              (Examples.post (encode_request Scenarios.first_visit))
              Examples.stocked_world
              (Examples.stringify (encode_request Scenarios.first_visit))
              Scenarios.first_visit (Error "S3 Error"))
    as [Hts Hjs].
  - reflexivity.
  - vm_compute. discriminate.
  - vm_compute. reflexivity.
  - vm_compute. discriminate.
  - vm_compute. discriminate.
  - vm_compute. discriminate.
  - vm_compute. discriminate.
  - split.
    + apply Hts; [discriminate | reflexivity | reflexivity].
    + apply Hjs; [reflexivity | reflexivity | reflexivity].
Defined.

(** C5, as stated, fails: with a storage from which nothing can be read,
    the TypeScript handler answers the valid request of a first visit with
    status 500. *)
Lemma segment_read_failure_answers_500 :
  let rt := Scenarios.reads_fail [encode_request Scenarios.first_visit] 1000 in
  let event := Examples.post (encode_request Scenarios.first_visit) in
  let out := IndexTs.handler rt event Examples.stocked_world in
  read_fails rt Examples.stocked_world "newspassid/segments.csv" (Error "S3 Error") /\
  exists resp, fst out = Returned resp /\ statusCode resp = 500.
Proof.
  cbv zeta. split; [reflexivity|].
  eexists. split; vm_compute; reflexivity.
Qed.

(** ** The filter of the segments *)

(** The loop that pushes to [validSegments] computes the valid records of
    the reader, in the order of the rows. *)
Lemma scan_lines_resolved si ei now lines acc :
  IndexJs.scan_lines si ei now lines acc
  = acc ++ ParsedSource.resolved now (ParsedSource.read_rows si ei lines).
Proof.
  revert acc. induction lines as [|line rest IH]; intros acc.
  - simpl. by rewrite app_nil_r.
  - cbn [IndexJs.scan_lines ParsedSource.read_rows].
    unfold string_truthy. rewrite negb_involutive.
    destruct (bool_decide (trim line = EmptyString)); [apply IH|].
    destruct (parseInt (split "," line !! ei)) as [|e]; cbn [isNaN negb andb number_gt].
    + apply IH.
    + unfold ParsedSource.resolved. cbn [List.filter ParsedSource.valid_at
                                           ParsedSource.row_expiry].
      unfold ParsedSource.valid_at at 1. cbn [ParsedSource.row_expiry].
      destruct (Z.ltb_spec now e) as [Hlt|Hge].
      * rewrite bool_decide_eq_true_2 by exact Hlt.
        rewrite IH. cbn [List.map ParsedSource.row_segment].
        by rewrite <- app_assoc.
      * rewrite bool_decide_eq_false_2 by lia. apply IH.
Qed.

Lemma valid_record_gt now r :
  number_gt (expire_timestamp r) now = ParsedSource.valid_record now r.
Proof.
  unfold ParsedSource.valid_record. destruct (expire_timestamp r) as [|e]; [reflexivity|].
  simpl. destruct (Z.ltb_spec now e).
  - by rewrite bool_decide_eq_true_2.
  - rewrite bool_decide_eq_false_2; [reflexivity | lia].
Qed.

(** C6, as amended: when the segment source is read, the resolved segments
    are those of the records whose expiry is greater than the time
    [Date.now()] of the handler, in the order of the source: a record is
    kept if and only if its expiry is strictly greater than now, so one with
    an expiry at or before now is left out.  In the JavaScript revision the
    records are the non-blank rows from whose expiry field [parseInt] reads
    a number, the whole number at the start of the field, and the other
    rows, those without such a number or without the column, are skipped.
    In the TypeScript revision they are the records of [csv-parse], of
    which one whose expiry is not a number is never kept; a table that
    [csv-parse] rejects is not filtered at all: the read throws. *)
Theorem segment_filter_exact rt w :
  (forall ns d id content rows,
     let key := segments_key JavaScript (ID_FOLDER rt) d id in
     ns = Utils.getNamespaceFromId id ->
     s3_get_fault rt key = None ->
     bucket w !! key = Some content ->
     ParsedSource.read content = Some rows ->
     exists kept,
       fst (IndexJs.getValidSegments rt ns d id w)
       = Returned (List.map ParsedSource.row_segment kept) /\
       kept = List.filter (ParsedSource.valid_at (Date_now rt)) rows /\
       forall r, In r kept <->
                 In r rows /\ Date_now rt < ParsedSource.row_expiry r) /\
  (forall file content records,
     s3_get_fault rt file = None ->
     bucket w !! file = Some content ->
     csv_parse rt content = Some records ->
     exists kept,
       fst (IndexTs.getValidSegments rt file w) = Returned (List.map segments kept) /\
       kept = List.filter (ParsedSource.valid_record (Date_now rt)) records /\
       forall r, In r kept <->
                 In r records /\
                 exists e, expire_timestamp r = Int e /\ Date_now rt < e) /\
  (forall file content,
     s3_get_fault rt file = None ->
     bucket w !! file = Some content ->
     csv_parse rt content = None ->
     exists e, fst (IndexTs.getValidSegments rt file w) = Thrown e).
Proof.
  destruct w as [bk calls cons]. cbn [bucket]. split; [|split].
  - intros ns d id content rows -> Hfault Hbucket Hread.
    cbn [segments_key] in Hfault, Hbucket.
    exists (List.filter (ParsedSource.valid_at (Date_now rt)) rows).
    split; [|split; [reflexivity|]].
    + unfold IndexJs.getValidSegments, s3_getObject. run.
      rewrite Hfault, Hbucket. run.
      unfold ParsedSource.read in Hread.
      destruct (indexOf "segments" _) as [si|]; [|discriminate].
      destruct (indexOf "expire_timestamp" _) as [ei|]; [|discriminate].
      injection Hread as <-. run. cbn [fst].
      by rewrite scan_lines_resolved.
    + intros r. rewrite List.filter_In. unfold ParsedSource.valid_at.
      by rewrite bool_decide_eq_true.
  - intros file content records Hfault Hbucket Hparse.
    exists (List.filter (ParsedSource.valid_record (Date_now rt)) records).
    split; [|split; [reflexivity|]].
    + unfold IndexTs.getValidSegments, s3_getObject. run.
      rewrite Hfault, Hbucket. run. rewrite Hparse. run. cbn [fst].
      do 2 f_equal. apply List.filter_ext. intros r. apply valid_record_gt.
    + intros r. rewrite List.filter_In. unfold ParsedSource.valid_record.
      destruct (expire_timestamp r) as [|e].
      * split; [intros [_ ?]; discriminate | intros [_ (e & ? & _)]; discriminate].
      * rewrite bool_decide_eq_true. split.
        -- intros [? ?]. eauto.
        -- intros [? (e' & He & ?)]. injection He as ->. auto.
  - intros file content Hfault Hbucket Hparse.
    unfold IndexTs.getValidSegments, s3_getObject. run.
    rewrite Hfault, Hbucket. run. rewrite Hparse. run. by eexists.
Qed.

Lemma segment_filter_exact_witness :
  let rt := Examples.runtime [] 1000 in
  ParsedSource.read Scenarios.table
  = Some [ParsedSource.mkRow (Some "segA") 2000; ParsedSource.mkRow (Some "segB") 0] /\
  fst (IndexJs.getValidSegments rt "publisher" "example.com" "publisher-123"
         Scenarios.table_world)
  = Returned [Some "segA"] /\
  fst (IndexTs.getValidSegments rt "newspassid/segments.csv" Examples.stocked_world)
  = Returned ["segment1"] /\
  exists e,
    fst (IndexTs.getValidSegments rt "newspassid/segments.csv" Cases.short_row_world)
    = Thrown e.
Proof.
  cbv zeta.
  destruct (segment_filter_exact (Examples.runtime [] 1000) Scenarios.table_world)
    as [Hjs _].
  destruct (segment_filter_exact (Examples.runtime [] 1000) Examples.stocked_world)
    as (_ & Hts & _).
  destruct (segment_filter_exact (Examples.runtime [] 1000) Cases.short_row_world)
    as (_ & _ & Hthrows).
  destruct (Hjs "publisher" "example.com" "publisher-123" Scenarios.table
              [ParsedSource.mkRow (Some "segA") 2000; ParsedSource.mkRow (Some "segB") 0])
    as (kept & Hrun & -> & _);
    [reflexivity | reflexivity | reflexivity | reflexivity |].
  destruct (Hts "newspassid/segments.csv" Examples.segments_table
              [mkSegment "segment1" (Int 9999999999999)])
    as (kept' & Hrun' & -> & _);
    [reflexivity | reflexivity | reflexivity |].
  split; [reflexivity|]. split; [exact Hrun|]. split; [exact Hrun'|].
  apply (Hthrows "newspassid/segments.csv" Scenarios.table); reflexivity.
Defined.

(** C6, as stated, fails.  With the clock at 1000, the reader of the
    design document takes from the rows [segE,5000abc], [segF,1e13] and
    [segA,2000] the segments [segF] and [segA], the expiry [5000abc] being
    no number; the JavaScript revision resolves [segE] and [segA], since
    [parseInt] reads 5000 from the first expiry and 1 from the second.  And
    where the reader of the design document skips the row [segD], which has
    no expiry, and resolves [segA], the TypeScript revision resolves nothing:
    [csv-parse] rejects the table and the request is answered with status
    500. *)
Lemma expiry_rows_not_skipped :
  let rt := Examples.runtime [encode_request Scenarios.first_visit] 1000 in
  option_map (SegmentSource.resolved 1000) (SegmentSource.read Cases.loose_table)
  = Some [Some "segF"; Some "segA"] /\
  fst (IndexJs.getValidSegments rt "publisher" "example.com" "publisher-123"
         Cases.loose_world)
  = Returned [Some "segE"; Some "segA"] /\
  option_map (SegmentSource.resolved 1000) (SegmentSource.read Scenarios.table)
  = Some [Some "segA"] /\
  (exists e,
     fst (IndexTs.getValidSegments rt "newspassid/segments.csv" Cases.short_row_world)
     = Thrown e) /\
  exists resp,
    fst (IndexTs.handler rt (Examples.post (encode_request Scenarios.first_visit))
           Cases.short_row_world) = Returned resp /\
    statusCode resp = 500.
Proof.
  cbv zeta. split; [vm_compute; reflexivity|]. split; [vm_compute; reflexivity|].
  split; [vm_compute; reflexivity|]. split; [eexists; vm_compute; reflexivity|].
  eexists. split; vm_compute; reflexivity.
Qed.

(** ** The client *)







(** An empty string given for the id is the same as no id: [setID] goes by
    the truthiness of its argument. *)
Lemma setID_empty_id_is_omitted br config pubs s :
  Client.setID br config (Some EmptyString) pubs s = Client.setID br config None pubs s /\
  Client.setID_v1 br config (Some EmptyString) pubs s
  = Client.setID_v1 br config None pubs s.
Proof. split; reflexivity. Qed.



(** ** The format of an identifier *)

Lemma two_parts_spec parts :
  Utils.two_parts parts = true <->
  exists a b, parts = [a; b] /\ a <> EmptyString /\ b <> EmptyString.
Proof.
  unfold Utils.two_parts, string_truthy. split.
  - destruct parts as [|a [|b [|c rest]]]; try discriminate.
    rewrite andb_true_iff, !negb_true_iff, !bool_decide_eq_false. intros [? ?]. eauto.
  - intros (a & b & -> & Ha & Hb).
    by rewrite !bool_decide_eq_false_2.
Qed.

(** What [isValidId] accepts: the strings that split at their dashes
    into exactly two components, both non-empty. *)
Lemma isValidId_exactly_two s :
  Utils.isValidId (Some (JStr s)) = true <->
  exists a b, split "-" s = [a; b] /\ a <> EmptyString /\ b <> EmptyString.
Proof.
  unfold Utils.isValidId. destruct (string_truthy s) eqn:Hs; cbn [negb].
  - apply two_parts_spec.
  - unfold string_truthy in Hs. apply negb_false_iff, bool_decide_eq_true in Hs.
    subst s. split; [discriminate | intros (a & b & Hsplit & _); discriminate].
Qed.

Lemma isValidId_rejects_more s a b c rest :
  split "-" s = a :: b :: c :: rest -> Utils.isValidId (Some (JStr s)) = false.
Proof.
  intros Hsplit. apply not_true_is_false. intros Hvalid.
  apply isValidId_exactly_two in Hvalid as (a' & b' & Hsplit' & _). congruence.
Qed.

(** C8, the code at the failing input: the identifier that the client
    generates for the namespace ["publisher"] has six non-empty components
    between its dashes, and the format check of both revisions of the
    handler refuses it; the JavaScript handler answers the first visit of
    that identifier with status 400. *)
Theorem generated_id_rejected :
  Client.generateId Scenarios.browser "publisher" = Scenarios.generated_id /\
  split "-" Scenarios.generated_id
  = ["publisher"; "123e4567"; "e89b"; "42d3"; "a456"; "426614174000"] /\
  Utils.isValidId (Some (JStr Scenarios.generated_id)) = false /\
  fst (IndexTs.validateId (Some (JStr Scenarios.generated_id)) Examples.empty_world)
  = Returned false /\
  let request :=
    encode_request
      (Client.mkPayload Scenarios.generated_id 1234567890 "https://example.com"
         "consent123" None None) in
  fst (IndexJs.handler (Examples.runtime [request] 1000) (Examples.post request)
         Examples.empty_world)
  = Returned (Utils.errorResponse 400 "Invalid ID format").
Proof.
  split; [reflexivity|]. split; [reflexivity|].
  split; [apply (isValidId_rejects_more Scenarios.generated_id "publisher" "123e4567"
                   "e89b" ["42d3"; "a456"; "426614174000"]); reflexivity|].
  split; vm_compute; reflexivity.
Qed.
(** ** The loader *)

Lemma apply_stub_push c w : Loader.apply_stub c w = Loader.push (Loader.item_of c) w.
Proof. by destruct c. Qed.

Lemma fold_stub_calls calls q r f sg t cs l :
  List.fold_left (fun acc call => call acc) (List.map Loader.apply_stub calls)
    (Loader.mkWindow (Some q) r f sg t cs l)
  = Loader.mkWindow (Some (q ++ List.map Loader.item_of calls)) r f sg t cs l.
Proof.
  revert q. induction calls as [|c calls IH]; intros q.
  - simpl. by rewrite app_nil_r.
  - cbn [List.map List.fold_left]. rewrite apply_stub_push.
    unfold Loader.push at 1. cbn. rewrite IH. by rewrite <- app_assoc.
Qed.

(** The queue that the stub filled is drained to its end, and the real
    client receives the explicit [setID] calls in their order. *)
Lemma drain_stub_calls pg calls cs log :
  Loader.is_function pg "setID" = true ->
  exists cs' log',
    Loader.drain pg (List.map Loader.item_of calls) cs log = (cs', log', None) /\
    List.map snd (List.filter Loader.is_setID cs')
    = List.map snd (List.filter Loader.is_setID cs) ++ Loader.explicit_setIDs calls.
Proof.
  intros Hf. revert cs log. induction calls as [|c calls IH]; intros cs log.
  - exists cs, log. split; [reflexivity|]. by rewrite app_nil_r.
  - assert (Hstep : forall name params,
              name <> "setID" ->
              exists cs1 log1,
                (if Loader.is_function pg name then
                   if Loader.call_throws pg name params then
                     Loader.drain pg (List.map Loader.item_of calls)
                       (cs ++ [(name, params)])
                       (log ++ ["newspassid: Error executing queued command"])
                   else Loader.drain pg (List.map Loader.item_of calls)
                          (cs ++ [(name, params)]) log
                 else Loader.drain pg (List.map Loader.item_of calls) cs log)
                = Loader.drain pg (List.map Loader.item_of calls) cs1 log1 /\
                List.map snd (List.filter Loader.is_setID cs1)
                = List.map snd (List.filter Loader.is_setID cs)).
    { intros name params Hname.
      assert (Hskip : List.map snd (List.filter Loader.is_setID (cs ++ [(name, params)]))
                      = List.map snd (List.filter Loader.is_setID cs)).
      { rewrite List.filter_app. cbn [List.filter]. unfold Loader.is_setID at 2. cbn [fst].
        rewrite bool_decide_eq_false_2 by exact Hname. by rewrite app_nil_r. }
      destruct (Loader.is_function pg name); [destruct (Loader.call_throws pg name params)|];
        eexists _, _; split; try reflexivity; done. }
    destruct c as [id| | |]; cbn [List.map Loader.item_of Loader.drain Loader.property_key
                                    to_string Loader.explicit_setIDs List.flat_map app].
    + rewrite Hf.
      assert (Hkeep : forall log1,
                exists cs' log',
                  Loader.drain pg (List.map Loader.item_of calls)
                    (cs ++ [("setID", [option_map JStr id])]) log1 = (cs', log', None) /\
                  List.map snd (List.filter Loader.is_setID cs')
                  = List.map snd (List.filter Loader.is_setID cs)
                    ++ [option_map JStr id] :: Loader.explicit_setIDs calls).
      { intros log1.
        destruct (IH (cs ++ [("setID", [option_map JStr id])]) log1)
          as (cs' & log' & Hdrain & Hcalls).
        exists cs', log'. split; [exact Hdrain|]. rewrite Hcalls.
        rewrite List.filter_app, List.map_app. cbn. by rewrite <- app_assoc. }
      destruct (Loader.call_throws pg "setID" [option_map JStr id]); apply Hkeep.
    + destruct (Hstep "getID" [] ltac:(discriminate)) as (cs1 & log1 & -> & <-). apply IH.
    + destruct (Hstep "getSegments" [] ltac:(discriminate)) as (cs1 & log1 & -> & <-).
      apply IH.
    + destruct (Hstep "clearID" [] ltac:(discriminate)) as (cs1 & log1 & -> & <-).
      apply IH.
Qed.

(** Whatever the page called on the stub, once the bundle has loaded the
    real client receives the explicit [setID] calls and then one more, the
    default one: the flag that [onload] tests is the [false] that the
    loader wrote, since the replay of the queue never sets it. *)
Lemma default_setID_always_issued pg calls :
  Loader.createNewsPassID_defined pg = true ->
  Loader.is_function pg "setID" = true ->
  Loader.setID_calls
    (Loader.session pg (List.map Loader.apply_stub calls) Loader.fresh_window)
  = Loader.explicit_setIDs calls ++ [[]].
Proof.
  intros Hdef Hf. unfold Loader.session.
  change (Loader.loader_init Loader.fresh_window)
    with (Loader.mkWindow (Some []) false (Some false) None [] [] []).
  rewrite fold_stub_calls. cbn [app].
  unfold Loader.onload. rewrite Hdef.
  cbn [negb Loader.newspassid_q Loader.client_calls Loader.loader_console
       Loader.newspass_initialized Loader.timers default app].
  destruct (drain_stub_calls pg calls [] [] Hf) as (cs' & log' & -> & Hcalls).
  unfold Loader.elapse, Loader.setID_calls.
  cbn [Loader.timers Loader.run_timers Loader.run_callback Loader.client_calls
       Loader.newspassid_q Loader.real_client_installed Loader.newspass_initialized
       Loader.newspass_segments Loader.loader_console].
  change (negb (id false)) with true.
  cbn [Loader.run_timers Loader.run_callback Loader.client_calls].
  rewrite List.filter_app, List.map_app, Hcalls. reflexivity.
Qed.

(** C9, the code at the failing input: on a page that calls
    [setID("publisher-1")] on the stub before the bundle has loaded, the
    real client receives that call when the queue is replayed and then,
    when the timer of [onload] fires, the default call [setID()] as well:
    two identity resolutions in one session. *)
Theorem explicit_setID_then_default :
  Loader.setID_calls
    (Loader.session Scenarios.page [Loader.stub_setID (Some "publisher-1")]
       Loader.fresh_window)
  = [[Some (JStr "publisher-1")]; []].
Proof. vm_compute. reflexivity. Qed.

(** * Further properties of the code *)

(** ** The answers of the handlers *)

Lemma ensures_ret {A : Type} (a : A) (P : A -> Prop) : P a -> ensures (ret a) P.
Proof. intros H w a' w' Heq. inversion Heq. by subst. Qed.

Lemma ensures_bind {A B : Type} (m : M A) (k : A -> M B) (P : B -> Prop) :
  (forall a, ensures (k a) P) -> ensures (bind m k) P.
Proof.
  intros Hk w b w'. unfold bind. destruct (m w) as [[a|e] w1]; [apply Hk | discriminate].
Qed.

Lemma ensures_try_catch {A : Type} (m : M A) (h : JsError -> M A) (P : A -> Prop) :
  ensures m P -> (forall e, ensures (h e) P) -> ensures (try_catch m h) P.
Proof.
  intros Hm Hh w a w'. unfold try_catch. destruct (m w) as [[a1|e] w1] eqn:Hrun.
  - intros Heq. inversion Heq; subst. exact (Hm _ _ _ Hrun).
  - apply Hh.
Qed.

Ltac ensures_step :=
  cbv zeta;
  lazymatch goal with
  | |- ensures (bind _ _) _ => apply ensures_bind; intros ?
  | |- ensures (ret _) _ => apply ensures_ret
  | |- ensures (try_catch _ _) _ => apply ensures_try_catch; [|intros ?]
  | |- ensures (if ?c then _ else _) _ => destruct c eqn:?
  end.

Lemma handler_ensures rev rt event (P : APIGatewayProxyResult -> Prop) :
  (httpMethod event = Some "OPTIONS" ->
   P (mkResult 200 (Utils.getCorsHeaders event) (TextBody EmptyString))) ->
  P (mkResult 400 (Utils.getCorsHeaders (headers_source rev event (mkResult 400 [] (TextBody EmptyString))))
       (failure_body missing_fields_message)) ->
  P (mkResult 400 (Utils.getCorsHeaders (headers_source rev event (mkResult 400 [] (TextBody EmptyString))))
       (failure_body "Invalid ID format")) ->
  P (mkResult 500 (Utils.getCorsHeaders (headers_source rev event (mkResult 500 [] (TextBody EmptyString))))
       (failure_body "Internal server error")) ->
  (forall id segs, P (mkResult 200 (Utils.getCorsHeaders event) (success_body id segs))) ->
  ensures (handler_of rev rt event) P.
Proof.
  intros Hpre Hmissing Hformat Hfailure Hsuccess.
  destruct rev; cbn [handler_of headers_source] in *.
  - unfold IndexTs.handler.
    destruct (bool_decide (httpMethod event = Some "OPTIONS")) eqn:Hm.
    + apply ensures_ret, Hpre. by apply bool_decide_eq_true in Hm.
    + repeat ensures_step; first [exact Hmissing | exact Hformat | exact Hfailure | apply Hsuccess].
  - unfold IndexJs.handler.
    repeat ensures_step; first [exact Hmissing | exact Hformat | exact Hfailure | apply Hsuccess].
Qed.

(** X1: whatever the request, the storage and the faults, the handler
    answers (no exception leaves it), and its answer is one of the
    interface: status 200 with the empty text of a preflight or with the
    success document, status 400 with one of the two refusals, or status
    500 with the one message [Internal server error], which says nothing
    of the error that was caught. *)
Theorem handler_answers_within_interface rev rt event w :
  exists resp w',
    handler_of rev rt event w = (Returned resp, w') /\
    answer_of_the_interface resp.
Proof.
  destruct (handler_returns rev rt event w) as (resp & w' & Hrun).
  exists resp, w'. split; [exact Hrun|].
  revert w resp w' Hrun. apply handler_ensures; unfold answer_of_the_interface; cbn.
  - intros _. left. split; [reflexivity|]. by left.
  - right; left. split; [reflexivity|]. by left.
  - right; left. split; [reflexivity|]. by right.
  - right; right. by split.
  - intros id segs. left. split; [reflexivity|]. right. by eexists _, _.
Qed.

(** X2: the CORS headers of every answer.  The TypeScript revision always
    answers with the headers made from the request, so with the origin of
    the request when it has one; the JavaScript revision does so only with
    status 200, and answers every refusal and failure with the headers of
    an event without headers, that is with the origin [*]. *)
Theorem answer_headers rev rt event w :
  exists resp w',
    handler_of rev rt event w = (Returned resp, w') /\
    res_headers resp = Utils.getCorsHeaders (headers_source rev event resp).
Proof.
  destruct (handler_returns rev rt event w) as (resp & w' & Hrun).
  exists resp, w'. split; [exact Hrun|].
  revert w resp w' Hrun. apply handler_ensures; destruct rev; reflexivity.
Qed.

(** X3: a request with its four required fields whose identifier the format
    check refuses is answered with status 400 and [Invalid ID format],
    and the world is left as it was: nothing is read, written or logged. *)
Theorem invalid_id_rejected rev rt event w text props :
  not_preflight rev event ->
  body event = Some text ->
  text <> EmptyString ->
  JSON_parse rt text = Some (JObj props) ->
  truthy (assoc "id" props) = true ->
  truthy (assoc "timestamp" props) = true ->
  truthy (assoc "url" props) = true ->
  truthy (assoc "consentString" props) = true ->
  format_refused rev (assoc "id" props) ->
  exists resp,
    handler_of rev rt event w = (Returned resp, w) /\
    statusCode resp = 400 /\
    res_body resp = failure_body "Invalid ID format".
Proof.
  intros Hpre Hbody Htext Hparse Hid Hts Hurl Hcs Hformat.
  assert (Ht : string_truthy text = true).
  { unfold string_truthy. by rewrite bool_decide_eq_false_2. }
  destruct rev; cbn [handler_of format_refused] in *.
  - destruct Hformat as (s & Hs & Hrefused).
    destruct (assoc "id" props) as [id|] eqn:Lid; [|discriminate]. cbn [text_of] in Hs.
    unfold IndexTs.handler.
    rewrite bool_decide_eq_false_2 by (by apply Hpre).
    run. rewrite Hbody, Ht. run. rewrite Hparse. run.
    rewrite Lid, Hid, Hts, Hurl, Hcs. cbn [negb orb]. run. rewrite Hs. run.
    rewrite Hrefused. cbn [negb].
    eexists. split; [reflexivity|]. by split.
  - unfold IndexJs.handler.
    run. rewrite Hbody. run. rewrite Hparse. run.
    rewrite Hid, Hts, Hurl, Hcs, Hformat. cbn [negb orb].
    eexists. split; [reflexivity|]. by split.
Qed.

Lemma invalid_id_rejected_witness :
  let rt := Examples.runtime [Cases.visitor_request] 1000 in
  let event := Examples.post Cases.visitor_request in
  exists resp,
    handler_of TypeScript rt event Examples.stocked_world
    = (Returned resp, Examples.stocked_world) /\
    statusCode resp = 400 /\
    res_body resp = failure_body "Invalid ID format".
Proof.
  cbv zeta.
  eapply (invalid_id_rejected TypeScript (Examples.runtime [Cases.visitor_request] 1000)
            (Examples.post Cases.visitor_request) Examples.stocked_world).
  - intros _. discriminate.
  - reflexivity.
  - discriminate.
  - vm_compute. reflexivity.
  - reflexivity.
  - reflexivity.
  - reflexivity.
  - reflexivity.
  - exists "visitor-1". split; reflexivity.
Defined.

(** ** What a run stores, and where *)

(** X4: when a request that carries a previous identifier is answered with
    status 200, the last storage call of the run is the write of the
    mapping record [(previous, id, timestamp)] at
    [<root>/<namespace-or-publisher>/mappings/<previous>.csv], and the
    bucket holds that record there, whatever it held there before: the last
    succession of an identifier wins. *)
Theorem succession_mapping_stored rev rt event w resp w' :
  not_preflight rev event ->
  handler_of rev rt event w = (Returned resp, w') ->
  statusCode resp = 200 ->
  truthy (request_field rt event "previousId") = true ->
  exists id ts previous,
    text_of (request_field rt event "id") = Some id /\
    text_of (request_field rt event "timestamp") = Some ts /\
    text_of (request_field rt event "previousId") = Some previous /\
    let key := mapping_key (ID_FOLDER rt) (namespace_of rev id) previous in
    let content := mapping_content previous id ts in
    last (calls_since w w') = Some (PutObjectCall key content true) /\
    bucket w' !! key = Some content.
Proof.
  intros Hpre Hrun Hok Hprev.
  destruct (handler_inv rev rt event w resp w' Hpre Hrun)
    as [(Hne & _)|(id & ts & row & Hid & Hts & Hstored)]; [done|].
  destruct Hstored as [Hfalsy _ _ _|previous e logged _ _ _ H500 _ _ _
                      |previous _ Hp _ Hcalls Hbucket].
  - congruence.
  - rewrite H500 in Hok. discriminate.
  - exists id, ts, previous. repeat (split; [assumption|]). cbn zeta. split.
    + rewrite (calls_since_app _ _ _ Hcalls).
      change [?a; ?b] with ([a] ++ [b]). by rewrite !app_assoc, last_snoc.
    + rewrite Hbucket. apply lookup_insert_eq.
Qed.

Lemma succession_mapping_stored_witness :
  let rt := Examples.runtime [Scenarios.succession_request] 1000 in
  let event := Examples.post Scenarios.succession_request in
  let out := IndexJs.handler rt event Examples.empty_world in
  exists id ts previous,
    text_of (request_field rt event "id") = Some id /\
    text_of (request_field rt event "timestamp") = Some ts /\
    text_of (request_field rt event "previousId") = Some previous /\
    let key := mapping_key (ID_FOLDER rt) (namespace_of JavaScript id) previous in
    let content := mapping_content previous id ts in
    last (calls_since Examples.empty_world (snd out))
    = Some (PutObjectCall key content true) /\
    bucket (snd out) !! key = Some content.
Proof.
  cbv zeta.
  eapply (succession_mapping_stored JavaScript
            (Examples.runtime [Scenarios.succession_request] 1000)
            (Examples.post Scenarios.succession_request) Examples.empty_world).
  - intros H. discriminate.
  - vm_compute. reflexivity.
  - reflexivity.
  - vm_compute. reflexivity.
Defined.

(** X5: a run changes the bucket at most at two keys, the key of the event
    record of its request and the key of its mapping record; every other
    object of the bucket is as it was. *)
Theorem bucket_changes_only_at_request_keys rev rt event w resp w' k :
  handler_of rev rt event w = (Returned resp, w') ->
  bucket w' !! k <> bucket w !! k ->
  exists id ts,
    text_of (request_field rt event "id") = Some id /\
    text_of (request_field rt event "timestamp") = Some ts /\
    (k = event_key (ID_FOLDER rt) (namespace_of rev id)
           (getDomainFromUrl rt (request_field rt event "url")) id ts \/
     exists previous,
       text_of (request_field rt event "previousId") = Some previous /\
       k = mapping_key (ID_FOLDER rt) (namespace_of rev id) previous).
Proof.
  intros Hrun Hchanged.
  assert (Hpre : not_preflight rev event).
  { intros -> Hm. apply Hchanged. cbn [handler_of] in Hrun.
    unfold IndexTs.handler in Hrun. rewrite bool_decide_eq_true_2 in Hrun by exact Hm.
    inversion Hrun. reflexivity. }
  destruct (handler_inv rev rt event w resp w' Hpre Hrun)
    as [(_ & Hsame & _)|(id & ts & row & Hid & Hts & Hstored)].
  { by rewrite Hsame in Hchanged. }
  exists id, ts. split; [exact Hid|]. split; [exact Hts|].
  set (key := event_key _ _ _ _ _) in *.
  destruct (decide (k = key)) as [|Hk]; [by left|].
  destruct Hstored as [_ _ _ Hbucket|previous e logged _ _ _ _ _ Hbucket _
                      |previous _ Hp _ _ Hbucket].
  - exfalso. apply Hchanged. rewrite Hbucket. by apply lookup_insert_ne.
  - exfalso. apply Hchanged. rewrite Hbucket. by apply lookup_insert_ne.
  - right. exists previous. split; [exact Hp|].
    destruct (decide (k = mapping_key (ID_FOLDER rt) (namespace_of rev id) previous))
      as [|Hm]; [assumption|].
    exfalso. apply Hchanged. rewrite Hbucket. by rewrite !lookup_insert_ne.
Qed.

Lemma bucket_changes_only_at_request_keys_witness :
  let rt := Examples.runtime [Scenarios.succession_request] 1000 in
  let event := Examples.post Scenarios.succession_request in
  exists id ts,
    text_of (request_field rt event "id") = Some id /\
    text_of (request_field rt event "timestamp") = Some ts /\
    ("newspassid/publisher/mappings/publisher-1.csv"
     = event_key (ID_FOLDER rt) (namespace_of TypeScript id)
         (getDomainFromUrl rt (request_field rt event "url")) id ts \/
     exists previous,
       text_of (request_field rt event "previousId") = Some previous /\
       "newspassid/publisher/mappings/publisher-1.csv"
       = mapping_key (ID_FOLDER rt) (namespace_of TypeScript id) previous).
Proof.
  cbv zeta.
  eapply (bucket_changes_only_at_request_keys TypeScript
            (Examples.runtime [Scenarios.succession_request] 1000)
            (Examples.post Scenarios.succession_request) Examples.stocked_world).
  - vm_compute. reflexivity.
  - vm_compute. discriminate.
Defined.

Lemma append_cancel_l (a b c : string) : a +:+ b = a +:+ c -> b = c.
Proof. induction a as [|x a IH]; cbn; [done|]. intros H. apply IH. by inversion H. Qed.

(** X6: the TypeScript revision never writes the segment source: after every
    run the object at [<root>/segments.csv] is the one that was there
    before. *)
Theorem segment_source_never_written rt event w resp w' :
  IndexTs.handler rt event w = (Returned resp, w') ->
  bucket w' !! (ID_FOLDER rt +:+ "/segments.csv")
  = bucket w !! (ID_FOLDER rt +:+ "/segments.csv").
Proof.
  intros Hrun.
  destruct (decide (httpMethod event = Some "OPTIONS")) as [Hm|Hm].
  { unfold IndexTs.handler in Hrun. rewrite bool_decide_eq_true_2 in Hrun by exact Hm.
    inversion Hrun. reflexivity. }
  destruct (ts_handler_inv rt event w resp w' Hm Hrun)
    as [(_ & Hsame & _)|(id & ts & row & Hid & Hts & Hstored)].
  { by rewrite Hsame. }
  assert (Hevent : forall d i t,
             event_key (ID_FOLDER rt) "publisher" d i t <> ID_FOLDER rt +:+ "/segments.csv").
  { intros d i t Hk. unfold event_key in Hk. apply append_cancel_l in Hk. discriminate. }
  assert (Hmapping : forall previous,
             mapping_key (ID_FOLDER rt) "publisher" previous
             <> ID_FOLDER rt +:+ "/segments.csv").
  { intros previous Hk. unfold mapping_key in Hk. apply append_cancel_l in Hk.
    discriminate. }
  destruct Hstored as [_ _ _ Hbucket|previous e logged _ _ _ _ _ Hbucket _
                      |previous _ Hp _ _ Hbucket];
    rewrite Hbucket, ?lookup_insert_ne; auto.
Qed.

Lemma segment_source_never_written_witness :
  let rt := Examples.runtime [Scenarios.succession_request] 1000 in
  let event := Examples.post Scenarios.succession_request in
  let out := IndexTs.handler rt event Examples.stocked_world in
  bucket (snd out) !! (ID_FOLDER rt +:+ "/segments.csv")
  = bucket Examples.stocked_world !! (ID_FOLDER rt +:+ "/segments.csv").
Proof.
  cbv zeta.
  eapply (segment_source_never_written
            (Examples.runtime [Scenarios.succession_request] 1000)
            (Examples.post Scenarios.succession_request) Examples.stocked_world).
  vm_compute. reflexivity.
Defined.

(** X7: the JavaScript revision can write over its segment source.  The
    key of the event record and the key of the segment source of an
    identifier differ only in their last component, the timestamp of the
    request against the fixed name [segments]: when a request whose
    timestamp prints as [segments], and which carries no previous
    identifier, is answered with status 200, the bucket holds the event
    record of that request where the segment source of its identifier
    is read. *)
Theorem event_record_can_replace_segment_source rt event w resp w' :
  IndexJs.handler rt event w = (Returned resp, w') ->
  statusCode resp = 200 ->
  text_of (request_field rt event "timestamp") = Some "segments" ->
  truthy (request_field rt event "previousId") = false ->
  exists id row,
    text_of (request_field rt event "id") = Some id /\
    bucket w' !! segments_key JavaScript (ID_FOLDER rt)
                   (getDomainFromUrl rt (request_field rt event "url")) id
    = Some (event_header +:+ newline +:+ row).
Proof.
  intros Hrun Hok Hts Hprev.
  destruct (js_handler_inv rt event w resp w' Hrun)
    as [(Hne & _)|(id & ts & row & Hid & Hts' & Hstored)]; [done|].
  rewrite Hts in Hts'. injection Hts' as <-.
  exists id, row. split; [exact Hid|].
  assert (Hkey : segments_key JavaScript (ID_FOLDER rt)
                   (getDomainFromUrl rt (request_field rt event "url")) id
                 = event_key (ID_FOLDER rt) (Utils.getNamespaceFromId id)
                     (getDomainFromUrl rt (request_field rt event "url")) id "segments").
  { reflexivity. }
  rewrite Hkey.
  destruct Hstored as [_ _ _ Hbucket|previous e logged Htruthy _ _ _ _ _ _
                      |previous Htruthy _ _ _ _]; [|congruence..].
  rewrite Hbucket. apply lookup_insert_eq.
Qed.

Lemma event_record_can_replace_segment_source_witness :
  let rt := Examples.runtime [Cases.segments_named_request] 1000 in
  let event := Examples.post Cases.segments_named_request in
  let out := IndexJs.handler rt event Scenarios.table_world in
  exists id row,
    text_of (request_field rt event "id") = Some id /\
    bucket (snd out) !! segments_key JavaScript (ID_FOLDER rt)
                          (getDomainFromUrl rt (request_field rt event "url")) id
    = Some (event_header +:+ newline +:+ row).
Proof.
  cbv zeta.
  eapply (event_record_can_replace_segment_source
            (Examples.runtime [Cases.segments_named_request] 1000)
            (Examples.post Cases.segments_named_request) Scenarios.table_world).
  - vm_compute. reflexivity.
  - reflexivity.
  - vm_compute. reflexivity.
  - vm_compute. reflexivity.
Defined.

(** ** The run of a request of the declared shape *)

Lemma array_join_strings_join sep l :
  array_join sep (List.map JStr l) = Some (strings_join sep (List.map Some l)).
Proof.
  unfold array_join. induction l as [|x l IH]; [reflexivity|].
  destruct l as [|y l]; [reflexivity|].
  change (join_with to_string sep (List.map JStr (x :: y :: l)))
    with (match join_with to_string sep (List.map JStr (y :: l)) with
          | Some r => Some (x +:+ sep +:+ r)
          | None => None
          end).
  by rewrite IH.
Qed.

Lemma ts_publisher_typed pubs w :
  IndexTs.publisherSegments_text
    (option_map (fun l => JArr (List.map JStr l)) pubs) w
  = (Returned (strings_join "|" (List.map Some (default [] pubs))), w).
Proof.
  destruct pubs as [l|]; [|reflexivity].
  unfold IndexTs.publisherSegments_text. cbn [option_map default].
  by rewrite array_join_strings_join.
Qed.

Lemma js_publisher_typed_text pubs w :
  IndexJs.publisherSegments_text
    (option_map (fun l => JArr (List.map JStr l)) pubs) w
  = (Returned (strings_join "|" (List.map Some (default [] pubs))), w).
Proof.
  destruct pubs as [l|]; [|reflexivity].
  unfold IndexJs.publisherSegments_text. cbn [option_map truthy negb default].
  by rewrite array_join_strings_join.
Qed.

Lemma previous_text (previous : option string) w :
  (if truthy (option_map JStr previous) then ToString (option_map JStr previous)
   else ret EmptyString) w
  = (Returned (default EmptyString previous), w).
Proof.
  destruct previous as [s|]; [|reflexivity]. cbn [option_map truthy default].
  destruct (bool_decide (s = EmptyString)) eqn:Hs; cbn [negb]; [|reflexivity].
  apply bool_decide_eq_true in Hs. by subst.
Qed.

Lemma ts_read_returns rt f b c l segs :
  fst (IndexTs.getValidSegments rt f (mkWorld b c l)) = Returned segs ->
  IndexTs.getValidSegments rt f (mkWorld b c l)
  = (Returned segs, mkWorld b (c ++ [GetObjectCall f]) l).
Proof.
  intros H. destruct (ts_getValidSegments_run rt f b c l) as [[s Hs]|[e He]].
  - rewrite Hs in *. cbn in H. congruence.
  - rewrite He in H. discriminate.
Qed.

Lemma puts_so_far_irrelevant b c l l' :
  puts_so_far (mkWorld b c l') = puts_so_far (mkWorld b c l).
Proof. reflexivity. Qed.

Lemma segment_values_of_names (names : list string) :
  List.map IndexJs.segment_value (List.map Some names) = List.map JStr names.
Proof. induction names as [|x names IH]; cbn; [reflexivity | by rewrite IH]. Qed.

(** A request of the declared shape that passes the validation and whose
    segment read returns comes to the write of its event record: from there
    on the run is the one of the two writes under the catch clause of the
    handler. *)
Lemma typed_request_reaches_the_write rev rt event b c l text p segs :
  not_preflight rev event ->
  body event = Some text ->
  text <> EmptyString ->
  JSON_parse rt text = Some (encode_request p) ->
  Client.id p <> EmptyString -> Client.timestamp p <> 0 ->
  Client.url p <> EmptyString -> Client.consentString p <> EmptyString ->
  format_accepts rev (Client.id p) = true ->
  fst (read_segments rev rt (getDomainFromUrl rt (Some (JStr (Client.url p))))
         (Client.id p) (mkWorld b c l)) = Returned segs ->
  exists logged,
    handler_of rev rt event (mkWorld b c l)
    = try_catch
        (s3_putObject rt
           (event_key (ID_FOLDER rt) (namespace_of rev (Client.id p))
              (getDomainFromUrl rt (Some (JStr (Client.url p)))) (Client.id p)
              (number_to_string (Client.timestamp p)))
           (event_header +:+ newline +:+ event_row (separator_of rev) p segs) ;;;
         (if truthy (option_map JStr (Client.previousId p)) then
            s3_putObject rt
              (mapping_key (ID_FOLDER rt) (namespace_of rev (Client.id p))
                 (default EmptyString (Client.previousId p)))
              (mapping_content (default EmptyString (Client.previousId p))
                 (Client.id p) (number_to_string (Client.timestamp p)))
          else ret tt) ;;;
         ret (mkResult 200 (Utils.getCorsHeaders event)
                (success_body (Some (JStr (Client.id p)))
                   (List.map IndexJs.segment_value segs))))
        (fun error =>
           console_error (label_of rev) error ;;;
           ret (mkResult 500
                  (Utils.getCorsHeaders
                     (match rev with
                      | TypeScript => event
                      | JavaScript => Utils.empty_event
                      end))
                  (failure_body "Internal server error")))
        (mkWorld b
           (c ++ [GetObjectCall
                    (segments_key rev (ID_FOLDER rt)
                       (getDomainFromUrl rt (Some (JStr (Client.url p))))
                       (Client.id p))])
           (l ++ logged)).
Proof.
  intros Hpre Hbody Htext Hparse Hid Hts Hurl Hcs Hvalid Hread.
  assert (Ht : string_truthy text = true).
  { unfold string_truthy. by rewrite bool_decide_eq_false_2. }
  destruct (encode_lookups p) as (props & Henc & Lid & Lts & Lurl & Lcs & Lprev & Lpubs).
  rewrite Henc in Hparse.
  apply truthy_string_value in Hid, Hurl, Hcs. apply truthy_number_value in Hts.
  set (domain := getDomainFromUrl rt (Some (JStr (Client.url p)))) in *.
  destruct rev; cbn [handler_of format_accepts read_segments segments_key namespace_of
                     label_of separator_of] in *.
  - exists []. rewrite app_nil_r.
    unfold bind at 1 in Hread.
    destruct (ts_getValidSegments_run rt (ID_FOLDER rt +:+ "/segments.csv") b c l)
      as [[names Hnames]|[e He]]; rewrite ?Hnames, ?He in Hread; [|discriminate].
    cbn in Hread. injection Hread as <-.
    unfold IndexTs.handler.
    rewrite bool_decide_eq_false_2 by (by apply Hpre).
    run. rewrite Hbody, Ht. run. rewrite Hparse. run.
    rewrite Lid, Lts, Lurl, Lcs, Hid, Hts, Hurl, Hcs. cbn [negb orb to_string]. run.
    rewrite Hvalid. cbn [negb]. run. fold domain.
    rewrite Hnames. run. rewrite Lprev, Lpubs.
    pose proof (previous_text (Client.previousId p)) as Hprev. run_in Hprev.
    rewrite Hprev. run. rewrite ts_publisher_typed. run.
    rewrite segment_values_of_names. reflexivity.
  - destruct (js_getValidSegments_run rt (Utils.getNamespaceFromId (Client.id p)) domain
                (Client.id p) b c l) as (segs' & logged & Hsegs).
    rewrite Hsegs in Hread. cbn in Hread. injection Hread as ->.
    exists logged.
    unfold IndexJs.handler.
    run. rewrite Hbody. run. rewrite Hparse. run.
    rewrite Lid, Lts, Lurl, Lcs, Hid, Hts, Hurl, Hcs. cbn [negb orb to_string].
    rewrite Hvalid. cbn [negb to_string]. run. fold domain.
    rewrite Hsegs. run. rewrite Lprev, Lpubs.
    rewrite js_publisher_typed_text. run.
    pose proof (previous_text (Client.previousId p)) as Hprev. run_in Hprev.
    rewrite Hprev. run. reflexivity.
Qed.

Lemma typed_run_on_good_storage rev rt event w text p segs :
  not_preflight rev event ->
  body event = Some text ->
  text <> EmptyString ->
  JSON_parse rt text = Some (encode_request p) ->
  Client.id p <> EmptyString -> Client.timestamp p <> 0 ->
  Client.url p <> EmptyString -> Client.consentString p <> EmptyString ->
  format_accepts rev (Client.id p) = true ->
  fst (read_segments rev rt (getDomainFromUrl rt (Some (JStr (Client.url p))))
         (Client.id p) w) = Returned segs ->
  (forall n, s3_put_fault rt n = None) ->
  let root := ID_FOLDER rt in
  let domain := getDomainFromUrl rt (Some (JStr (Client.url p))) in
  let namespace := namespace_of rev (Client.id p) in
  let stored :=
    <[event_key root namespace domain (Client.id p)
        (number_to_string (Client.timestamp p))
      := event_header +:+ newline +:+ event_row (separator_of rev) p segs]> (bucket w) in
  exists w',
    handler_of rev rt event w
    = (Returned (mkResult 200 (Utils.getCorsHeaders event)
                   (success_body (Some (JStr (Client.id p)))
                      (List.map IndexJs.segment_value segs))), w') /\
    s3_calls w'
    = s3_calls w
      ++ [GetObjectCall (segments_key rev root domain (Client.id p));
          PutObjectCall
            (event_key root namespace domain (Client.id p)
               (number_to_string (Client.timestamp p)))
            (event_header +:+ newline +:+ event_row (separator_of rev) p segs) true]
      ++ mapping_call root namespace p /\
    bucket w'
    = match mapping_call root namespace p with
      | PutObjectCall key content _ :: _ => <[key := content]> stored
      | _ => stored
      end.
Proof.
  intros Hpre Hbody Htext Hparse Hid Hts Hurl Hcs Hvalid Hread Hputs
    root domain namespace stored.
  destruct w as [b c l].
  destruct (typed_request_reaches_the_write rev rt event b c l text p segs
              Hpre Hbody Htext Hparse Hid Hts Hurl Hcs Hvalid Hread) as [logged ->].
  fold root domain namespace. unfold mapping_call, stored. run.
  rewrite s3_putObject_ok by exact Hputs. run.
  destruct (Client.previousId p) as [previous|]; cbn [option_map truthy default].
  - unfold string_truthy. destruct (negb (bool_decide (previous = EmptyString))); run.
    + rewrite s3_putObject_ok by exact Hputs. run.
      eexists. split; [reflexivity|]. cbn [s3_calls bucket].
      by rewrite <- !app_assoc.
    + eexists. split; [reflexivity|]. cbn [s3_calls bucket]. by rewrite <- !app_assoc.
  - eexists. split; [reflexivity|]. cbn [s3_calls bucket]. by rewrite <- !app_assoc.
Qed.

(** X8: the run of an accepted request on a storage that takes the writes.
    For a request of the declared shape that passes the validation, when
    the segment read returns [segs], the handler reads the segment source,
    then writes the event record, whose content is the header and one row of
    seven quoted fields (the segments joined by a comma in the TypeScript
    revision and by a bar in the JavaScript one), then the mapping record
    when the previous identifier is not empty, and makes no other storage
    call; it answers 200 with the identifier and the segments. *)
Theorem accepted_request_stored rev rt event w text p segs :
  not_preflight rev event ->
  body event = Some text ->
  text <> EmptyString ->
  JSON_parse rt text = Some (encode_request p) ->
  Client.id p <> EmptyString -> Client.timestamp p <> 0 ->
  Client.url p <> EmptyString -> Client.consentString p <> EmptyString ->
  format_accepts rev (Client.id p) = true ->
  let root := ID_FOLDER rt in
  let domain := getDomainFromUrl rt (Some (JStr (Client.url p))) in
  let namespace := namespace_of rev (Client.id p) in
  fst (read_segments rev rt domain (Client.id p) w) = Returned segs ->
  (forall n, s3_put_fault rt n = None) ->
  exists w',
    handler_of rev rt event w
    = (Returned (mkResult 200 (Utils.getCorsHeaders event)
                   (success_body (Some (JStr (Client.id p)))
                      (List.map IndexJs.segment_value segs))), w') /\
    calls_since w w'
    = [GetObjectCall (segments_key rev root domain (Client.id p));
       PutObjectCall
         (event_key root namespace domain (Client.id p)
            (number_to_string (Client.timestamp p)))
         (event_header +:+ newline +:+ event_row (separator_of rev) p segs) true]
      ++ mapping_call root namespace p.
Proof.
  intros Hpre Hbody Htext Hparse Hid Hts Hurl Hcs Hvalid root domain namespace
    Hread Hputs.
  destruct (typed_run_on_good_storage rev rt event w text p segs
              Hpre Hbody Htext Hparse Hid Hts Hurl Hcs Hvalid Hread Hputs)
    as (w' & Hrun & Hcalls & _).
  exists w'. split; [exact Hrun|]. exact (calls_since_app _ _ _ Hcalls).
Qed.

Lemma accepted_request_stored_witness :
  let rt := Examples.runtime [encode_request Cases.succession] 1000 in
  let event := Examples.post (encode_request Cases.succession) in
  exists w',
    handler_of TypeScript rt event Examples.stocked_world
    = (Returned (mkResult 200 (Utils.getCorsHeaders event)
                   (success_body (Some (JStr "publisher-2")) [JStr "segment1"])), w') /\
    calls_since Examples.stocked_world w'
    = [GetObjectCall "newspassid/segments.csv";
       PutObjectCall "newspassid/publisher/example.com/publisher-2/1234567890.csv"
         (event_header +:+ newline +:+
          event_row "," Cases.succession [Some "segment1"]) true;
       PutObjectCall "newspassid/publisher/mappings/publisher-1.csv"
         (mapping_content "publisher-1" "publisher-2" "1234567890") true].
Proof.
  cbv zeta.
  apply (accepted_request_stored TypeScript
           (Examples.runtime [encode_request Cases.succession] 1000)
           (Examples.post (encode_request Cases.succession)) Examples.stocked_world
           (Examples.stringify (encode_request Cases.succession)) Cases.succession
           [Some "segment1"]).
  - intros _. discriminate.
  - reflexivity.
  - discriminate.
  - vm_compute. reflexivity.
  - discriminate.
  - discriminate.
  - discriminate.
  - discriminate.
  - reflexivity.
  - vm_compute. reflexivity.
  - reflexivity.
Defined.

(** X9: the write of the event record is fatal.  For a request of the
    declared shape that passes the validation, when the storage rejects the
    write of the event record with [e], the handler logs [e] and answers
    500 with the message of an internal failure; the bucket is as it was,
    and the mapping record is not attempted even when the request carries a
    previous identifier: the rejected write is the last storage call. *)
Theorem event_write_failure_is_fatal rev rt event w text p segs e :
  not_preflight rev event ->
  body event = Some text ->
  text <> EmptyString ->
  JSON_parse rt text = Some (encode_request p) ->
  Client.id p <> EmptyString -> Client.timestamp p <> 0 ->
  Client.url p <> EmptyString -> Client.consentString p <> EmptyString ->
  format_accepts rev (Client.id p) = true ->
  let root := ID_FOLDER rt in
  let domain := getDomainFromUrl rt (Some (JStr (Client.url p))) in
  let namespace := namespace_of rev (Client.id p) in
  fst (read_segments rev rt domain (Client.id p) w) = Returned segs ->
  s3_put_fault rt (puts_so_far w) = Some e ->
  exists resp w',
    handler_of rev rt event w = (Returned resp, w') /\
    statusCode resp = 500 /\
    res_body resp = failure_body "Internal server error" /\
    bucket w' = bucket w /\
    calls_since w w'
    = [GetObjectCall (segments_key rev root domain (Client.id p));
       PutObjectCall
         (event_key root namespace domain (Client.id p)
            (number_to_string (Client.timestamp p)))
         (event_header +:+ newline +:+ event_row (separator_of rev) p segs) false] /\
    failure_logged rev e w w'.
Proof.
  intros Hpre Hbody Htext Hparse Hid Hts Hurl Hcs Hvalid root domain namespace
    Hread Hfault.
  destruct w as [b c l].
  destruct (typed_request_reaches_the_write rev rt event b c l text p segs
              Hpre Hbody Htext Hparse Hid Hts Hurl Hcs Hvalid Hread) as [logged ->].
  fold root domain namespace. run.
  unfold s3_putObject. rewrite puts_so_far_get.
  rewrite (puts_so_far_irrelevant b c l (l ++ logged)), Hfault. run.
  eexists _, _. split; [reflexivity|]. split; [reflexivity|]. split; [reflexivity|].
  split; [reflexivity|]. split.
  - unfold calls_since. cbn [s3_calls]. by rewrite <- !app_assoc, drop_app_length.
  - exists logged. cbn [console]. by rewrite <- app_assoc.
Qed.

Lemma event_write_failure_is_fatal_witness :
  let rt := Cases.first_put_fails [encode_request Cases.succession] 1000 in
  let event := Examples.post (encode_request Cases.succession) in
  exists resp w',
    handler_of JavaScript rt event Examples.empty_world = (Returned resp, w') /\
    statusCode resp = 500 /\
    res_body resp = failure_body "Internal server error" /\
    bucket w' = bucket Examples.empty_world /\
    calls_since Examples.empty_world w'
    = [GetObjectCall "newspassid/publisher/example.com/publisher-2/segments.csv";
       PutObjectCall "newspassid/publisher/example.com/publisher-2/1234567890.csv"
         (event_header +:+ newline +:+ event_row "|" Cases.succession []) false] /\
    failure_logged JavaScript (Error "S3 Error") Examples.empty_world w'.
Proof.
  cbv zeta.
  apply (event_write_failure_is_fatal JavaScript
           (Cases.first_put_fails [encode_request Cases.succession] 1000)
           (Examples.post (encode_request Cases.succession)) Examples.empty_world
           (Examples.stringify (encode_request Cases.succession)) Cases.succession
           [] (Error "S3 Error")).
  - intros H. discriminate.
  - reflexivity.
  - discriminate.
  - vm_compute. reflexivity.
  - discriminate.
  - discriminate.
  - discriminate.
  - discriminate.
  - reflexivity.
  - vm_compute. reflexivity.
  - reflexivity.
Defined.

Lemma insert_twice_two (b : gmap string string) k1 v1 k2 v2 :
  <[k2 := v2]> (<[k1 := v1]> (<[k2 := v2]> (<[k1 := v1]> b)))
  = <[k2 := v2]> (<[k1 := v1]> b).
Proof.
  apply map_eq. intros k.
  destruct (decide (k2 = k)) as [->|H2]; [by rewrite !lookup_insert_eq|].
  rewrite !(lookup_insert_ne _ k2 k) by exact H2.
  destruct (decide (k1 = k)) as [->|H1]; [by rewrite !lookup_insert_eq|].
  repeat first [ rewrite (lookup_insert_ne _ k2 k) by exact H2
               | rewrite (lookup_insert_ne _ k1 k) by exact H1 ].
  reflexivity.
Qed.

(** X10: a request that is submitted again overwrites its own records.  For
    a request of the declared shape that passes the validation, on a
    storage that takes the writes and while the segment read returns the
    same segments, the second run answers as the first one did and leaves
    the bucket exactly as the first run left it. *)
Theorem resubmission_overwrites rev rt event w text p segs :
  not_preflight rev event ->
  body event = Some text ->
  text <> EmptyString ->
  JSON_parse rt text = Some (encode_request p) ->
  Client.id p <> EmptyString -> Client.timestamp p <> 0 ->
  Client.url p <> EmptyString -> Client.consentString p <> EmptyString ->
  format_accepts rev (Client.id p) = true ->
  (forall n, s3_put_fault rt n = None) ->
  let domain := getDomainFromUrl rt (Some (JStr (Client.url p))) in
  let first := handler_of rev rt event w in
  let second := handler_of rev rt event (snd first) in
  fst (read_segments rev rt domain (Client.id p) w) = Returned segs ->
  fst (read_segments rev rt domain (Client.id p) (snd first)) = Returned segs ->
  fst second = fst first /\
  bucket (snd second) = bucket (snd first).
Proof.
  intros Hpre Hbody Htext Hparse Hid Hts Hurl Hcs Hvalid Hputs domain first second
    Hread1 Hread2.
  destruct (typed_run_on_good_storage rev rt event w text p segs
              Hpre Hbody Htext Hparse Hid Hts Hurl Hcs Hvalid Hread1 Hputs)
    as (w1 & Hrun1 & _ & Hbucket1).
  unfold second, first in *. rewrite Hrun1 in *. cbn [fst snd] in *.
  destruct (typed_run_on_good_storage rev rt event w1 text p segs
              Hpre Hbody Htext Hparse Hid Hts Hurl Hcs Hvalid Hread2 Hputs)
    as (w2 & Hrun2 & _ & Hbucket2).
  rewrite Hrun2. cbn [fst snd]. split; [reflexivity|].
  rewrite Hbucket2, Hbucket1.
  destruct (mapping_call _ _ p) as [|[key|key content resolved] rest].
  - by rewrite insert_insert_eq.
  - by rewrite insert_insert_eq.
  - apply insert_twice_two.
Qed.

Lemma resubmission_overwrites_witness :
  let rt := Examples.runtime [encode_request Cases.succession] 1000 in
  let event := Examples.post (encode_request Cases.succession) in
  let first := handler_of TypeScript rt event Examples.stocked_world in
  let second := handler_of TypeScript rt event (snd first) in
  fst second = fst first /\ bucket (snd second) = bucket (snd first).
Proof.
  cbv zeta.
  apply (resubmission_overwrites TypeScript
           (Examples.runtime [encode_request Cases.succession] 1000)
           (Examples.post (encode_request Cases.succession)) Examples.stocked_world
           (Examples.stringify (encode_request Cases.succession)) Cases.succession
           [Some "segment1"]).
  - intros _. discriminate.
  - reflexivity.
  - discriminate.
  - vm_compute. reflexivity.
  - discriminate.
  - discriminate.
  - discriminate.
  - discriminate.
  - reflexivity.
  - reflexivity.
  - vm_compute. reflexivity.
  - vm_compute. reflexivity.
Defined.

Lemma strip_prefix_app p s : strip_prefix p (p +:+ s) = Some s.
Proof.
  induction p as [|c p IH]; [reflexivity|].
  change (String c p +:+ s) with (String c (p +:+ s)). cbn [strip_prefix].
  by rewrite bool_decide_eq_true_2.
Qed.

(** X11: the domain of the keys does not tell [www.example.com] from
    [example.com]: a URL whose host is [www.] followed by [host] and a URL
    whose host is [host] itself get the same domain, [host]; only the first
    such prefix is removed. *)
Theorem domain_without_www rt url plain host :
  URL_hostname rt url = Some ("www." +:+ host) ->
  URL_hostname rt plain = Some host ->
  strip_prefix "www." host = None ->
  getDomainFromUrl rt (Some (JStr url)) = host /\
  getDomainFromUrl rt (Some (JStr plain)) = host.
Proof.
  intros Hurl Hplain Hhost. unfold getDomainFromUrl, strip_www. cbn [to_string].
  by rewrite Hurl, Hplain, strip_prefix_app, Hhost.
Qed.

Lemma domain_without_www_witness :
  getDomainFromUrl (Examples.runtime [] 1000) (Some (JStr "https://www.example.com/x"))
  = "example.com" /\
  getDomainFromUrl (Examples.runtime [] 1000) (Some (JStr "https://example.com"))
  = "example.com".
Proof.
  apply (domain_without_www (Examples.runtime [] 1000) "https://www.example.com/x"
           "https://example.com" "example.com"); reflexivity.
Defined.

(** ** The identifiers that the format checks accept *)

Lemma split_nonempty sep s : split sep s <> [].
Proof.
  destruct s as [|c s]; cbn; [discriminate|].
  destruct (bool_decide (c = sep)); [discriminate|].
  destruct (split sep s); discriminate.
Qed.

Lemma split_no_dash s : no_dash s = true -> split "-" s = [s].
Proof.
  unfold no_dash. induction s as [|c s IH]; cbn; [reflexivity|].
  intros [Hc Hs]%andb_true_iff. apply negb_true_iff in Hc. rewrite Hc.
  by rewrite (IH Hs).
Qed.

Lemma split_at_dash a b :
  no_dash a = true -> split "-" (a +:+ "-" +:+ b) = a :: split "-" b.
Proof.
  unfold no_dash. induction a as [|c a IH]; cbn.
  - intros _. reflexivity.
  - intros [Hc Ha]%andb_true_iff. apply negb_true_iff in Hc.
    change (split "-" (String c (a +:+ "-" +:+ b)) = String c a :: split "-" b).
    cbn [split]. by rewrite Hc, (IH Ha).
Qed.

Lemma split_one s b : split "-" s = [b] -> s = b /\ no_dash b = true.
Proof.
  unfold no_dash. revert b. induction s as [|c s IH]; intros b; cbn.
  - intros [= <-]. by split.
  - destruct (bool_decide (c = "-"%char)) eqn:Hc.
    + intros [= <- Hs]. by apply split_nonempty in Hs.
    + destruct (split "-" s) as [|h t] eqn:Hs; [intros [= <-]|intros [= <- ->]].
      * by apply split_nonempty in Hs.
      * destruct (IH h eq_refl) as [-> Hh]. split; [reflexivity|]. cbn.
        by rewrite Hc, Hh.
Qed.

Lemma split_two s a b :
  split "-" s = [a; b] ->
  s = a +:+ "-" +:+ b /\ no_dash a = true /\ no_dash b = true.
Proof.
  revert a. induction s as [|c s IH]; intros a; cbn.
  - discriminate.
  - destruct (bool_decide (c = "-"%char)) eqn:Hc.
    + intros [= <- Hs]. apply bool_decide_eq_true in Hc. subst c.
      destruct (split_one s b Hs) as [-> Hb]. by repeat split.
    + destruct (split "-" s) as [|h t] eqn:Hs; [discriminate|].
      intros [= <- ->]. destruct (IH h eq_refl) as (-> & Hh & Hb).
      repeat split; [|exact Hb]. unfold no_dash in *. cbn. by rewrite Hc, Hh.
Qed.

Lemma strip_prefix_spec p s rest : strip_prefix p s = Some rest -> s = p +:+ rest.
Proof.
  revert s. induction p as [|c p IH]; intros s; cbn.
  - by intros [= ->].
  - destruct s as [|d s]; [discriminate|].
    destruct (bool_decide (c = d)) eqn:Hc; [|discriminate].
    apply bool_decide_eq_true in Hc. subst d. intros H. by rewrite (IH s H).
Qed.

Lemma digits_no_dash s : all_chars is_digit s = true -> no_dash s = true.
Proof.
  unfold no_dash. induction s as [|c s IH]; cbn; [reflexivity|].
  intros [Hc Hs]%andb_true_iff. rewrite (IH Hs), andb_true_r.
  apply negb_true_iff, bool_decide_eq_false. intros ->. discriminate.
Qed.

(** X12: the identifiers that [isValidId] accepts are exactly the texts
    [<namespace>-<token>] with a namespace and a token that are not empty
    and hold no dash. *)
Theorem isValidId_accepts_exactly s :
  Utils.isValidId (Some (JStr s)) = true <->
  exists namespace token,
    s = namespace +:+ "-" +:+ token /\
    namespace <> EmptyString /\ token <> EmptyString /\
    no_dash namespace = true /\ no_dash token = true.
Proof.
  rewrite isValidId_exactly_two. split.
  - intros (a & b & Hsplit & Ha & Hb).
    destruct (split_two s a b Hsplit) as (-> & Hda & Hdb). by exists a, b.
  - intros (a & b & -> & Ha & Hb & Hda & Hdb). exists a, b.
    by rewrite (split_at_dash a b Hda), (split_no_dash b Hdb).
Qed.

(** X13: the namespace that the JavaScript revision takes from an identifier
    is the text before its first dash: whatever follows the dash, dashes
    included, the namespace of [<namespace>-<rest>] is [<namespace>] when
    the namespace holds no dash; so it is for the identifier that the
    client generates. *)
Theorem namespace_of_prefixed_id namespace rest :
  no_dash namespace = true ->
  Utils.getNamespaceFromId (namespace +:+ "-" +:+ rest) = namespace.
Proof.
  intros Hns. unfold Utils.getNamespaceFromId. by rewrite (split_at_dash _ _ Hns).
Qed.

Lemma namespace_of_prefixed_id_witness :
  Utils.getNamespaceFromId
    ("publisher" +:+ "-" +:+ "123e4567-e89b-42d3-a456-426614174000")
  = "publisher".
Proof. apply (namespace_of_prefixed_id "publisher"). reflexivity. Defined.

Lemma publisher_digits_valid s :
  IndexTs.matches_publisher_digits s = true -> Utils.isValidId (Some (JStr s)) = true.
Proof.
  unfold IndexTs.matches_publisher_digits.
  destruct (strip_prefix "publisher-" s) as [rest|] eqn:Hs; [|discriminate].
  intros [Hrest Hdigits]%andb_true_iff.
  apply strip_prefix_spec in Hs. subst s.
  apply digits_no_dash in Hdigits.
  change ("publisher-" +:+ rest) with ("publisher" +:+ "-" +:+ rest).
  apply isValidId_exactly_two. exists "publisher", rest.
  rewrite (split_at_dash "publisher" rest eq_refl), (split_no_dash rest Hdigits).
  repeat split; [discriminate|].
  unfold string_truthy in Hrest. by apply negb_true_iff, bool_decide_eq_false in Hrest.
Qed.

(** X14: every identifier that the TypeScript revision accepts is accepted by
    the JavaScript revision too, and its namespace there is [publisher], so
    both revisions store its records at the same keys. *)
Theorem typescript_ids_valid_in_javascript s :
  IndexTs.matches_publisher_digits s = true ->
  Utils.isValidId (Some (JStr s)) = true /\
  namespace_of JavaScript s = namespace_of TypeScript s.
Proof.
  intros Hts. split; [by apply publisher_digits_valid|].
  unfold IndexTs.matches_publisher_digits in Hts.
  destruct (strip_prefix "publisher-" s) as [rest|] eqn:Hs; [|discriminate].
  apply strip_prefix_spec in Hs. subst s.
  change ("publisher-" +:+ rest) with ("publisher" +:+ "-" +:+ rest).
  cbn [namespace_of]. unfold Utils.getNamespaceFromId.
  by rewrite (split_at_dash "publisher" rest eq_refl).
Qed.

Lemma typescript_ids_valid_in_javascript_witness :
  Utils.isValidId (Some (JStr "publisher-123")) = true /\
  namespace_of JavaScript "publisher-123" = namespace_of TypeScript "publisher-123".
Proof. apply (typescript_ids_valid_in_javascript "publisher-123"). reflexivity. Defined.

Lemma split_length_at_dash x y :
  List.length (split "-" (x +:+ "-" +:+ y))
  = (List.length (split "-" x) + List.length (split "-" y))%nat.
Proof.
  induction x as [|c x IH].
  - reflexivity.
  - change (split "-" (String c x +:+ "-" +:+ y))
      with (split "-" (String c (x +:+ "-" +:+ y))).
    cbn [split]. destruct (bool_decide (c = "-"%char)).
    + cbn [List.length]. by rewrite IH.
    + destruct (split "-" (x +:+ "-" +:+ y)) as [|h t] eqn:Hxy;
        [by apply split_nonempty in Hxy|].
      destruct (split "-" x) as [|h' t'] eqn:Hx; [by apply split_nonempty in Hx|].
      cbn [List.length] in *. exact IH.
Qed.

Lemma split_length_dashed y :
  no_dash y = false -> (2 <= List.length (split "-" y))%nat.
Proof.
  unfold no_dash. induction y as [|c y IH]; cbn [all_chars split]; [discriminate|].
  destruct (bool_decide (c = "-"%char)); cbn [negb andb].
  - intros _. destruct (split "-" y) as [|h t] eqn:Hy; [by apply split_nonempty in Hy|].
    cbn [List.length]. lia.
  - intros Hy. specialize (IH Hy).
    destruct (split "-" y) as [|h t]; cbn [List.length] in *; lia.
Qed.

(** X15: no identifier that the client generates from a UUID passes the
    format check of the backend: whatever the namespace, the identifier
    [<namespace>-<uuid>] of a UUID that holds a dash has more than two
    components, and both revisions of the handler refuse it. *)
Theorem generated_ids_are_refused br namespace rev :
  no_dash (Client.uuidv4 br) = false ->
  format_accepts rev (Client.generateId br namespace) = false.
Proof.
  intros Hdash.
  assert (Hjs : Utils.isValidId (Some (JStr (Client.generateId br namespace))) = false).
  { apply not_true_is_false. intros Hvalid.
    apply isValidId_exactly_two in Hvalid as (a & b & Hsplit & _).
    apply (f_equal (@List.length string)) in Hsplit.
    unfold Client.generateId in Hsplit. rewrite split_length_at_dash in Hsplit.
    pose proof (split_length_dashed _ Hdash) as Hlen.
    destruct (split "-" namespace) as [|h t] eqn:Hns; [by apply split_nonempty in Hns|].
    cbn [List.length] in Hsplit. lia. }
  destruct rev; cbn [format_accepts]; [|exact Hjs].
  apply not_true_is_false. intros Hts. apply publisher_digits_valid in Hts. congruence.
Qed.

Lemma generated_ids_are_refused_witness :
  format_accepts TypeScript (Client.generateId Scenarios.browser "publisher") = false.
Proof.
  apply (generated_ids_are_refused Scenarios.browser "publisher" TypeScript).
  reflexivity.
Defined.

(** ** The client *)

(** What one call of [setID] does, field by field. *)
Lemma setID_run br config id pubs s :
  let key := Client.key_of config in
  let storedId := Client.getStoredId br key s in
  let useId := Client.resolve_id br config id storedId in
  let payload := NewsPassID.payload_of br config id pubs s in
  let r := Client.setID br config id pubs s in
  fst r = useId /\
  Client.localStorage (snd r)
  = (if bool_decide (Some useId = storedId) then Client.localStorage s
     else if Client.storage_available br then <[key := useId]> (Client.localStorage s)
          else Client.localStorage s) /\
  Client.requests (snd r)
  = Client.requests s ++ [(Client.lambdaEndpoint config, payload)] /\
  Client.segments (snd r)
  = match Client.backend br (Client.lambdaEndpoint config) payload with
    | Returned (Some (Client.mkResponse (Some from_backend))) => from_backend
    | _ => default (Client.segments s) pubs
    end /\
  Client.effects (snd r)
  = Client.effects s
    ++ (if bool_decide (Some useId = storedId) then []
        else [Client.Dispatched "newspassid:change" [useId]])
    ++ match Client.backend br (Client.lambdaEndpoint config) payload with
       | Returned _ =>
           NewsPassID.applied_to_page config (Client.segments (snd r))
           ++ [Client.Dispatched "newspass_segments_ready" (Client.segments (snd r))]
       | Thrown _ =>
           match pubs with
           | Some declared => NewsPassID.applied_to_page config declared
           | None => []
           end
       end.
Proof.
  cbv zeta.
  assert (Hpayload :
            Client.mkPayload
              (Client.resolve_id br config id
                 (Client.getStoredId br (Client.key_of config) s))
              (Client.now br) (Client.location_href br)
              (if Client.truthy_string
                    match Client.gpp_consent br with
                    | Returned c => c
                    | Thrown _ => Some EmptyString
                    end
               then default EmptyString
                      match Client.gpp_consent br with
                      | Returned c => c
                      | Thrown _ => Some EmptyString
                      end
               else EmptyString)
              (Client.previous_of id (Client.getStoredId br (Client.key_of config) s))
              pubs
            = NewsPassID.payload_of br config id pubs s).
  { unfold NewsPassID.payload_of, NewsPassID.consent_of. f_equal.
    destruct (Client.gpp_consent br) as [[c|]|e]; cbn [Client.truthy_string default];
      try reflexivity.
    unfold string_truthy. destruct (bool_decide (c = EmptyString)) eqn:Hc; [|reflexivity].
    apply bool_decide_eq_true in Hc. by subst. }
  unfold Client.setID. rewrite Hpayload. clear Hpayload.
  set (payload := NewsPassID.payload_of br config id pubs s).
  set (storedId := Client.getStoredId br (Client.key_of config) s).
  set (useId := Client.resolve_id br config id storedId).
  set (s1 := if bool_decide (Some useId = storedId) then s
             else Client.dispatch (Client.Dispatched "newspassid:change" [useId])
                    (Client.storeId br (Client.key_of config) useId s)).
  assert (Hs1 :
            Client.localStorage s1
            = (if bool_decide (Some useId = storedId) then Client.localStorage s
               else if Client.storage_available br
                    then <[Client.key_of config := useId]> (Client.localStorage s)
                    else Client.localStorage s) /\
            Client.requests s1 = Client.requests s /\
            Client.segments s1 = Client.segments s /\
            Client.effects s1
            = Client.effects s
              ++ (if bool_decide (Some useId = storedId) then []
                  else [Client.Dispatched "newspassid:change" [useId]])).
  { unfold s1, Client.storeId, Client.dispatch.
    destruct (bool_decide (Some useId = storedId));
      [by rewrite app_nil_r|].
    destruct (Client.storage_available br); by cbn. }
  destruct Hs1 as (Hls & Hrq & Hsg & Hef). rewrite <- Hls.
  clearbody s1.
  unfold NewsPassID.applied_to_page.
  destruct (Client.backend br (Client.lambdaEndpoint config) payload)
    as [[[[from_backend|]]|]|e].
  all: destruct pubs as [declared|].
  all: unfold Client.adopt; destruct (Client.inject_of config).
  all: unfold Client.dispatch, Client.send, Client.set_consent.
  all: cbn [fst snd Client.localStorage Client.requests Client.segments Client.effects
            default].
  all: rewrite ?Hrq, ?Hsg, ?Hef.
  all: repeat (split; [reflexivity|]).
  all: rewrite <- ?app_assoc; cbn [app]; rewrite ?app_nil_r; reflexivity.
Qed.

Lemma stored_after_setID br br' config id pubs s :
  Client.storage_available br = true ->
  Client.storage_available br' = true ->
  Client.getStoredId br' (Client.key_of config) (snd (Client.setID br config id pubs s))
  = Some (fst (Client.setID br config id pubs s)).
Proof.
  intros Hav Hav'.
  destruct (setID_run br config id pubs s) as (Hid & Hls & _). cbv zeta in Hid, Hls.
  unfold Client.getStoredId at 1. rewrite Hav', Hls, Hid, Hav.
  destruct (bool_decide _) eqn:Hsame.
  - apply bool_decide_eq_true in Hsame. rewrite Hsame.
    unfold Client.getStoredId. by rewrite Hav.
  - apply lookup_insert_eq.
Qed.

(** X16: the identifier that [setID] resolves to is the one that [getID]
    returns afterwards, whenever [localStorage] can be used: the returned
    identifier is the stored one, whether it was supplied, was already
    stored or was generated. *)
Theorem getID_after_setID br br' config id pubs s :
  Client.storage_available br = true ->
  Client.storage_available br' = true ->
  NewsPassID.getID br' config (snd (Client.setID br config id pubs s))
  = Some (fst (Client.setID br config id pubs s)).
Proof.
  intros Hav Hav'. by apply stored_after_setID.
Qed.

Lemma getID_after_setID_witness :
  NewsPassID.getID Scenarios.browser Scenarios.config
    (snd (Client.setID Scenarios.browser Scenarios.config (Some "publisher-2") None
            Scenarios.returning_visitor))
  = Some (fst (Client.setID Scenarios.browser Scenarios.config (Some "publisher-2") None
                 Scenarios.returning_visitor)).
Proof.
  apply (getID_after_setID Scenarios.browser Scenarios.browser Scenarios.config
           (Some "publisher-2") None Scenarios.returning_visitor); reflexivity.
Defined.





(** ** The client with its promises and the exceptions of the page *)

Lemma quiet_no_change added :
  Forall (fun e => NewsPassIDImpl.is_event e = false) added ->
  List.filter NewsPassIDImpl.is_change added = [].
Proof.
  induction 1 as [|e added He _ IH]; [reflexivity|].
  cbn [List.filter]. destruct e; try discriminate He; exact IH.
Qed.

Lemma quiet_no_ready added :
  Forall (fun e => NewsPassIDImpl.is_event e = false) added ->
  List.filter NewsPassIDImpl.is_ready added = [].
Proof.
  induction 1 as [|e added He _ IH]; [reflexivity|].
  cbn [List.filter]. destruct e; try discriminate He; exact IH.
Qed.

Lemma done_since_added s s' added :
  NewsPassIDImpl.effects s' = NewsPassIDImpl.effects s ++ added ->
  NewsPassIDImpl.done_since s s' = added.
Proof.
  intros H. unfold NewsPassIDImpl.done_since. rewrite H.
  change (@List.length NewsPassIDImpl.Effect) with (@length NewsPassIDImpl.Effect).
  apply drop_app_length.
Qed.

(** The three statements on the page: they touch neither [localStorage]
    nor the requests nor [this.segments], dispatch no event, and complete
    when the segments are an array of texts and the page does not throw. *)
Lemma apply_to_page_run env config segs s :
  let r := NewsPassIDImpl.apply_to_page env config segs s in
  NewsPassIDImpl.localStorage (snd r) = NewsPassIDImpl.localStorage s /\
  NewsPassIDImpl.requests (snd r) = NewsPassIDImpl.requests s /\
  NewsPassIDImpl.segments (snd r) = NewsPassIDImpl.segments s /\
  (exists added,
     NewsPassIDImpl.effects (snd r) = NewsPassIDImpl.effects s ++ added /\
     Forall (fun e => NewsPassIDImpl.is_event e = false) added) /\
  (NewsPassIDImpl.page_sound env ->
   (exists tags, NewsPassIDImpl.convertSegmentsToKeyValue segs = Returned tags) ->
   fst r = Returned tt).
Proof.
  cbv zeta. unfold NewsPassIDImpl.apply_to_page.
  destruct (NewsPassIDImpl.convertSegmentsToKeyValue segs) as [tags|e].
  2:{ cbn [fst snd]. repeat (split; [reflexivity|]). split.
      - exists []. by rewrite app_nil_r.
      - intros _ [tags [=]]. }
  unfold NewsPassIDImpl.applySegmentsToPage.
  destruct (NewsPassIDImpl.apply_fault env _) as [e|] eqn:Happly.
  { cbn [fst snd NewsPassIDImpl.emit NewsPassIDImpl.set_keyValue
         NewsPassIDImpl.localStorage NewsPassIDImpl.requests NewsPassIDImpl.segments
         NewsPassIDImpl.effects].
    repeat (split; [reflexivity|]). split.
    - eexists. split; [reflexivity|]. by repeat constructor.
    - intros Hsound. destruct (Hsound (NewsPassIDImpl.count NewsPassIDImpl.is_applied
                                 (NewsPassIDImpl.set_keyValue tags s))) as (_ & H & _).
      rewrite H in Happly. discriminate. }
  destruct (Client.inject_of config).
  2:{ cbn [fst snd NewsPassIDImpl.emit NewsPassIDImpl.set_keyValue
           NewsPassIDImpl.localStorage NewsPassIDImpl.requests NewsPassIDImpl.segments
           NewsPassIDImpl.effects].
      repeat (split; [reflexivity|]). split; [|done].
      eexists. split; [reflexivity|]. by repeat constructor. }
  unfold NewsPassIDImpl.injectSegmentMetaTags.
  destruct (NewsPassIDImpl.inject_fault env _) as [e|] eqn:Hinject.
  - cbn [fst snd NewsPassIDImpl.emit NewsPassIDImpl.set_keyValue
         NewsPassIDImpl.localStorage NewsPassIDImpl.requests NewsPassIDImpl.segments
         NewsPassIDImpl.effects NewsPassIDImpl.segmentKeyValue].
    repeat (split; [reflexivity|]). split.
    + eexists. split; [by rewrite <- app_assoc|]. by repeat constructor.
    + intros Hsound. destruct (Hsound (NewsPassIDImpl.count NewsPassIDImpl.is_meta_tags
           (NewsPassIDImpl.emit (NewsPassIDImpl.Applied segs true)
              (NewsPassIDImpl.set_keyValue tags s)))) as (_ & _ & H).
      rewrite H in Hinject. discriminate.
  - cbn [fst snd NewsPassIDImpl.emit NewsPassIDImpl.set_keyValue
         NewsPassIDImpl.localStorage NewsPassIDImpl.requests NewsPassIDImpl.segments
         NewsPassIDImpl.effects NewsPassIDImpl.segmentKeyValue].
    repeat (split; [reflexivity|]). split; [|done].
    eexists. split; [by rewrite <- app_assoc|]. by repeat constructor.
Qed.

(** The catch clause: it adopts the segments of the publisher when they
    were passed, dispatches no event, and cannot throw without them. *)
Lemma on_failure_run env config pubs s :
  let r := NewsPassIDImpl.on_failure env config pubs s in
  NewsPassIDImpl.localStorage (snd r) = NewsPassIDImpl.localStorage s /\
  NewsPassIDImpl.requests (snd r) = NewsPassIDImpl.requests s /\
  NewsPassIDImpl.segments (snd r)
  = match pubs with
    | Some declared => NewsPassIDImpl.declared_segments declared
    | None => NewsPassIDImpl.segments s
    end /\
  (exists added,
     NewsPassIDImpl.effects (snd r) = NewsPassIDImpl.effects s ++ added /\
     Forall (fun e => NewsPassIDImpl.is_event e = false) added) /\
  (pubs = None -> fst r = Returned tt).
Proof.
  cbv zeta. unfold NewsPassIDImpl.on_failure. destruct pubs as [declared|].
  - destruct (apply_to_page_run env config (NewsPassIDImpl.declared_segments declared)
                (NewsPassIDImpl.set_segments (NewsPassIDImpl.declared_segments declared) s))
      as (Hls & Hrq & Hsg & Hef & _).
    cbv zeta in Hls, Hrq, Hsg, Hef.
    rewrite Hls, Hrq, Hsg. repeat (split; [reflexivity|]). split; [exact Hef|done].
  - cbn [fst snd]. repeat (split; [reflexivity|]). split; [|done].
    exists []. by rewrite app_nil_r.
Qed.

(** The try block after the answer: it adopts the segments, and the event
    [newspass_segments_ready] is dispatched, with these segments, exactly
    when the block completes. *)
Lemma on_response_run env config pubs response s :
  let r := NewsPassIDImpl.on_response env config pubs response s in
  let chosen := NewsPassIDImpl.adopted pubs response (NewsPassIDImpl.segments s) in
  NewsPassIDImpl.localStorage (snd r) = NewsPassIDImpl.localStorage s /\
  NewsPassIDImpl.requests (snd r) = NewsPassIDImpl.requests s /\
  NewsPassIDImpl.segments (snd r) = chosen /\
  (exists added,
     NewsPassIDImpl.effects (snd r) = NewsPassIDImpl.effects s ++ added /\
     List.filter NewsPassIDImpl.is_change added = [] /\
     (fst r = Returned tt /\
      List.filter NewsPassIDImpl.is_ready added
      = [NewsPassIDImpl.ReadyEvent chosen
           (Some (NewsPassIDImpl.segmentKeyValue (snd r))) true]
      \/ (exists e, fst r = Thrown e) /\
         List.filter NewsPassIDImpl.is_ready added = [])) /\
  (NewsPassIDImpl.page_sound env ->
   (exists tags, NewsPassIDImpl.convertSegmentsToKeyValue chosen = Returned tags) ->
   fst r = Returned tt).
Proof.
  cbv zeta. unfold NewsPassIDImpl.on_response.
  set (chosen := NewsPassIDImpl.adopted pubs response (NewsPassIDImpl.segments s)).
  cbn [NewsPassIDImpl.segments NewsPassIDImpl.set_segments].
  destruct (apply_to_page_run env config chosen (NewsPassIDImpl.set_segments chosen s))
    as (Hls & Hrq & Hsg & (added & Hef & Hquiet) & Hsound).
  cbv zeta in Hls, Hrq, Hsg, Hef, Hsound.
  cbn [NewsPassIDImpl.segments NewsPassIDImpl.set_segments NewsPassIDImpl.localStorage
       NewsPassIDImpl.requests NewsPassIDImpl.effects] in Hls, Hrq, Hsg, Hef.
  destruct (NewsPassIDImpl.apply_to_page env config chosen
              (NewsPassIDImpl.set_segments chosen s)) as [[[]|e] s2];
    cbn [fst snd] in *.
  2:{ repeat (split; [assumption|]). split.
      - exists added. split; [exact Hef|]. split; [by apply quiet_no_change|].
        right. split; [by eexists | by apply quiet_no_ready].
      - intros H1 H2. specialize (Hsound H1 H2). discriminate. }
  unfold NewsPassIDImpl.dispatchEvent.
  destruct (NewsPassIDImpl.dispatch_fault env _) as [e|] eqn:Hdispatch;
    cbn [fst snd NewsPassIDImpl.emit NewsPassIDImpl.localStorage NewsPassIDImpl.requests
         NewsPassIDImpl.segments NewsPassIDImpl.effects NewsPassIDImpl.segmentKeyValue].
  - repeat (split; [assumption|]). split.
    + eexists. split; [by rewrite Hef, <- app_assoc|].
      rewrite !List.filter_app, (quiet_no_change _ Hquiet), (quiet_no_ready _ Hquiet).
      split; [reflexivity|]. right. split; [by eexists | reflexivity].
    + intros H1 _. destruct (H1 (NewsPassIDImpl.count NewsPassIDImpl.is_event s2))
        as (H & _). rewrite H in Hdispatch. discriminate.
  - repeat (split; [assumption|]). split; [|done].
    eexists. split; [by rewrite Hef, <- app_assoc|].
    rewrite !List.filter_app, (quiet_no_change _ Hquiet), (quiet_no_ready _ Hquiet).
    split; [reflexivity|]. left. split; [reflexivity|]. by rewrite Hsg.
Qed.

(** The try block with its catch clause: the promise of [setID] settles,
    with the identifier unless the catch clause throws. *)
Lemma settle_run env config pubs useId tried :
  let r := NewsPassIDImpl.settle env config pubs useId tried in
  NewsPassIDImpl.localStorage (snd r) = NewsPassIDImpl.localStorage (snd tried) /\
  NewsPassIDImpl.requests (snd r) = NewsPassIDImpl.requests (snd tried) /\
  (forall v, fst r = GppApi.Resolved v -> v = useId) /\
  fst r <> GppApi.Pending /\
  (pubs = None -> fst r = GppApi.Resolved useId) /\
  (fst tried = Returned tt -> r = (GppApi.Resolved useId, snd tried)) /\
  ((exists e, fst tried = Thrown e) ->
   NewsPassIDImpl.segments (snd r)
   = match pubs with
     | Some declared => NewsPassIDImpl.declared_segments declared
     | None => NewsPassIDImpl.segments (snd tried)
     end /\
   exists added,
     NewsPassIDImpl.effects (snd r) = NewsPassIDImpl.effects (snd tried) ++ added /\
     Forall (fun e => NewsPassIDImpl.is_event e = false) added).
Proof.
  cbv zeta. destruct tried as [[[]|e] s]; cbn [fst snd NewsPassIDImpl.settle].
  - split; [reflexivity|]. split; [reflexivity|]. split; [by intros v [= <-]|].
    split; [discriminate|]. split; [reflexivity|]. split; [reflexivity|].
    intros [e [=]].
  - destruct (on_failure_run env config pubs s) as (Hls & Hrq & Hsg & Hef & Hnone).
    cbv zeta in Hls, Hrq, Hsg, Hef, Hnone.
    destruct (NewsPassIDImpl.on_failure env config pubs s) as [[[]|e'] s'];
      cbn [fst snd] in *.
    + split; [exact Hls|]. split; [exact Hrq|]. split; [by intros v [= <-]|].
      split; [discriminate|]. split; [reflexivity|]. split; [discriminate|].
      intros _. by split.
    + split; [exact Hls|]. split; [exact Hrq|]. split; [discriminate|].
      split; [discriminate|].
      split; [intros Hp; specialize (Hnone Hp); discriminate|].
      split; [discriminate|]. intros _. by split.
Qed.

(** [setID] from the consent string on: one request is sent, and what
    follows depends on its answer. *)
Lemma request_run env config pubs useId previousId c s :
  let payload := NewsPassIDImpl.payload_of env useId c previousId pubs in
  let reply := NewsPassIDImpl.answer env (Client.lambdaEndpoint config) payload in
  let r := NewsPassIDImpl.request env config pubs useId previousId c s in
  NewsPassIDImpl.localStorage (snd r) = NewsPassIDImpl.localStorage s /\
  NewsPassIDImpl.requests (snd r)
  = NewsPassIDImpl.requests s ++ [(Client.lambdaEndpoint config, payload)] /\
  (forall v, fst r = GppApi.Resolved v -> v = useId) /\
  (fst r = GppApi.Pending <-> reply = GppApi.Pending) /\
  (pubs = None -> reply <> GppApi.Pending -> fst r = GppApi.Resolved useId) /\
  exists added,
    NewsPassIDImpl.effects (snd r) = NewsPassIDImpl.effects s ++ added /\
    List.filter NewsPassIDImpl.is_change added = [] /\
    match reply with
    | GppApi.Pending =>
        List.filter NewsPassIDImpl.is_ready added = [] /\
        NewsPassIDImpl.segments (snd r) = NewsPassIDImpl.segments s
    | GppApi.Rejected _ =>
        List.filter NewsPassIDImpl.is_ready added = [] /\
        NewsPassIDImpl.segments (snd r)
        = match pubs with
          | Some declared => NewsPassIDImpl.declared_segments declared
          | None => NewsPassIDImpl.segments s
          end
    | GppApi.Resolved response =>
        let chosen := NewsPassIDImpl.adopted pubs response (NewsPassIDImpl.segments s) in
        (List.filter NewsPassIDImpl.is_ready added
         = [NewsPassIDImpl.ReadyEvent chosen
              (Some (NewsPassIDImpl.segmentKeyValue (snd r))) true] /\
         NewsPassIDImpl.segments (snd r) = chosen /\
         fst r = GppApi.Resolved useId
         \/
         List.filter NewsPassIDImpl.is_ready added = [] /\
         NewsPassIDImpl.segments (snd r)
         = match pubs with
           | Some declared => NewsPassIDImpl.declared_segments declared
           | None => chosen
           end) /\
        (NewsPassIDImpl.page_sound env ->
         (exists tags, NewsPassIDImpl.convertSegmentsToKeyValue chosen = Returned tags) ->
         List.filter NewsPassIDImpl.is_ready added <> [])
    end.
Proof.
  cbv zeta. unfold NewsPassIDImpl.request.
  set (payload := NewsPassIDImpl.payload_of env useId c previousId pubs).
  set (s1 := NewsPassIDImpl.send (Client.lambdaEndpoint config) payload
               (NewsPassIDImpl.set_consent c s)).
  assert (Hs1 : NewsPassIDImpl.localStorage s1 = NewsPassIDImpl.localStorage s /\
                NewsPassIDImpl.requests s1
                = NewsPassIDImpl.requests s ++ [(Client.lambdaEndpoint config, payload)] /\
                NewsPassIDImpl.segments s1 = NewsPassIDImpl.segments s /\
                NewsPassIDImpl.effects s1 = NewsPassIDImpl.effects s) by done.
  destruct Hs1 as (Hls1 & Hrq1 & Hsg1 & Hef1). clearbody s1.
  destruct (NewsPassIDImpl.answer env (Client.lambdaEndpoint config) payload)
    as [response|e|].
  - destruct (on_response_run env config pubs response s1)
      as (Hls & Hrq & Hsg & (added & Hef & Hchange & Hready) & Hsound).
    cbv zeta in Hls, Hrq, Hsg, Hef, Hready, Hsound.
    destruct (settle_run env config pubs useId
                (NewsPassIDImpl.on_response env config pubs response s1))
      as (Sls & Srq & Sid & Spend & Snone & Sdone & Sthrown).
    cbv zeta in Sls, Srq, Sid, Spend, Snone, Sdone, Sthrown.
    rewrite Sls, Srq, Hls, Hrq, Hls1, Hrq1.
    repeat (split; [first [reflexivity | exact Sid]|]).
    split; [split; [intros H; by destruct Spend | discriminate]|].
    split; [intros Hp _; by apply Snone|].
    rewrite <- Hsg1. rewrite <- Hef1.
    destruct Hready as [[Hret Hready]|[Hthrown Hready]].
    + rewrite (Sdone Hret). cbn [fst snd]. exists added.
      split; [exact Hef|]. split; [exact Hchange|]. split.
      * left. split; [exact Hready|]. split; [exact Hsg | reflexivity].
      * intros _ _. rewrite Hready. discriminate.
    + destruct (Sthrown Hthrown) as (Ssg & added' & Sef & Squiet).
      exists (added ++ added'). split; [by rewrite Sef, Hef, <- app_assoc|].
      rewrite !List.filter_app, Hchange, Hready,
        (quiet_no_change _ Squiet), (quiet_no_ready _ Squiet).
      split; [reflexivity|]. split.
      * right. split; [reflexivity|]. rewrite Ssg, Hsg. reflexivity.
      * intros H1 H2. specialize (Hsound H1 H2). destruct Hthrown as [e He].
        rewrite He in Hsound. discriminate.
  - destruct (settle_run env config pubs useId (Thrown e, s1))
      as (Sls & Srq & Sid & Spend & Snone & _ & Sthrown).
    cbv zeta in Sls, Srq, Sid, Spend, Snone, Sthrown. cbn [fst snd] in *.
    rewrite Sls, Srq, Hls1, Hrq1.
    repeat (split; [first [reflexivity | exact Sid]|]).
    split; [split; [intros H; by destruct Spend | discriminate]|].
    split; [intros Hp _; by apply Snone|].
    destruct (Sthrown (ex_intro _ e eq_refl)) as (Ssg & added' & Sef & Squiet).
    exists added'. rewrite <- Hef1, <- Hsg1.
    split; [exact Sef|]. split; [by apply quiet_no_change|].
    split; [by apply quiet_no_ready | exact Ssg].
  - cbn [fst snd]. rewrite Hls1, Hrq1, Hsg1, Hef1.
    repeat (split; [first [reflexivity | discriminate]|]).
    split; [done|]. split; [done|]. exists []. by rewrite app_nil_r.
Qed.

(** [setID] up to the consent string: when the change of identifier is
    announced without an exception, [setID] waits for the consent and goes
    on from a state in which the identifier is stored. *)
Lemma setID_announced env config id pubs s :
  let key := Client.key_of config in
  let storedId := NewsPassIDImpl.getStoredId env key s in
  let useId := NewsPassIDImpl.resolve_id env config id storedId in
  NewsPassIDImpl.announces env config id s ->
  exists s1,
    NewsPassIDImpl.localStorage s1
    = (if bool_decide (Some useId = storedId) then NewsPassIDImpl.localStorage s
       else if NewsPassIDImpl.storage_available env
            then <[key := useId]> (NewsPassIDImpl.localStorage s)
            else NewsPassIDImpl.localStorage s) /\
    NewsPassIDImpl.requests s1 = NewsPassIDImpl.requests s /\
    NewsPassIDImpl.segments s1 = NewsPassIDImpl.segments s /\
    NewsPassIDImpl.effects s1
    = NewsPassIDImpl.effects s
      ++ (if bool_decide (Some useId = storedId) then []
          else [NewsPassIDImpl.ChangeEvent useId true]) /\
    NewsPassIDImpl.setID env config id pubs s
    = match NewsPassIDImpl.settled_consent env with
      | Some c =>
          NewsPassIDImpl.request env config pubs useId (Client.previous_of id storedId) c s1
      | None => (GppApi.Pending, s1)
      end.
Proof.
  cbv zeta. unfold NewsPassIDImpl.announces, NewsPassIDImpl.setID,
    NewsPassIDImpl.announce, NewsPassIDImpl.settled_consent.
  set (storedId := NewsPassIDImpl.getStoredId env (Client.key_of config) s).
  set (useId := NewsPassIDImpl.resolve_id env config id storedId).
  intros Hannounce.
  destruct (bool_decide (Some useId = storedId)) eqn:Hsame.
  - exists s. rewrite app_nil_r. repeat (split; [reflexivity|]).
    by destruct (NewsPassIDImpl.consent env).
  - destruct Hannounce as [Heq|Hfault];
      [apply bool_decide_eq_false in Hsame; contradiction|].
    unfold NewsPassIDImpl.dispatchEvent.
    assert (Hcount : NewsPassIDImpl.count NewsPassIDImpl.is_event
                       (NewsPassIDImpl.storeId env (Client.key_of config) useId s)
                     = NewsPassIDImpl.count NewsPassIDImpl.is_event s).
    { unfold NewsPassIDImpl.storeId. by destruct (NewsPassIDImpl.storage_available env). }
    rewrite Hcount, Hfault.
    eexists. split; [|split; [|split; [|split; [|by destruct (NewsPassIDImpl.consent env)]]]].
    all: unfold NewsPassIDImpl.storeId;
      by destruct (NewsPassIDImpl.storage_available env).
Qed.

(** [setID] when the dispatch of [newspassid:change] throws: the promise
    is rejected after the identifier has been stored, and nothing is sent. *)
Lemma setID_unannounced env config id pubs s e :
  let key := Client.key_of config in
  let storedId := NewsPassIDImpl.getStoredId env key s in
  let useId := NewsPassIDImpl.resolve_id env config id storedId in
  Some useId <> storedId ->
  NewsPassIDImpl.dispatch_fault env (NewsPassIDImpl.count NewsPassIDImpl.is_event s)
  = Some e ->
  NewsPassIDImpl.setID env config id pubs s
  = (GppApi.Rejected e,
     NewsPassIDImpl.emit (NewsPassIDImpl.ChangeEvent useId false)
       (NewsPassIDImpl.storeId env key useId s)).
Proof.
  cbv zeta. intros Hdiff Hfault.
  unfold NewsPassIDImpl.setID, NewsPassIDImpl.announce.
  rewrite bool_decide_eq_false_2 by exact Hdiff.
  unfold NewsPassIDImpl.dispatchEvent.
  assert (Hcount : NewsPassIDImpl.count NewsPassIDImpl.is_event
                     (NewsPassIDImpl.storeId env (Client.key_of config)
                        (NewsPassIDImpl.resolve_id env config id
                           (NewsPassIDImpl.getStoredId env (Client.key_of config) s)) s)
                   = NewsPassIDImpl.count NewsPassIDImpl.is_event s).
  { unfold NewsPassIDImpl.storeId. by destruct (NewsPassIDImpl.storage_available env). }
  rewrite Hcount, Hfault. reflexivity.
Qed.

Lemma impl_generateId_not_empty env ns :
  NewsPassIDImpl.generateId env ns <> EmptyString.
Proof. unfold NewsPassIDImpl.generateId. destruct ns; discriminate. Qed.

Lemma impl_resolve_id_truthy env config id storedId :
  Client.truthy_string (Some (NewsPassIDImpl.resolve_id env config id storedId)) = true.
Proof.
  unfold NewsPassIDImpl.resolve_id.
  assert (Hgen : string_truthy (NewsPassIDImpl.generateId env (Client.namespace config))
                 = true).
  { unfold string_truthy.
    rewrite bool_decide_eq_false_2; [done | apply impl_generateId_not_empty]. }
  destruct id as [i|]; cbn [Client.truthy_string default].
  - destruct (string_truthy i) eqn:Hi; [exact Hi|].
    destruct storedId as [st|]; cbn [Client.truthy_string default]; [|exact Hgen].
    destruct (string_truthy st) eqn:Hst; [exact Hst | exact Hgen].
  - destruct storedId as [st|]; cbn [Client.truthy_string default]; [|exact Hgen].
    destruct (string_truthy st) eqn:Hst; [exact Hst | exact Hgen].
Qed.

(** What any call of [setID] leaves in [localStorage], whatever becomes of
    its promise. *)
Lemma setID_storage env config id pubs s :
  let key := Client.key_of config in
  let storedId := NewsPassIDImpl.getStoredId env key s in
  let useId := NewsPassIDImpl.resolve_id env config id storedId in
  let r := NewsPassIDImpl.setID env config id pubs s in
  NewsPassIDImpl.localStorage (snd r)
  = (if bool_decide (Some useId = storedId) then NewsPassIDImpl.localStorage s
     else if NewsPassIDImpl.storage_available env
          then <[key := useId]> (NewsPassIDImpl.localStorage s)
          else NewsPassIDImpl.localStorage s) /\
  (forall v, fst r = GppApi.Resolved v -> v = useId).
Proof.
  cbv zeta.
  set (storedId := NewsPassIDImpl.getStoredId env (Client.key_of config) s).
  set (useId := NewsPassIDImpl.resolve_id env config id storedId).
  destruct (decide (Some useId = storedId)) as [Hsame|Hdiff].
  - destruct (setID_announced env config id pubs s (or_introl Hsame))
      as (s1 & Hls & _ & _ & _ & Hrun).
    fold storedId useId in Hls, Hrun. rewrite Hrun.
    destruct (NewsPassIDImpl.settled_consent env) as [c|]; [|by split].
    destruct (request_run env config pubs useId (Client.previous_of id storedId) c s1)
      as (Rls & _ & Rid & _).
    cbv zeta in Rls, Rid. rewrite Rls. by split.
  - destruct (NewsPassIDImpl.dispatch_fault env
                (NewsPassIDImpl.count NewsPassIDImpl.is_event s)) as [e|] eqn:Hfault.
    + rewrite (setID_unannounced env config id pubs s e Hdiff Hfault).
      fold storedId useId. cbn [fst snd NewsPassIDImpl.emit NewsPassIDImpl.localStorage].
      rewrite bool_decide_eq_false_2 by exact Hdiff.
      split; [|discriminate].
      unfold NewsPassIDImpl.storeId. by destruct (NewsPassIDImpl.storage_available env).
    + destruct (setID_announced env config id pubs s (or_intror Hfault))
        as (s1 & Hls & _ & _ & _ & Hrun).
      fold storedId useId in Hls, Hrun. rewrite Hrun.
      destruct (NewsPassIDImpl.settled_consent env) as [c|]; [|by split].
      destruct (request_run env config pubs useId (Client.previous_of id storedId) c s1)
        as (Rls & _ & Rid & _).
      cbv zeta in Rls, Rid. rewrite Rls. by split.
Qed.

Lemma impl_stored_after_setID env env' config id pubs s :
  NewsPassIDImpl.storage_available env = true ->
  NewsPassIDImpl.storage_available env' = true ->
  NewsPassIDImpl.getStoredId env' (Client.key_of config)
    (snd (NewsPassIDImpl.setID env config id pubs s))
  = Some (NewsPassIDImpl.resolve_id env config id
            (NewsPassIDImpl.getStoredId env (Client.key_of config) s)).
Proof.
  intros Hav Hav'.
  destruct (setID_storage env config id pubs s) as (Hls & _). cbv zeta in Hls.
  unfold NewsPassIDImpl.getStoredId at 1. rewrite Hav', Hls, Hav.
  destruct (bool_decide _) eqn:Hsame.
  - apply bool_decide_eq_true in Hsame. rewrite Hsame.
    unfold NewsPassIDImpl.getStoredId. by rewrite Hav.
  - apply lookup_insert_eq.
Qed.

Lemma impl_resolve_stored env config u :
  Client.truthy_string (Some u) = true ->
  NewsPassIDImpl.resolve_id env config None (Some u) = u.
Proof.
  intros Hu. unfold NewsPassIDImpl.resolve_id. cbn [Client.truthy_string] in *.
  by rewrite Hu.
Qed.

(** The requests of a call whose change of identifier, if any, is
    announced: one once the consent has settled. *)
Lemma setID_requests env config id pubs s :
  let storedId := NewsPassIDImpl.getStoredId env (Client.key_of config) s in
  let useId := NewsPassIDImpl.resolve_id env config id storedId in
  let r := NewsPassIDImpl.setID env config id pubs s in
  NewsPassIDImpl.announces env config id s ->
  NewsPassIDImpl.requests (snd r)
  = NewsPassIDImpl.requests s
    ++ NewsPassIDImpl.sent env config useId (Client.previous_of id storedId) pubs /\
  List.filter NewsPassIDImpl.is_change (NewsPassIDImpl.effects (snd r))
  = List.filter NewsPassIDImpl.is_change (NewsPassIDImpl.effects s)
    ++ (if bool_decide (Some useId = storedId) then []
        else [NewsPassIDImpl.ChangeEvent useId true]) /\
  (NewsPassIDImpl.settled_consent env = None -> fst r = GppApi.Pending) /\
  (forall c,
     NewsPassIDImpl.settled_consent env = Some c ->
     let reply :=
       NewsPassIDImpl.answer env (Client.lambdaEndpoint config)
         (NewsPassIDImpl.payload_of env useId c (Client.previous_of id storedId) pubs) in
     (fst r = GppApi.Pending <-> reply = GppApi.Pending) /\
     (pubs = None -> reply <> GppApi.Pending -> fst r = GppApi.Resolved useId)).
Proof.
  cbv zeta. intros Hannounce.
  destruct (setID_announced env config id pubs s Hannounce)
    as (s1 & _ & Hrq & _ & Hef & Hrun).
  set (storedId := NewsPassIDImpl.getStoredId env (Client.key_of config) s) in *.
  set (useId := NewsPassIDImpl.resolve_id env config id storedId) in *.
  assert (Hchange : List.filter NewsPassIDImpl.is_change (NewsPassIDImpl.effects s1)
                    = List.filter NewsPassIDImpl.is_change (NewsPassIDImpl.effects s)
                      ++ (if bool_decide (Some useId = storedId) then []
                          else [NewsPassIDImpl.ChangeEvent useId true])).
  { rewrite Hef, List.filter_app. by destruct (bool_decide _). }
  rewrite Hrun. unfold NewsPassIDImpl.sent.
  destruct (NewsPassIDImpl.settled_consent env) as [c|].
  - destruct (request_run env config pubs useId (Client.previous_of id storedId) c s1)
      as (_ & Rrq & _ & Rpend & Rnone & added & Ref & Rchange & _).
    cbv zeta in Rrq, Rpend, Rnone, Ref.
    rewrite Rrq, Hrq, Ref, List.filter_app, Rchange, app_nil_r.
    split; [reflexivity|]. split; [exact Hchange|]. split; [discriminate|].
    intros c' [= <-]. by split.
  - cbn [fst snd]. rewrite Hrq, app_nil_r.
    split; [reflexivity|]. split; [exact Hchange|]. split; [reflexivity|].
    intros c' [=].
Qed.

(** X17: a call of [setID] without an identifier that follows a settled
    call of [setID] keeps the identity, whenever [localStorage] can be
    used: it can only resolve to the identifier of the first call, leaves
    [localStorage] as it is and dispatches no [newspassid:change].  It
    sends nothing and stays pending while its consent promise is pending;
    once that has settled it has sent one event, for that identifier and
    without a previous identifier, and, when no segments of the publisher
    were passed, it resolves as soon as the request settles. *)
Theorem setID_again_keeps_identity env env' config id pubs pubs' s :
  NewsPassIDImpl.storage_available env = true ->
  NewsPassIDImpl.storage_available env' = true ->
  let first := NewsPassIDImpl.setID env config id pubs s in
  let second := NewsPassIDImpl.setID env' config None pubs' (snd first) in
  let useId :=
    NewsPassIDImpl.resolve_id env config id
      (NewsPassIDImpl.getStoredId env (Client.key_of config) s) in
  fst first <> GppApi.Pending ->
  (forall v, fst first = GppApi.Resolved v -> v = useId) /\
  (forall v, fst second = GppApi.Resolved v -> v = useId) /\
  NewsPassIDImpl.localStorage (snd second) = NewsPassIDImpl.localStorage (snd first) /\
  List.filter NewsPassIDImpl.is_change (NewsPassIDImpl.effects (snd second))
  = List.filter NewsPassIDImpl.is_change (NewsPassIDImpl.effects (snd first)) /\
  NewsPassIDImpl.requests (snd second)
  = NewsPassIDImpl.requests (snd first)
    ++ NewsPassIDImpl.sent env' config useId None pubs' /\
  (NewsPassIDImpl.settled_consent env' = None -> fst second = GppApi.Pending) /\
  (forall c,
     NewsPassIDImpl.settled_consent env' = Some c ->
     pubs' = None ->
     NewsPassIDImpl.answer env' (Client.lambdaEndpoint config)
       (NewsPassIDImpl.payload_of env' useId c None None) <> GppApi.Pending ->
     fst second = GppApi.Resolved useId).
Proof.
  intros Hav Hav'. cbv zeta. intros _.
  pose proof (impl_stored_after_setID env env' config id pubs s Hav Hav') as Hstored.
  destruct (setID_storage env config id pubs s) as (_ & Hfirst). cbv zeta in Hfirst.
  set (useId := NewsPassIDImpl.resolve_id env config id
                  (NewsPassIDImpl.getStoredId env (Client.key_of config) s)) in *.
  set (s1 := snd (NewsPassIDImpl.setID env config id pubs s)) in *.
  assert (Htruthy : Client.truthy_string (Some useId) = true)
    by apply impl_resolve_id_truthy.
  assert (Hsame : Some (NewsPassIDImpl.resolve_id env' config None
                          (NewsPassIDImpl.getStoredId env' (Client.key_of config) s1))
                  = NewsPassIDImpl.getStoredId env' (Client.key_of config) s1).
  { rewrite Hstored. by rewrite (impl_resolve_stored _ _ _ Htruthy). }
  destruct (setID_storage env' config None pubs' s1) as (Hls & Hid).
  destruct (setID_requests env' config None pubs' s1 (or_introl Hsame))
    as (Hrq & Hchange & Hpending & Hsettled).
  cbv zeta in Hls, Hid, Hrq, Hchange, Hpending, Hsettled.
  rewrite Hstored in Hls, Hid, Hrq, Hchange, Hsettled.
  rewrite (impl_resolve_stored _ _ _ Htruthy) in Hls, Hid, Hrq, Hchange, Hsettled.
  rewrite bool_decide_eq_true_2 in Hls, Hchange by reflexivity.
  rewrite app_nil_r in Hchange.
  split; [exact Hfirst|]. split; [exact Hid|]. split; [exact Hls|].
  split; [exact Hchange|]. split; [exact Hrq|]. split; [exact Hpending|].
  intros c Hc -> Hreply. destruct (Hsettled c Hc) as (_ & Hresolved).
  by apply Hresolved.
Qed.

Lemma setID_again_keeps_identity_witness :
  let first :=
    NewsPassIDImpl.setID Pages.failing_head Scenarios.config (Some "publisher-2")
      (Some ["segment1"]) Pages.returning_visitor in
  let second := NewsPassIDImpl.setID Pages.silent_cmp Scenarios.config None None (snd first) in
  (forall v, fst first = GppApi.Resolved v -> v = "publisher-2") /\
  (forall v, fst second = GppApi.Resolved v -> v = "publisher-2") /\
  NewsPassIDImpl.localStorage (snd second) = NewsPassIDImpl.localStorage (snd first) /\
  List.filter NewsPassIDImpl.is_change (NewsPassIDImpl.effects (snd second))
  = List.filter NewsPassIDImpl.is_change (NewsPassIDImpl.effects (snd first)) /\
  NewsPassIDImpl.requests (snd second)
  = NewsPassIDImpl.requests (snd first)
    ++ NewsPassIDImpl.sent Pages.silent_cmp Scenarios.config "publisher-2" None None /\
  (NewsPassIDImpl.settled_consent Pages.silent_cmp = None -> fst second = GppApi.Pending) /\
  (forall c,
     NewsPassIDImpl.settled_consent Pages.silent_cmp = Some c ->
     @None (list string) = None ->
     NewsPassIDImpl.answer Pages.silent_cmp (Client.lambdaEndpoint Scenarios.config)
       (NewsPassIDImpl.payload_of Pages.silent_cmp "publisher-2" c None None)
     <> GppApi.Pending ->
     fst second = GppApi.Resolved "publisher-2").
Proof.
  apply (setID_again_keeps_identity Pages.failing_head Pages.silent_cmp Scenarios.config
           (Some "publisher-2") (Some ["segment1"]) None Pages.returning_visitor).
  - reflexivity.
  - reflexivity.
  - vm_compute. discriminate.
Defined.

Lemma clearID_forgets env env' config s :
  NewsPassIDImpl.storage_available env = true ->
  NewsPassIDImpl.storage_available env' = true ->
  let cleared := NewsPassIDImpl.clearID env config s in
  NewsPassIDImpl.getStoredId env' (Client.key_of config) cleared = None /\
  NewsPassIDImpl.segments cleared = JArr [] /\
  NewsPassIDImpl.requests cleared = NewsPassIDImpl.requests s /\
  NewsPassIDImpl.count NewsPassIDImpl.is_event cleared
  = NewsPassIDImpl.count NewsPassIDImpl.is_event s /\
  List.filter NewsPassIDImpl.is_change (NewsPassIDImpl.effects cleared)
  = List.filter NewsPassIDImpl.is_change (NewsPassIDImpl.effects s).
Proof.
  intros Hav Hav'. cbv zeta.
  unfold NewsPassIDImpl.clearID, NewsPassIDImpl.getStoredId, NewsPassIDImpl.count.
  rewrite Hav, Hav'.
  cbn [NewsPassIDImpl.emit NewsPassIDImpl.localStorage NewsPassIDImpl.segments
       NewsPassIDImpl.requests NewsPassIDImpl.effects].
  split; [apply lookup_delete_eq|]. split; [reflexivity|]. split; [reflexivity|].
  rewrite !List.filter_app. cbn [List.filter NewsPassIDImpl.is_event
                                   NewsPassIDImpl.is_change].
  by rewrite !app_nil_r.
Qed.

(** X18: after [clearID] the client has forgotten the visitor, whenever
    [localStorage] can be used: [getID] returns [null], there is no active
    segment, and the next [setID] without an identifier generates a new
    identifier, stores it and announces it.  Unless that announcement
    throws, which rejects the promise before anything is sent, it has sent,
    once its consent promise has settled, one event without a previous
    identifier: the backend is not told which identifier the new one
    succeeds. *)
Theorem clearID_starts_over env env' config pubs s :
  NewsPassIDImpl.storage_available env = true ->
  NewsPassIDImpl.storage_available env' = true ->
  let cleared := NewsPassIDImpl.clearID env config s in
  let next := NewsPassIDImpl.setID env' config None pubs cleared in
  let fresh := NewsPassIDImpl.generateId env' (Client.namespace config) in
  NewsPassIDImpl.getID env' config cleared = None /\
  NewsPassIDImpl.getSegments cleared = Returned [] /\
  (forall v, fst next = GppApi.Resolved v -> v = fresh) /\
  NewsPassIDImpl.getID env' config (snd next) = Some fresh /\
  match NewsPassIDImpl.dispatch_fault env'
          (NewsPassIDImpl.count NewsPassIDImpl.is_event s) with
  | None =>
      NewsPassIDImpl.requests (snd next)
      = NewsPassIDImpl.requests s ++ NewsPassIDImpl.sent env' config fresh None pubs /\
      List.filter NewsPassIDImpl.is_change (NewsPassIDImpl.effects (snd next))
      = List.filter NewsPassIDImpl.is_change (NewsPassIDImpl.effects s)
        ++ [NewsPassIDImpl.ChangeEvent fresh true] /\
      (NewsPassIDImpl.settled_consent env' = None -> fst next = GppApi.Pending)
  | Some e =>
      fst next = GppApi.Rejected e /\
      NewsPassIDImpl.requests (snd next) = NewsPassIDImpl.requests s
  end.
Proof.
  intros Hav Hav'. cbv zeta.
  destruct (clearID_forgets env env' config s Hav Hav')
    as (Hstored & Hsg & Hrq & Hcount & Hchange).
  cbv zeta in Hstored, Hsg, Hrq, Hcount, Hchange.
  set (cleared := NewsPassIDImpl.clearID env config s) in *.
  set (fresh := NewsPassIDImpl.generateId env' (Client.namespace config)).
  assert (Hfresh : NewsPassIDImpl.resolve_id env' config None
                     (NewsPassIDImpl.getStoredId env' (Client.key_of config) cleared)
                   = fresh).
  { by rewrite Hstored. }
  split; [exact Hstored|].
  split; [unfold NewsPassIDImpl.getSegments; by rewrite Hsg|].
  destruct (setID_storage env' config None pubs cleared) as (_ & Hid).
  cbv zeta in Hid. rewrite Hfresh in Hid. split; [exact Hid|].
  split.
  { unfold NewsPassIDImpl.getID.
    rewrite (impl_stored_after_setID env' env' config None pubs cleared Hav' Hav').
    by rewrite Hfresh. }
  destruct (NewsPassIDImpl.dispatch_fault env'
              (NewsPassIDImpl.count NewsPassIDImpl.is_event s)) as [e|] eqn:Hfault.
  - rewrite <- Hcount in Hfault.
    assert (Hdiff : Some (NewsPassIDImpl.resolve_id env' config None
                            (NewsPassIDImpl.getStoredId env' (Client.key_of config)
                               cleared))
                    <> NewsPassIDImpl.getStoredId env' (Client.key_of config) cleared).
    { rewrite Hstored. discriminate. }
    rewrite (setID_unannounced env' config None pubs cleared e Hdiff Hfault).
    cbn [fst snd NewsPassIDImpl.emit NewsPassIDImpl.requests].
    split; [reflexivity|].
    unfold NewsPassIDImpl.storeId. rewrite Hav'. exact Hrq.
  - rewrite <- Hcount in Hfault.
    destruct (setID_requests env' config None pubs cleared (or_intror Hfault))
      as (Nrq & Nchange & Npending & _).
    cbv zeta in Nrq, Nchange, Npending.
    rewrite Hfresh, Hstored in Nrq, Nchange.
    rewrite bool_decide_eq_false_2 in Nchange by discriminate.
    rewrite Hrq in Nrq. rewrite Hchange in Nchange.
    split; [exact Nrq|]. split; [exact Nchange | exact Npending].
Qed.

Lemma clearID_starts_over_witness :
  let cleared :=
    NewsPassIDImpl.clearID Pages.plain Scenarios.config Pages.returning_visitor in
  let next := NewsPassIDImpl.setID Pages.plain Scenarios.config None None cleared in
  let fresh := Scenarios.generated_id in
  NewsPassIDImpl.getID Pages.plain Scenarios.config cleared = None /\
  NewsPassIDImpl.getSegments cleared = Returned [] /\
  (forall v, fst next = GppApi.Resolved v -> v = fresh) /\
  NewsPassIDImpl.getID Pages.plain Scenarios.config (snd next) = Some fresh /\
  NewsPassIDImpl.requests (snd next)
  = NewsPassIDImpl.requests Pages.returning_visitor
    ++ NewsPassIDImpl.sent Pages.plain Scenarios.config fresh None None /\
  List.filter NewsPassIDImpl.is_change (NewsPassIDImpl.effects (snd next))
  = List.filter NewsPassIDImpl.is_change (NewsPassIDImpl.effects Pages.returning_visitor)
    ++ [NewsPassIDImpl.ChangeEvent fresh true] /\
  (NewsPassIDImpl.settled_consent Pages.plain = None -> fst next = GppApi.Pending).
Proof.
  apply (clearID_starts_over Pages.plain Pages.plain Scenarios.config None
           Pages.returning_visitor); reflexivity.
Defined.

(** X19: when [localStorage] cannot be used, [setID] stores nothing and
    knows no stored identifier: it can only resolve to the supplied
    identifier or to a newly generated one, announces a change of
    identifier at every call, and never reports a previous identifier.
    When the announcement throws, the promise is rejected and nothing is
    sent; otherwise one event is sent once the consent promise has
    settled, and none while it is pending. *)
Theorem setID_without_storage env config id pubs s :
  NewsPassIDImpl.storage_available env = false ->
  let r := NewsPassIDImpl.setID env config id pubs s in
  let useId :=
    if Client.truthy_string id then default EmptyString id
    else NewsPassIDImpl.generateId env (Client.namespace config) in
  (forall v, fst r = GppApi.Resolved v -> v = useId) /\
  NewsPassIDImpl.localStorage (snd r) = NewsPassIDImpl.localStorage s /\
  match NewsPassIDImpl.dispatch_fault env
          (NewsPassIDImpl.count NewsPassIDImpl.is_event s) with
  | None =>
      NewsPassIDImpl.requests (snd r)
      = NewsPassIDImpl.requests s ++ NewsPassIDImpl.sent env config useId None pubs /\
      List.filter NewsPassIDImpl.is_change (NewsPassIDImpl.effects (snd r))
      = List.filter NewsPassIDImpl.is_change (NewsPassIDImpl.effects s)
        ++ [NewsPassIDImpl.ChangeEvent useId true] /\
      (NewsPassIDImpl.settled_consent env = None -> fst r = GppApi.Pending)
  | Some e =>
      fst r = GppApi.Rejected e /\
      NewsPassIDImpl.requests (snd r) = NewsPassIDImpl.requests s /\
      List.filter NewsPassIDImpl.is_change (NewsPassIDImpl.effects (snd r))
      = List.filter NewsPassIDImpl.is_change (NewsPassIDImpl.effects s)
        ++ [NewsPassIDImpl.ChangeEvent useId false]
  end.
Proof.
  intros Hav. cbv zeta.
  assert (Hstored : NewsPassIDImpl.getStoredId env (Client.key_of config) s = None).
  { unfold NewsPassIDImpl.getStoredId. by rewrite Hav. }
  assert (Huse : NewsPassIDImpl.resolve_id env config id None
                 = (if Client.truthy_string id then default EmptyString id
                    else NewsPassIDImpl.generateId env (Client.namespace config))).
  { unfold NewsPassIDImpl.resolve_id. by destruct (Client.truthy_string id). }
  assert (Hprev : Client.previous_of id None = None).
  { unfold Client.previous_of. cbn [Client.truthy_string]. by rewrite andb_false_r. }
  destruct (setID_storage env config id pubs s) as (Hls & Hid).
  cbv zeta in Hls, Hid. rewrite Hstored, Huse in Hls, Hid.
  rewrite bool_decide_eq_false_2, Hav in Hls by discriminate.
  split; [exact Hid|]. split; [exact Hls|].
  destruct (NewsPassIDImpl.dispatch_fault env
              (NewsPassIDImpl.count NewsPassIDImpl.is_event s)) as [e|] eqn:Hfault.
  - assert (Hdiff : Some (NewsPassIDImpl.resolve_id env config id
                            (NewsPassIDImpl.getStoredId env (Client.key_of config) s))
                    <> NewsPassIDImpl.getStoredId env (Client.key_of config) s).
    { rewrite Hstored. discriminate. }
    rewrite (setID_unannounced env config id pubs s e Hdiff Hfault).
    rewrite Hstored, Huse.
    cbn [fst snd NewsPassIDImpl.emit NewsPassIDImpl.requests NewsPassIDImpl.effects].
    unfold NewsPassIDImpl.storeId. rewrite Hav.
    split; [reflexivity|]. split; [reflexivity|].
    by rewrite List.filter_app.
  - destruct (setID_requests env config id pubs s (or_intror Hfault))
      as (Nrq & Nchange & Npending & _).
    cbv zeta in Nrq, Nchange, Npending.
    rewrite Hstored, Huse, Hprev in Nrq. rewrite Hstored, Huse in Nchange.
    rewrite bool_decide_eq_false_2 in Nchange by discriminate.
    split; [exact Nrq|]. split; [exact Nchange | exact Npending].
Qed.

Lemma setID_without_storage_witness :
  let r :=
    NewsPassIDImpl.setID Pages.private Scenarios.config None None
      Pages.returning_visitor in
  let useId := Scenarios.generated_id in
  (forall v, fst r = GppApi.Resolved v -> v = useId) /\
  NewsPassIDImpl.localStorage (snd r) = NewsPassIDImpl.localStorage Pages.returning_visitor /\
  NewsPassIDImpl.requests (snd r)
  = NewsPassIDImpl.requests Pages.returning_visitor
    ++ NewsPassIDImpl.sent Pages.private Scenarios.config useId None None /\
  List.filter NewsPassIDImpl.is_change (NewsPassIDImpl.effects (snd r))
  = List.filter NewsPassIDImpl.is_change (NewsPassIDImpl.effects Pages.returning_visitor)
    ++ [NewsPassIDImpl.ChangeEvent useId true] /\
  (NewsPassIDImpl.settled_consent Pages.private = None -> fst r = GppApi.Pending).
Proof.
  apply (setID_without_storage Pages.private Scenarios.config None None
           Pages.returning_visitor). reflexivity.
Defined.

(** The active segments after [setID], by the answer to its request. *)
Lemma segments_of_later env config id pubs s c :
  NewsPassIDImpl.announces env config id s ->
  NewsPassIDImpl.settled_consent env = Some c ->
  let r := NewsPassIDImpl.setID env config id pubs s in
  let storedId := NewsPassIDImpl.getStoredId env (Client.key_of config) s in
  let useId := NewsPassIDImpl.resolve_id env config id storedId in
  let payload :=
    NewsPassIDImpl.payload_of env useId c (Client.previous_of id storedId) pubs in
  let ready :=
    List.filter NewsPassIDImpl.is_ready (NewsPassIDImpl.done_since s (snd r)) in
  match NewsPassIDImpl.answer env (Client.lambdaEndpoint config) payload with
  | GppApi.Pending =>
      fst r = GppApi.Pending /\ ready = [] /\
      NewsPassIDImpl.segments (snd r) = NewsPassIDImpl.segments s
  | GppApi.Rejected _ =>
      ready = [] /\
      NewsPassIDImpl.segments (snd r)
      = match pubs with
        | Some declared => NewsPassIDImpl.declared_segments declared
        | None => NewsPassIDImpl.segments s
        end
  | GppApi.Resolved response =>
      let chosen := NewsPassIDImpl.adopted pubs response (NewsPassIDImpl.segments s) in
      (ready = [NewsPassIDImpl.ReadyEvent chosen
                  (Some (NewsPassIDImpl.segmentKeyValue (snd r))) true] /\
       NewsPassIDImpl.segments (snd r) = chosen /\
       fst r = GppApi.Resolved useId
       \/
       ready = [] /\
       NewsPassIDImpl.segments (snd r)
       = match pubs with
         | Some declared => NewsPassIDImpl.declared_segments declared
         | None => chosen
         end) /\
      (NewsPassIDImpl.page_sound env ->
       (exists tags, NewsPassIDImpl.convertSegmentsToKeyValue chosen = Returned tags) ->
       ready <> [])
  end.
Proof.
  intros Hannounce Hconsent. cbv zeta.
  destruct (setID_announced env config id pubs s Hannounce)
    as (s1 & _ & _ & Hsg & Hef & Hrun).
  set (storedId := NewsPassIDImpl.getStoredId env (Client.key_of config) s) in *.
  set (useId := NewsPassIDImpl.resolve_id env config id storedId) in *.
  rewrite Hconsent in Hrun. rewrite Hrun.
  destruct (request_run env config pubs useId (Client.previous_of id storedId) c s1)
    as (_ & _ & _ & Rpend & _ & added & Ref & _ & Rcases).
  cbv zeta in Rpend, Ref, Rcases.
  set (r := NewsPassIDImpl.request env config pubs useId
              (Client.previous_of id storedId) c s1) in *.
  assert (Hready : List.filter NewsPassIDImpl.is_ready (NewsPassIDImpl.done_since s (snd r))
                   = List.filter NewsPassIDImpl.is_ready added).
  { rewrite (done_since_added s (snd r)
               ((if bool_decide (Some useId = storedId) then []
                 else [NewsPassIDImpl.ChangeEvent useId true]) ++ added)).
    - rewrite List.filter_app. by destruct (bool_decide _).
    - by rewrite Ref, Hef, <- app_assoc. }
  rewrite Hready. rewrite <- Hsg.
  destruct (NewsPassIDImpl.answer env (Client.lambdaEndpoint config) _)
    as [response|e|].
  - exact Rcases.
  - exact Rcases.
  - destruct Rcases as (Rready & Rsg). split; [by apply Rpend|]. by split.
Qed.

(** X20: the segments that are active after a call of [setID] whose
    consent promise has settled and whose change of identifier, if any, was
    announced without an exception.  While the request is pending they are
    the segments that were active before.  When the request fails they
    are the segments of the publisher when these were passed, else those
    that were active before, and [newspass_segments_ready] is not
    dispatched.  When the request is answered, the try block chooses the
    segments of the answer when it has some, else those of the publisher
    when they were passed, else those that were active before: either the
    block completes, these are the active segments, the event
    [newspass_segments_ready] is dispatched once, with them, and [setID]
    resolves; or a statement of the block throws, no such event is
    dispatched, and the active segments are those of the publisher when
    they were passed, else the chosen ones.  The block completes when no
    call on the page throws and the chosen segments are an array of
    texts. *)
Theorem segments_after_setID env config id pubs s c :
  NewsPassIDImpl.announces env config id s ->
  NewsPassIDImpl.settled_consent env = Some c ->
  let r := NewsPassIDImpl.setID env config id pubs s in
  let storedId := NewsPassIDImpl.getStoredId env (Client.key_of config) s in
  let useId := NewsPassIDImpl.resolve_id env config id storedId in
  let payload :=
    NewsPassIDImpl.payload_of env useId c (Client.previous_of id storedId) pubs in
  let ready :=
    List.filter NewsPassIDImpl.is_ready (NewsPassIDImpl.done_since s (snd r)) in
  match NewsPassIDImpl.answer env (Client.lambdaEndpoint config) payload with
  | GppApi.Pending =>
      fst r = GppApi.Pending /\ ready = [] /\
      NewsPassIDImpl.segments (snd r) = NewsPassIDImpl.segments s
  | GppApi.Rejected _ =>
      ready = [] /\
      NewsPassIDImpl.segments (snd r)
      = match pubs with
        | Some declared => NewsPassIDImpl.declared_segments declared
        | None => NewsPassIDImpl.segments s
        end
  | GppApi.Resolved response =>
      let chosen := NewsPassIDImpl.adopted pubs response (NewsPassIDImpl.segments s) in
      (ready = [NewsPassIDImpl.ReadyEvent chosen
                  (Some (NewsPassIDImpl.segmentKeyValue (snd r))) true] /\
       NewsPassIDImpl.segments (snd r) = chosen /\
       fst r = GppApi.Resolved useId
       \/
       ready = [] /\
       NewsPassIDImpl.segments (snd r)
       = match pubs with
         | Some declared => NewsPassIDImpl.declared_segments declared
         | None => chosen
         end) /\
      (NewsPassIDImpl.page_sound env ->
       (exists tags, NewsPassIDImpl.convertSegmentsToKeyValue chosen = Returned tags) ->
       ready <> [])
  end.
Proof.
  intros Hannounce Hconsent.
  exact (segments_of_later env config id pubs s c Hannounce Hconsent).
Qed.

Lemma segments_after_setID_witness :
  let r :=
    NewsPassIDImpl.setID Pages.failing_head Scenarios.config (Some "test-id")
      (Some ["segment1"]) (NewsPassIDImpl.created ∅) in
  let ready :=
    List.filter NewsPassIDImpl.is_ready
      (NewsPassIDImpl.done_since (NewsPassIDImpl.created ∅) (snd r)) in
  let chosen := JArr [JStr "segment1"] in
  (ready = [NewsPassIDImpl.ReadyEvent chosen
              (Some (NewsPassIDImpl.segmentKeyValue (snd r))) true] /\
   NewsPassIDImpl.segments (snd r) = chosen /\
   fst r = GppApi.Resolved "test-id"
   \/
   ready = [] /\
   NewsPassIDImpl.segments (snd r) = NewsPassIDImpl.declared_segments ["segment1"]) /\
  (NewsPassIDImpl.page_sound Pages.failing_head ->
   (exists tags, NewsPassIDImpl.convertSegmentsToKeyValue chosen = Returned tags) ->
   ready <> []).
Proof.
  apply (segments_after_setID Pages.failing_head Scenarios.config (Some "test-id")
           (Some ["segment1"]) (NewsPassIDImpl.created ∅) (Some "mock-consent-string")).
  - right. reflexivity.
  - reflexivity.
Defined.

(** The test of the errors of the meta tags: the first call of
    [document.createElement] throws in the try block, the catch clause
    applies the segments of the publisher again, [setID] resolves, and
    [newspass_segments_ready] is not dispatched although the request was
    answered. *)
Example meta_tag_error_is_survived :
  let r :=
    NewsPassIDImpl.setID Pages.failing_head Scenarios.config (Some "test-id")
      (Some ["segment1"]) (NewsPassIDImpl.created ∅) in
  fst r = GppApi.Resolved "test-id" /\
  NewsPassIDImpl.getSegments (snd r) = Returned [JStr "segment1"] /\
  List.filter NewsPassIDImpl.is_ready (NewsPassIDImpl.effects (snd r)) = [] /\
  List.map NewsPassIDImpl.is_applied (NewsPassIDImpl.effects (snd r))
  = [false; true; false; true; false].
Proof. cbv zeta. repeat split; vm_compute; reflexivity. Qed.

(** An answer whose segments hold [null]: [convertSegmentsToKeyValue]
    throws in the try block; with segments of the publisher these become
    the active ones, without them the segments of the answer stay, and in
    both cases nothing is announced. *)
Example segment_that_is_no_text :
  let with_publisher :=
    NewsPassIDImpl.setID Pages.null_segment Scenarios.config (Some "test-id")
      (Some ["a"]) (NewsPassIDImpl.created ∅) in
  let without :=
    NewsPassIDImpl.setID Pages.null_segment Scenarios.config (Some "test-id")
      None (NewsPassIDImpl.created ∅) in
  fst with_publisher = GppApi.Resolved "test-id" /\
  NewsPassIDImpl.segments (snd with_publisher) = JArr [JStr "a"] /\
  List.filter NewsPassIDImpl.is_ready (NewsPassIDImpl.effects (snd with_publisher)) = [] /\
  fst without = GppApi.Resolved "test-id" /\
  NewsPassIDImpl.segments (snd without) = JArr [JNull] /\
  List.filter NewsPassIDImpl.is_ready (NewsPassIDImpl.effects (snd without)) = [].
Proof. cbv zeta. repeat split; vm_compute; reflexivity. Qed.

(** X23: the two revisions of [setID] agree while the consent promise
    resolves and the later revision announces its change of identifier
    without an exception: they leave the same [localStorage], send the
    same event, are pending together, and can only resolve to the same
    identifier, the earlier revision always doing so once the request has
    settled.  When the answer of the backend has segments, these are the
    active segments of the earlier revision, and of the later one when its
    try block completes or no segments of the publisher were passed. *)
Theorem setID_revisions_agree env config id pubs s c :
  NewsPassIDImpl.consent env = GppApi.Resolved c ->
  NewsPassIDImpl.announces env config id s ->
  let earlier := NewsPassIDImpl.setID_earlier env config id pubs s in
  let later := NewsPassIDImpl.setID env config id pubs s in
  let storedId := NewsPassIDImpl.getStoredId env (Client.key_of config) s in
  let useId := NewsPassIDImpl.resolve_id env config id storedId in
  let reply :=
    NewsPassIDImpl.answer env (Client.lambdaEndpoint config)
      (NewsPassIDImpl.payload_of env useId c (Client.previous_of id storedId) pubs) in
  NewsPassIDImpl.localStorage (snd earlier) = NewsPassIDImpl.localStorage (snd later) /\
  NewsPassIDImpl.requests (snd earlier) = NewsPassIDImpl.requests (snd later) /\
  (fst earlier = GppApi.Pending <-> fst later = GppApi.Pending) /\
  (reply <> GppApi.Pending -> fst earlier = GppApi.Resolved useId) /\
  (forall v, fst later = GppApi.Resolved v -> v = useId) /\
  (forall response segs,
     reply = GppApi.Resolved response ->
     NewsPassIDImpl.response_segments response = Some segs ->
     truthy (Some segs) = true ->
     NewsPassIDImpl.segments (snd earlier) = segs /\
     (pubs = None \/
      List.filter NewsPassIDImpl.is_ready (NewsPassIDImpl.done_since s (snd later)) <> [] ->
      NewsPassIDImpl.segments (snd later) = segs)).
Proof.
  intros Hconsent Hannounce. cbv zeta.
  assert (Hsettled : NewsPassIDImpl.settled_consent env = Some c).
  { unfold NewsPassIDImpl.settled_consent. by rewrite Hconsent. }
  pose proof (segments_of_later env config id pubs s c Hannounce Hsettled) as Hlater.
  cbv zeta in Hlater.
  destruct (setID_storage env config id pubs s) as (Lls & Lid).
  destruct (setID_requests env config id pubs s Hannounce) as (Lrq & _ & _ & Lsettled).
  cbv zeta in Lls, Lid, Lrq, Lsettled.
  destruct (Lsettled c Hsettled) as (Lpend & _). clear Lsettled.
  unfold NewsPassIDImpl.sent in Lrq. rewrite Hsettled in Lrq.
  rewrite Lls, Lrq. clear Lls Lrq.
  unfold NewsPassIDImpl.setID_earlier. rewrite Hconsent.
  set (storedId := NewsPassIDImpl.getStoredId env (Client.key_of config) s) in *.
  set (useId := NewsPassIDImpl.resolve_id env config id storedId) in *.
  set (payload := NewsPassIDImpl.payload_of env useId c
                    (Client.previous_of id storedId) pubs) in *.
  set (s1 := if bool_decide (Some useId = storedId) then s
             else NewsPassIDImpl.storeId env (Client.key_of config) useId s).
  assert (Hs1 :
            NewsPassIDImpl.localStorage s1
            = (if bool_decide (Some useId = storedId) then NewsPassIDImpl.localStorage s
               else if NewsPassIDImpl.storage_available env
                    then <[Client.key_of config := useId]> (NewsPassIDImpl.localStorage s)
                    else NewsPassIDImpl.localStorage s) /\
            NewsPassIDImpl.requests s1 = NewsPassIDImpl.requests s).
  { unfold s1, NewsPassIDImpl.storeId.
    destruct (bool_decide (Some useId = storedId)); [done|].
    by destruct (NewsPassIDImpl.storage_available env). }
  destruct Hs1 as (Hls & Hrq). rewrite <- Hls, <- Hrq. clearbody s1.
  set (later := NewsPassIDImpl.setID env config id pubs s) in *. clearbody later.
  destruct (NewsPassIDImpl.answer env (Client.lambdaEndpoint config) payload)
    as [response|e|].
  - unfold NewsPassIDImpl.adopted in Hlater.
    destruct (truthy (Some response) && truthy (NewsPassIDImpl.response_segments response))
      eqn:Hhas.
    + unfold NewsPassIDImpl.applySegmentsToPage, NewsPassIDImpl.dispatchEvent.
      destruct (NewsPassIDImpl.apply_fault env _);
        [|destruct (NewsPassIDImpl.dispatch_fault env _)].
      all: cbn [fst snd NewsPassIDImpl.emit NewsPassIDImpl.send NewsPassIDImpl.set_consent
                NewsPassIDImpl.set_segments NewsPassIDImpl.localStorage
                NewsPassIDImpl.requests NewsPassIDImpl.segments].
      all: split; [reflexivity|]; split; [reflexivity|].
      all: split; [split; [discriminate | intros H; apply Lpend in H; discriminate]|].
      all: split; [reflexivity|]; split; [exact Lid|].
      all: intros response' segs [= <-] Hsegs _; rewrite Hsegs in Hlater |- *.
      all: cbn [default] in Hlater |- *; split; [reflexivity|].
      all: destruct Hlater as ([(_ & Hsg & _)|(Hnone & Hsg)] & _); [by intros _|].
      all: intros [->|Hready]; [exact Hsg | contradiction].
    + cbn [fst snd NewsPassIDImpl.send NewsPassIDImpl.set_consent
           NewsPassIDImpl.localStorage NewsPassIDImpl.requests NewsPassIDImpl.segments].
      split; [reflexivity|]. split; [reflexivity|].
      split; [split; [discriminate | intros H; apply Lpend in H; discriminate]|].
      split; [reflexivity|]. split; [exact Lid|].
      intros response' segs [= <-] Hsegs Htruthy. rewrite Hsegs, Htruthy in Hhas.
      destruct response; discriminate.
  - cbn [fst snd NewsPassIDImpl.send NewsPassIDImpl.set_consent
         NewsPassIDImpl.localStorage NewsPassIDImpl.requests].
    split; [reflexivity|]. split; [reflexivity|].
    split; [split; [discriminate | intros H; apply Lpend in H; discriminate]|].
    split; [reflexivity|]. split; [exact Lid|]. intros response segs [=].
  - cbn [fst snd NewsPassIDImpl.send NewsPassIDImpl.set_consent
         NewsPassIDImpl.localStorage NewsPassIDImpl.requests].
    split; [reflexivity|]. split; [reflexivity|].
    split; [split; [intros _; by apply Lpend | reflexivity]|].
    split; [done|]. split; [exact Lid|]. intros response segs [=].
Qed.

Lemma setID_revisions_agree_witness :
  let earlier :=
    NewsPassIDImpl.setID_earlier Pages.plain Scenarios.config (Some "publisher-2") None
      Pages.returning_visitor in
  let later :=
    NewsPassIDImpl.setID Pages.plain Scenarios.config (Some "publisher-2") None
      Pages.returning_visitor in
  let reply :=
    NewsPassIDImpl.answer Pages.plain (Client.lambdaEndpoint Scenarios.config)
      (NewsPassIDImpl.payload_of Pages.plain "publisher-2" (Some "consent123")
         (Some "publisher-1") None) in
  NewsPassIDImpl.localStorage (snd earlier) = NewsPassIDImpl.localStorage (snd later) /\
  NewsPassIDImpl.requests (snd earlier) = NewsPassIDImpl.requests (snd later) /\
  (fst earlier = GppApi.Pending <-> fst later = GppApi.Pending) /\
  (reply <> GppApi.Pending -> fst earlier = GppApi.Resolved "publisher-2") /\
  (forall v, fst later = GppApi.Resolved v -> v = "publisher-2") /\
  (forall response segs,
     reply = GppApi.Resolved response ->
     NewsPassIDImpl.response_segments response = Some segs ->
     truthy (Some segs) = true ->
     NewsPassIDImpl.segments (snd earlier) = segs /\
     (@None (list string) = None \/
      List.filter NewsPassIDImpl.is_ready
        (NewsPassIDImpl.done_since Pages.returning_visitor (snd later)) <> [] ->
      NewsPassIDImpl.segments (snd later) = segs)).
Proof.
  apply (setID_revisions_agree Pages.plain Scenarios.config (Some "publisher-2") None
           Pages.returning_visitor (Some "consent123")).
  - reflexivity.
  - right. reflexivity.
Defined.

(** ** The consent string *)

Lemma cookie_value_stops value rest :
  GppApi.without ";" value = true ->
  rest = EmptyString \/ (exists rest', rest = String ";" rest') ->
  GppApi.cookie_value (value +:+ rest) = value.
Proof.
  unfold GppApi.without. intros Hvalue Hrest.
  induction value as [|c value IH].
  - destruct Hrest as [->|[rest' ->]]; reflexivity.
  - cbn [all_chars] in Hvalue. apply andb_true_iff in Hvalue as [Hc Hvalue].
    apply negb_true_iff in Hc.
    change (String c value +:+ rest) with (String c (value +:+ rest)).
    cbn [GppApi.cookie_value]. rewrite Hc. by rewrite (IH Hvalue).
Qed.


(** A name followed by an equals sign starts the text of a cookie only if
    it is the name of that cookie. *)
Lemma strip_name name key rest tail :
  GppApi.without "=" name = true ->
  GppApi.without "=" key = true ->
  strip_prefix (name +:+ "=") (key +:+ "=" +:+ rest) = Some tail ->
  name = key /\ tail = rest.
Proof.
  unfold GppApi.without. revert key.
  induction name as [|c name IH]; intros key Hname Hkey.
  - destruct key as [|d key].
    + cbn. intros [= <-]. by split.
    + change (strip_prefix ("" +:+ "=") (String d key +:+ "=" +:+ rest))
        with (if bool_decide ("="%char = d) then Some (key +:+ "=" +:+ rest) else None).
      cbn [all_chars] in Hkey. apply andb_true_iff in Hkey as [Hd _].
      apply negb_true_iff, bool_decide_eq_false in Hd.
      rewrite bool_decide_eq_false_2 by congruence. discriminate.
  - cbn [all_chars] in Hname. apply andb_true_iff in Hname as [Hc Hname].
    apply negb_true_iff, bool_decide_eq_false in Hc.
    destruct key as [|d key].
    + change (strip_prefix (String c name +:+ "=") ("" +:+ "=" +:+ rest))
        with (if bool_decide (c = "="%char) then strip_prefix (name +:+ "=") rest
              else None).
      rewrite bool_decide_eq_false_2 by exact Hc. discriminate.
    + change (strip_prefix (String c name +:+ "=") (String d key +:+ "=" +:+ rest))
        with (if bool_decide (c = d) then strip_prefix (name +:+ "=") (key +:+ "=" +:+ rest)
              else None).
      cbn [all_chars] in Hkey. apply andb_true_iff in Hkey as [_ Hkey].
      destruct (bool_decide (c = d)) eqn:Hcd; [|discriminate].
      apply bool_decide_eq_true in Hcd. subst d.
      intros H. destruct (IH key Hname Hkey H) as [-> ->]. by split.
Qed.

(** No match starts inside a text without a space; the search goes on in
    what follows it. *)
Lemma match_after_space_skips name s rest :
  GppApi.without " " s = true ->
  GppApi.match_after_space name (s +:+ rest) = GppApi.match_after_space name rest.
Proof.
  unfold GppApi.without. induction s as [|c s IH]; [reflexivity|].
  cbn [all_chars]. intros [Hc Hs]%andb_true_iff. apply negb_true_iff in Hc.
  change (String c s +:+ rest) with (String c (s +:+ rest)).
  cbn [GppApi.match_after_space]. rewrite Hc. by apply IH.
Qed.

Lemma append_empty_r (s : string) : s +:+ EmptyString = s.
Proof.
  induction s as [|c s IH]; [reflexivity|].
  change (String c s +:+ EmptyString) with (String c (s +:+ EmptyString)). by rewrite IH.
Qed.

Lemma append_assoc (a b c : string) : (a +:+ b) +:+ c = a +:+ b +:+ c.
Proof.
  induction a as [|x a IH]; [reflexivity|].
  change ((String x a +:+ b) +:+ c) with (String x ((a +:+ b) +:+ c)). by rewrite IH.
Qed.

(** On the text of listed cookies, [getCookie] finds the value of the first
    cookie of the name. *)
Lemma getCookie_listed name cookies :
  GppApi.without "=" name = true ->
  GppApi.listed cookies ->
  GppApi.getCookie name (GppApi.cookie_text cookies) = assoc name cookies.
Proof.
  intros Hname Hlisted. induction Hlisted as [|[key value] rest Hcookie Hrest IH].
  - unfold GppApi.getCookie, GppApi.match_here. by destruct name.
  - cbn [fst snd] in Hcookie.
    destruct Hcookie as (Hkey_space & Hkey_eq & Hvalue & Hvalue_space & Hvalue_semi).
    set (tail := match rest with
                 | [] => EmptyString
                 | _ :: _ => "; " +:+ GppApi.cookie_text rest
                 end).
    assert (Htext : GppApi.cookie_text ((key, value) :: rest)
                    = key +:+ "=" +:+ value +:+ tail).
    { unfold tail. cbn [GppApi.cookie_text]. destruct rest; [|reflexivity].
      by rewrite append_empty_r. }
    assert (Htail : tail = EmptyString \/ exists rest', tail = String ";" rest').
    { unfold tail. destruct rest; [by left | right; by eexists]. }
    assert (Hsearch : GppApi.match_after_space name (key +:+ "=" +:+ value +:+ tail)
                      = assoc name rest).
    { rewrite (match_after_space_skips _ _ _ Hkey_space).
      change ("=" +:+ value +:+ tail) with (String "=" (value +:+ tail)).
      cbn [GppApi.match_after_space].
      rewrite bool_decide_eq_false_2 by discriminate.
      rewrite (match_after_space_skips _ _ _ Hvalue_space).
      unfold tail. destruct rest as [|next rest']; [reflexivity|].
      change ("; " +:+ GppApi.cookie_text (next :: rest'))
        with (String ";" (String " " (GppApi.cookie_text (next :: rest')))).
      cbn [GppApi.match_after_space].
      rewrite bool_decide_eq_false_2 by discriminate.
      rewrite bool_decide_eq_true_2 by reflexivity.
      exact IH. }
    rewrite Htext. unfold GppApi.getCookie, GppApi.match_here. cbn [assoc].
    destruct (strip_prefix (name +:+ "=") (key +:+ "=" +:+ value +:+ tail))
      as [found|] eqn:Hstrip.
    + destruct (strip_name _ _ _ _ Hname Hkey_eq Hstrip) as [-> ->].
      rewrite (cookie_value_stops _ _ Hvalue_semi Htail).
      rewrite bool_decide_eq_true_2 by reflexivity.
      unfold string_truthy. by rewrite bool_decide_eq_false_2.
    + rewrite Hsearch. destruct (bool_decide (key = name)) eqn:Hsame; [|reflexivity].
      apply bool_decide_eq_true in Hsame. subst key.
      rewrite <- append_assoc, strip_prefix_app in Hstrip. discriminate.
Qed.

Lemma getCookie_truthy name cookie value :
  GppApi.getCookie name cookie = Some value -> string_truthy value = true.
Proof.
  assert (Hhere : forall s, GppApi.match_here name s = Some value ->
                            string_truthy value = true).
  { intros s. unfold GppApi.match_here.
    destruct (strip_prefix _ s) as [rest|]; [|discriminate].
    cbv zeta. destruct (string_truthy (GppApi.cookie_value rest)) eqn:Ht; [|discriminate].
    by intros [= <-]. }
  unfold GppApi.getCookie.
  destruct (GppApi.match_here name cookie) eqn:Hm.
  { intros [= ->]. eauto. }
  clear Hm. induction cookie as [|c cookie IH]; cbn [GppApi.match_after_space];
    [discriminate|].
  destruct (bool_decide (c = " "%char)); [|exact IH].
  destruct (GppApi.match_here name cookie) eqn:Hm; [|exact IH].
  intros [= ->]. eauto.
Qed.

(** X24: the consent string of the cookies.  On the text of the cookies as a
    browser lists them, [getGppConsentFromCookie] returns the value of the
    cookie [gpp]; without one, that of [usprivacy]; without one, that of
    [euconsent-v2]; and [undefined] when there is none of the three: the
    regular expression of [getCookie] finds the cookie of the very name,
    wherever it is in the list. *)
Theorem consent_from_listed_cookies cookies call :
  GppApi.listed cookies ->
  GppApi.getGppConsentFromCookie
    (GppApi.mkPage (Returned (GppApi.cookie_text cookies)) call)
  = match assoc "gpp" cookies with
    | Some value => Some value
    | None =>
        match assoc "usprivacy" cookies with
        | Some value => Some value
        | None => assoc "euconsent-v2" cookies
        end
    end.
Proof.
  intros Hlisted. unfold GppApi.getGppConsentFromCookie.
  cbn [GppApi.document_cookie]. cbv zeta.
  pose proof (getCookie_truthy "gpp" (GppApi.cookie_text cookies)) as Hgpp.
  pose proof (getCookie_truthy "usprivacy" (GppApi.cookie_text cookies)) as Husp.
  pose proof (getCookie_truthy "euconsent-v2" (GppApi.cookie_text cookies)) as Htcf.
  rewrite (getCookie_listed "gpp" _ eq_refl Hlisted) in *.
  rewrite (getCookie_listed "usprivacy" _ eq_refl Hlisted) in *.
  rewrite (getCookie_listed "euconsent-v2" _ eq_refl Hlisted) in *.
  destruct (assoc "gpp" cookies) as [g|]; cbn [Client.truthy_string negb].
  { by rewrite (Hgpp g eq_refl). }
  destruct (assoc "usprivacy" cookies) as [u|]; cbn [Client.truthy_string].
  { by rewrite (Husp u eq_refl). }
  destruct (assoc "euconsent-v2" cookies) as [t|]; cbn [Client.truthy_string];
    [|reflexivity].
  by rewrite (Htcf t eq_refl).
Qed.

Lemma consent_from_listed_cookies_witness :
  GppApi.getGppConsentFromCookie
    (GppApi.mkPage (Returned (GppApi.cookie_text Cases.cookies)) None)
  = match assoc "gpp" Cases.cookies with
    | Some value => Some value
    | None =>
        match assoc "usprivacy" Cases.cookies with
        | Some value => Some value
        | None => assoc "euconsent-v2" Cases.cookies
        end
    end.
Proof.
  apply (consent_from_listed_cookies Cases.cookies None).
  repeat constructor; discriminate.
Defined.

Lemma consent_from_cookie_truthy pg value :
  GppApi.getGppConsentFromCookie pg = Some value -> string_truthy value = true.
Proof.
  unfold GppApi.getGppConsentFromCookie.
  destruct (GppApi.document_cookie pg) as [cookie|e]; [|discriminate]. cbv zeta.
  destruct (GppApi.getCookie "gpp" cookie) as [g|] eqn:Hg; cbn [Client.truthy_string negb].
  { rewrite (getCookie_truthy _ _ _ Hg). cbn [negb]. intros [= <-].
    exact (getCookie_truthy _ _ _ Hg). }
  destruct (GppApi.getCookie "usprivacy" cookie) as [u|] eqn:Hu;
    cbn [Client.truthy_string].
  { rewrite (getCookie_truthy _ _ _ Hu). intros [= <-].
    exact (getCookie_truthy _ _ _ Hu). }
  destruct (GppApi.getCookie "euconsent-v2" cookie) as [t|] eqn:Ht;
    cbn [Client.truthy_string]; [|discriminate].
  rewrite (getCookie_truthy _ _ _ Ht). intros [= <-]. exact (getCookie_truthy _ _ _ Ht).
Qed.

Lemma callback_truthy pg call value :
  GppApi.callback pg call = Some value -> string_truthy value = true.
Proof.
  unfold GppApi.callback. destruct call as [[data|] [|]];
    try apply consent_from_cookie_truthy.
  destruct (GppApi.gppString data) as [g|] eqn:Hg; cbn [Client.truthy_string];
    [|apply consent_from_cookie_truthy].
  destruct (string_truthy g) eqn:Ht; [|apply consent_from_cookie_truthy].
  by intros [= <-].
Qed.

(** X25: the consent string that [getGppConsentString] resolves to is never
    the empty text: it is [undefined] or a text with a character, whatever
    the consent platform passes to the callback and whatever the cookies
    are; and the promise is rejected only when [window.__gpp] throws before
    it has called the callback. *)
Theorem consent_string_is_never_empty pg :
  match GppApi.getGppConsentString pg with
  | GppApi.Resolved consent => consent <> Some EmptyString
  | GppApi.Rejected e =>
      exists call,
        GppApi.gpp pg = Some call /\ GppApi.during call = [] /\
        GppApi.throws call = Some e
  | GppApi.Pending =>
      exists call,
        GppApi.gpp pg = Some call /\ GppApi.during call = [] /\
        GppApi.throws call = None /\ GppApi.later call = []
  end.
Proof.
  assert (Hcookie : GppApi.getGppConsentFromCookie pg <> Some EmptyString).
  { intros H. apply consent_from_cookie_truthy in H. discriminate. }
  assert (Hcallback : forall call, GppApi.callback pg call <> Some EmptyString).
  { intros call H. apply callback_truthy in H. discriminate. }
  unfold GppApi.getGppConsentString.
  destruct (GppApi.gpp pg) as [call|]; [|exact Hcookie].
  destruct (GppApi.during call) as [|first rest] eqn:Hduring; [|apply Hcallback].
  destruct (GppApi.throws call) as [e|] eqn:Hthrows; [by exists call|].
  destruct (GppApi.later call) as [|first rest] eqn:Hlater; [by exists call|].
  apply Hcallback.
Qed.

(** ** The replay of the queue *)

Lemma drain_replays pg calls cs log :
  Loader.drain pg (List.map Loader.item_of calls) cs log
  = (cs ++ Replay.callable pg calls,
     log ++ Replay.failures pg (Replay.callable pg calls), None).
Proof.
  unfold Replay.callable, Replay.failures.
  revert cs log. induction calls as [|c calls IH]; intros cs log.
  - cbn. by rewrite !app_nil_r.
  - assert (Hstep :
              Loader.drain pg (List.map Loader.item_of (c :: calls)) cs log
              = if Loader.is_function pg (fst (Replay.call_of c)) then
                  if Loader.call_throws pg (fst (Replay.call_of c)) (snd (Replay.call_of c))
                  then Loader.drain pg (List.map Loader.item_of calls)
                         (cs ++ [Replay.call_of c])
                         (log ++ ["newspassid: Error executing queued command"])
                  else Loader.drain pg (List.map Loader.item_of calls)
                         (cs ++ [Replay.call_of c]) log
                else Loader.drain pg (List.map Loader.item_of calls) cs log).
    { by destruct c. }
    rewrite Hstep. cbn [List.map List.filter].
    destruct (Loader.is_function pg (fst (Replay.call_of c))); [|apply IH].
    cbn [List.filter List.map].
    destruct (Loader.call_throws pg (fst (Replay.call_of c)) (snd (Replay.call_of c)));
      rewrite IH; cbn [List.map]; by rewrite <- !app_assoc.
Qed.

(** X26: the session of a page whose bundle loads.  Whatever the page called
    on the stub before the bundle had loaded, the real client receives
    these calls in the order they were made, each with its arguments (a
    call of something that is not a method of the client is dropped), then
    the default [setID()] of the timer; a call that throws is logged and
    does not stop the replay; in the end the queue is empty, the real client
    is installed and the flag is set. *)
Theorem session_replays_in_order pg calls :
  Loader.createNewsPassID_defined pg = true ->
  let w := Loader.session pg (List.map Loader.apply_stub calls) Loader.fresh_window in
  Loader.client_calls w = Replay.callable pg calls ++ [("setID", [])] /\
  Loader.loader_console w = Replay.failures pg (Replay.callable pg calls) /\
  Loader.newspassid_q w = Some [] /\
  Loader.real_client_installed w = true /\
  Loader.newspass_initialized w = Some true /\
  Loader.timers w = [].
Proof.
  intros Hdef. cbv zeta. unfold Loader.session.
  change (Loader.loader_init Loader.fresh_window)
    with (Loader.mkWindow (Some []) false (Some false) None [] [] []).
  rewrite fold_stub_calls. cbn [app].
  unfold Loader.onload. rewrite Hdef.
  cbn [negb Loader.newspassid_q Loader.client_calls Loader.loader_console
       Loader.newspass_initialized Loader.timers default app].
  rewrite drain_replays. cbn [app].
  unfold Loader.elapse.
  cbn [Loader.timers Loader.run_timers Loader.run_callback Loader.client_calls
       Loader.newspassid_q Loader.real_client_installed Loader.newspass_initialized
       Loader.newspass_segments Loader.loader_console].
  change (negb (id false)) with true.
  cbn [Loader.run_timers Loader.run_callback Loader.client_calls Loader.timers
       Loader.newspassid_q Loader.real_client_installed Loader.newspass_initialized
       Loader.newspass_segments Loader.loader_console].
  repeat split; reflexivity.
Qed.

Lemma session_replays_in_order_witness :
  let calls := [Loader.CallGetID; Loader.CallSetID (Some "publisher-1")] in
  let w :=
    Loader.session Scenarios.page (List.map Loader.apply_stub calls)
      Loader.fresh_window in
  Loader.client_calls w = Replay.callable Scenarios.page calls ++ [("setID", [])] /\
  Loader.loader_console w
  = Replay.failures Scenarios.page (Replay.callable Scenarios.page calls) /\
  Loader.newspassid_q w = Some [] /\
  Loader.real_client_installed w = true /\
  Loader.newspass_initialized w = Some true /\
  Loader.timers w = [].
Proof.
  apply (session_replays_in_order Scenarios.page
           [Loader.CallGetID; Loader.CallSetID (Some "publisher-1")]).
  reflexivity.
Defined.

(** X27: a page whose bundle does not define [createNewsPassID]: nothing of
    what the page called on the stub is ever executed.  The calls stay in
    the queue, the stub stays in place, no timer is set and the failure is
    logged once. *)
Theorem session_without_bundle pg calls :
  Loader.createNewsPassID_defined pg = false ->
  let w := Loader.session pg (List.map Loader.apply_stub calls) Loader.fresh_window in
  Loader.client_calls w = [] /\
  Loader.newspassid_q w = Some (List.map Loader.item_of calls) /\
  Loader.real_client_installed w = false /\
  Loader.newspass_initialized w = Some false /\
  Loader.timers w = [] /\
  Loader.loader_console w = ["newspassid: createNewsPassID function not found"].
Proof.
  intros Hdef. cbv zeta. unfold Loader.session.
  change (Loader.loader_init Loader.fresh_window)
    with (Loader.mkWindow (Some []) false (Some false) None [] [] []).
  rewrite fold_stub_calls. cbn [app].
  unfold Loader.onload. rewrite Hdef. cbn [negb].
  repeat split; reflexivity.
Qed.

Lemma session_without_bundle_witness :
  let pg := Loader.mkPage false None (fun _ => true) (fun _ _ => false) in
  let calls := [Loader.CallSetID (Some "publisher-1")] in
  let w := Loader.session pg (List.map Loader.apply_stub calls) Loader.fresh_window in
  Loader.client_calls w = [] /\
  Loader.newspassid_q w = Some (List.map Loader.item_of calls) /\
  Loader.real_client_installed w = false /\
  Loader.newspass_initialized w = Some false /\
  Loader.timers w = [] /\
  Loader.loader_console w = ["newspassid: createNewsPassID function not found"].
Proof.
  apply (session_without_bundle
           (Loader.mkPage false None (fun _ => true) (fun _ _ => false))
           [Loader.CallSetID (Some "publisher-1")]).
  reflexivity.
Defined.
